(** * Tempesta DB: entry point and public interfaces (db/core/main.c)

    A shallow embedding of the public interface of Tempesta DB.  The
    functions of [main.c] are written as state-passing computations over
    the table handle [TDB]; a call returns, fires a [BUG_ON], faults or
    spins.  The hash trie of [htrie.c] and the declarations of [tdb.h],
    [htrie.h], [table.h] and [file.h] are not part of the sources at hand:
    the trie is modelled from the specification, and the table registry,
    the file provider and the kernel allocator are parameters of
    [tdb_open].

    The first part holds the definitions: the data model, the trie, the
    public interface, the notions that the statements use, the step
    machine of concurrent callers of [tdb_rec_get_alloc] and sample
    tables.  The second part holds the lemmas and the theorems. *)

From Stdlib Require Import ZArith Lia Bool Ascii String DecimalString.
From stdpp Require Import base tactics option list.

Local Open Scope Z_scope.

Set Warnings "-register-all".

(** ** Outcomes of a kernel call *)

(** A call either returns, or fires a [BUG_ON] (kernel panic), or accesses
    memory through a NULL or dangling pointer, or spins forever on a lock
    that is held. *)
Inductive outcome (A : Type) : Type :=
| Ret (a : A)
| Bug
| Fault
| Spin.

Arguments Ret {A} a.
Arguments Bug {A}.
Arguments Fault {A}.
Arguments Spin {A}.

(** State and outcome monad: a computation over a state [S]. *)
Definition M (S A : Type) : Type := S -> outcome (A * S).

Definition ret {S A : Type} (a : A) : M S A := fun s => Ret (a, s).

Definition bind {S A B : Type} (m : M S A) (k : A -> M S B) : M S B :=
  fun s =>
    match m s with
    | Ret (a, s') => k a s'
    | Bug => Bug
    | Fault => Fault
    | Spin => Spin
    end.

Declare Scope tdb_scope.
Delimit Scope tdb_scope with tdb.
Notation "x <- m ;; k" := (bind m (fun x => k))
  (at level 100, m at next level, right associativity) : tdb_scope.
Notation "m ;;; k" := (bind m (fun _ => k))
  (at level 100, right associativity) : tdb_scope.
Local Open Scope tdb_scope.

(** [BUG_ON(c)]: the kernel stops when [c] holds. *)
Definition BUG_ON {S : Type} (c : bool) : M S unit :=
  fun s => if c then Bug else Ret (tt, s).

(** ** Machine integers *)

(** Conversion to [unsigned long] and to [unsigned int]. *)
Definition u64 (z : Z) : Z := z mod 2 ^ 64.
Definition u32 (z : Z) : Z := z mod 2 ^ 32.

(** ** Data model *)

(** Modelled from the spec: the record layout of [htrie.h], which is not
    among the sources.  A record block carries its 64-bit key, the link to
    the next data fragment, the length of its data, a reference counter,
    the complete and tombstone flags and the payload bytes.  A block is
    addressed by its offset in the record area. *)
Record TdbRec : Type := mkTdbRec {
  rec_key : Z;
  chunk_next : option nat;
  rec_len : Z;
  refcnt : Z;
  rec_complete : bool;
  rec_tombstone : bool;
  rec_data : string
}.

(** Modelled from the spec: a bucket is a leaf container of record offsets
    with a link to its overflow bucket; the overflow chain is linear. *)
Inductive TdbBucket : Type :=
| Bckt (slots : list nat) (coll_next : option TdbBucket).

(** Modelled from the spec: a trie slot is empty, points to a bucket or
    points to a child node of fan-out [TDB_HTRIE_FANOUT]. *)
Inductive TdbSlot : Type :=
| SlotEmpty
| SlotBckt (b : TdbBucket)
| SlotNode (children : list TdbSlot).

(** Modelled from the spec: the header of the mapped extent with the root
    of the trie, the record area, the allocator state (bytes in use and
    the size of the mapping) and the number of record slots of a bucket. *)
Record TdbHdr : Type := mkTdbHdr {
  root : TdbSlot;
  recs : list TdbRec;
  used : Z;
  dbsz : Z;
  bckt_slots : nat
}.

(** Modelled from the spec: 4 key bits per level, fan-out 16, depth 16. *)
Definition TDB_HTRIE_BITS : Z := 4.
Definition TDB_HTRIE_FANOUT : nat := 16.
Definition TDB_HTRIE_DEPTH : nat := 16.

(** Modelled from the spec: the threshold [T_small] below which a record
    is small (always complete, one block), [TDB_HTRIE_MINDREC] of
    [htrie.h]; it is taken as 128 bytes. *)
Definition TDB_HTRIE_MINDREC : Z := 128.

(** Equality callback [tdb_eq_cb_t]: pure by contract. *)
Definition tdb_eq_cb_t (C : Type) : Type := TdbRec -> C -> bool.

Definition set_recs (h : TdbHdr) (rs : list TdbRec) : TdbHdr :=
  mkTdbHdr (root h) rs (used h) (dbsz h) (bckt_slots h).

Definition set_refcnt (r : TdbRec) (c : Z) : TdbRec :=
  mkTdbRec (rec_key r) (chunk_next r) (rec_len r) c
           (rec_complete r) (rec_tombstone r) (rec_data r).

Definition set_complete (r : TdbRec) (c : bool) : TdbRec :=
  mkTdbRec (rec_key r) (chunk_next r) (rec_len r) (refcnt r)
           c (rec_tombstone r) (rec_data r).

Definition set_tombstone (r : TdbRec) (t : bool) : TdbRec :=
  mkTdbRec (rec_key r) (chunk_next r) (rec_len r) (refcnt r)
           (rec_complete r) t (rec_data r).

Definition set_len (r : TdbRec) (l : Z) : TdbRec :=
  mkTdbRec (rec_key r) (chunk_next r) l (refcnt r)
           (rec_complete r) (rec_tombstone r) (rec_data r).

Definition set_chunk_next (r : TdbRec) (n : option nat) : TdbRec :=
  mkTdbRec (rec_key r) n (rec_len r) (refcnt r)
           (rec_complete r) (rec_tombstone r) (rec_data r).

(** Update of the record at offset [p]; nothing happens out of range. *)
Definition upd_rec (h : TdbHdr) (p : nat) (f : TdbRec -> TdbRec) : TdbHdr :=
  match recs h !! p with
  | Some r => set_recs h (<[p := f r]> (recs h))
  | None => h
  end.

(** [tdb_rec_is_complete] and [tdb_rec_mark_complete] of [htrie.h]. *)
Definition tdb_rec_is_complete (r : TdbRec) : bool := rec_complete r.
Definition tdb_rec_mark_complete (r : TdbRec) : TdbRec := set_complete r true.

(** Modelled from the spec: a record is visible to lookup iff it is
    complete and not tombstoned. *)
Definition tdb_live_rec (r : TdbRec) : bool :=
  rec_complete r && negb (rec_tombstone r).

(** ** Hash trie (modelled from the spec) *)

(** Modelled from the spec: the slot index of [key] at [level] is
    [(key >> (level * log2 F)) & (F - 1)]. *)
Definition htrie_idx (key : Z) (level : Z) : nat :=
  Z.to_nat (Z.land (Z.shiftr key (level * TDB_HTRIE_BITS))
                   (Z.of_nat TDB_HTRIE_FANOUT - 1)).

(** Modelled from the spec: descent stops at the first slot that is empty
    or a bucket. *)
Fixpoint htrie_descend (fuel : nat) (level : Z) (s : TdbSlot) (key : Z)
  : option TdbBucket :=
  match s with
  | SlotEmpty => None
  | SlotBckt b => Some b
  | SlotNode ch =>
      match fuel with
      | O => None
      | S f =>
          match ch !! htrie_idx key level with
          | Some c => htrie_descend f (level + 1) c key
          | None => None
          end
      end
  end.

(** Modelled from the spec: [tdb_htrie_lookup] of [htrie.c] returns the
    bucket the key lands in, or NULL for an empty slot. *)
Definition tdb_htrie_lookup (h : TdbHdr) (key : Z) : option TdbBucket :=
  htrie_descend TDB_HTRIE_DEPTH 0 (root h) key.

(** Modelled from the spec: reference counting of [htrie.c]. *)
Definition tdb_htrie_get_rec (h : TdbHdr) (p : nat) : TdbHdr :=
  upd_rec h p (fun r => set_refcnt r (refcnt r + 1)).

Definition tdb_htrie_put_rec (h : TdbHdr) (p : nat) : TdbHdr :=
  upd_rec h p (fun r => set_refcnt r (refcnt r - 1)).

(** The record at offset [p] is visible and carries the full key [key]. *)
Definition rec_matches (rs : list TdbRec) (key : Z) (p : nat) : bool :=
  match rs !! p with
  | Some r => tdb_live_rec r && (rec_key r =? key)
  | None => false
  end.

(** Scan of the record slots of one bucket: the first matching record and
    the slots that follow it. *)
Fixpoint scan_slots (rs : list TdbRec) (key : Z) (slots : list nat)
  : option (nat * list nat) :=
  match slots with
  | [] => None
  | p :: rest =>
      if rec_matches rs key p then Some (p, rest)
      else scan_slots rs key rest
  end.

(** Scan of a bucket and of its overflow chain.  The bucket returned is the
    position of the scan: the bucket of the record found, from the slot
    after that record on. *)
Fixpoint bckt_scan (rs : list TdbRec) (key : Z) (b : TdbBucket)
  : option nat * TdbBucket :=
  match b with
  | Bckt slots ovf =>
      match scan_slots rs key slots with
      | Some (p, rest) => (Some p, Bckt rest ovf)
      | None =>
          match ovf with
          | Some b' => bckt_scan rs key b'
          | None => (None, Bckt [] None)
          end
      end
  end.

(** Modelled from the spec: [tdb_htrie_bscan_for_rec] of [htrie.c] returns
    the first record of the collision chain that has the key, is complete
    and is not tombstoned, with its reference counter incremented, and
    moves the bucket pointer along the chain. *)
Definition tdb_htrie_bscan_for_rec (h : TdbHdr) (b : TdbBucket) (key : Z)
  : TdbHdr * TdbBucket * option nat :=
  match bckt_scan (recs h) key b with
  | (Some p, b') => (tdb_htrie_get_rec h p, b', Some p)
  | (None, b') => (h, b', None)
  end.

(** Modelled from the spec: [tdb_htrie_next_rec] of [htrie.c] continues
    from the current bucket slot and follows the overflow link; the
    reference of the iterator moves from the record left to the record
    found. *)
Definition tdb_htrie_next_rec (h : TdbHdr) (r : nat) (b : TdbBucket) (key : Z)
  : TdbHdr * TdbBucket * option nat :=
  tdb_htrie_bscan_for_rec (tdb_htrie_put_rec h r) b key.

(** All record offsets of a bucket and of its overflow chain, in scan
    order. *)
Fixpoint bckt_recs (b : TdbBucket) : list nat :=
  match b with
  | Bckt slots ovf =>
      slots ++ match ovf with Some b' => bckt_recs b' | None => [] end
  end.

(** All record offsets below a slot, in trie order. *)
Fixpoint slot_recs (s : TdbSlot) : list nat :=
  match s with
  | SlotEmpty => []
  | SlotBckt b => bckt_recs b
  | SlotNode ch => flat_map slot_recs ch
  end.

Definition rec_key_at (rs : list TdbRec) (p : nat) : Z :=
  match rs !! p with
  | Some r => rec_key r
  | None => 0
  end.

(** Modelled from the spec: a full bucket at maximum depth links an
    overflow bucket. *)
Fixpoint bckt_push (cap : nat) (b : TdbBucket) (p : nat) : TdbBucket :=
  match b with
  | Bckt slots ovf =>
      if (length slots <? cap)%nat then Bckt (slots ++ [p]) ovf
      else
        match ovf with
        | Some b' => Bckt slots (Some (bckt_push cap b' p))
        | None => Bckt slots (Some (Bckt [p] None))
        end
  end.

(** Modelled from the spec: installation of the record at offset [p] in
    the trie.  An empty slot gets a new bucket; a full bucket at a
    non-terminal depth is replaced by a child node over which its records
    are distributed by the next bit group of their keys; a full bucket at
    maximum depth gets an overflow bucket. *)
Fixpoint htrie_install (fuel : nat) (level : Z) (rs : list TdbRec)
    (cap : nat) (s : TdbSlot) (key : Z) (p : nat) : TdbSlot :=
  match s with
  | SlotEmpty => SlotBckt (Bckt [p] None)
  | SlotBckt b =>
      match fuel with
      | O => SlotBckt (bckt_push cap b p)
      | S f =>
          if (length (bckt_recs b) <? cap)%nat then SlotBckt (bckt_push cap b p)
          else
            let put := fun (ch : list TdbSlot) (q : nat) =>
              let k := rec_key_at rs q in
              match ch !! htrie_idx k level with
              | Some c =>
                  <[htrie_idx k level :=
                      htrie_install f (level + 1) rs cap c k q]> ch
              | None => ch
              end in
            SlotNode (fold_left put (bckt_recs b ++ [p])
                                (replicate TDB_HTRIE_FANOUT SlotEmpty))
      end
  | SlotNode ch =>
      match fuel with
      | O => s
      | S f =>
          match ch !! htrie_idx key level with
          | Some c =>
              SlotNode (<[htrie_idx key level :=
                            htrie_install f (level + 1) rs cap c key p]> ch)
          | None => s
          end
      end
  end.

(** Removal of one record: the tombstone is set and the reference of the
    index is dropped, for a record that has the key, is not tombstoned
    yet, is complete (or removal is forced) and is accepted by the
    equality callback. *)
Definition htrie_remove_rec (key : Z) (eq_cb : tdb_eq_cb_t Z) (data : Z)
    (force : bool) (h : TdbHdr) (p : nat) : TdbHdr :=
  match recs h !! p with
  | Some r =>
      if (rec_key r =? key) && negb (rec_tombstone r)
         && (rec_complete r || force) && eq_cb r data
      then upd_rec h p (fun r => set_refcnt (set_tombstone r true) (refcnt r - 1))
      else h
  | None => h
  end.

(** Modelled from the spec: [tdb_htrie_remove] of [htrie.c] finds the
    matching records of the collision chain, sets their tombstone flag and
    decrements the reference of the index; incomplete records are removed
    only when forced. *)
Definition tdb_htrie_remove (h : TdbHdr) (key : Z) (eq_cb : tdb_eq_cb_t Z)
    (data : Z) (force : bool) : TdbHdr :=
  match tdb_htrie_lookup h key with
  | Some b => fold_left (htrie_remove_rec key eq_cb data force) (bckt_recs b) h
  | None => h
  end.

(** Modelled from the spec: [tdb_htrie_insert] of [htrie.c].  Allocation
    fails when the mapping has no room left.  With an equality callback
    the matching records are tombstoned first.  The new record is owned by
    the index and referenced by the caller; it holds the first [len] bytes
    of [data], if any, and is complete iff [complete] is set. *)
Definition tdb_htrie_insert (h : TdbHdr) (key : Z) (data : option string)
    (eq_cb : option (tdb_eq_cb_t Z)) (eq_data : Z) (len : Z) (complete : bool)
  : TdbHdr * option nat :=
  if used h + len <=? dbsz h then
    let h1 := match eq_cb with
              | Some eq => tdb_htrie_remove h key eq eq_data false
              | None => h
              end in
    let p := length (recs h1) in
    let body := match data with
                | Some d => substring 0 (Z.to_nat len) d
                | None => EmptyString
                end in
    let rs := recs h1 ++ [mkTdbRec key None len 2 complete false body] in
    (mkTdbHdr (htrie_install TDB_HTRIE_DEPTH 0 rs (bckt_slots h1)
                             (root h1) key p)
              rs (used h1 + len) (dbsz h1) (bckt_slots h1),
     Some p)
  else (h, None).

(** Modelled from the spec: [tdb_htrie_extend_rec] of [htrie.c] allocates
    a fragment block of [size] bytes and links it after the fragment [r];
    the total length of a record is the sum over its fragments. *)
Definition tdb_htrie_extend_rec (h : TdbHdr) (r : nat) (size : Z)
  : TdbHdr * option nat :=
  match recs h !! r with
  | Some v =>
      if used h + size <=? dbsz h then
        let p := length (recs h) in
        let rs := <[r := set_chunk_next v (Some p)]> (recs h)
                  ++ [mkTdbRec (rec_key v) None size 0 false false EmptyString] in
        (mkTdbHdr (root h) rs (used h + size) (dbsz h) (bckt_slots h), Some p)
      else (h, None)
  | None => (h, None)
  end.

(** The visitor of a walk: it sees a record, updates its own state and
    returns an [int]. *)
Definition tdb_walk_fn_t (V : Type) : Type := TdbRec -> V -> Z * V.

Fixpoint htrie_walk_recs {V : Type} (rs : list TdbRec) (fn : tdb_walk_fn_t V)
    (ps : list nat) (v : V) : Z * V :=
  match ps with
  | [] => (0, v)
  | p :: ps' =>
      match rs !! p with
      | Some r =>
          if tdb_live_rec r then
            let '(res, v') := fn r v in
            if res =? 0 then htrie_walk_recs rs fn ps' v' else (res, v')
          else htrie_walk_recs rs fn ps' v
      | None => htrie_walk_recs rs fn ps' v
      end
  end.

(** Modelled from the spec: [tdb_htrie_walk] of [htrie.c] invokes the
    visitor on every complete, non-tombstoned record; a non-zero result of
    the visitor is taken to end the walk. *)
Definition tdb_htrie_walk {V : Type} (h : TdbHdr) (fn : tdb_walk_fn_t V) (v : V)
  : Z * V :=
  htrie_walk_recs (recs h) fn (slot_recs (root h)) v.

(** ** The table handle and the iterator (tdb.h) *)

(** Modelled from the spec: the mapped file of [file.h]; only the size of
    its inode is read by [main.c]. *)
Record TdbFile : Type := mkTdbFile {
  i_size : Z
}.

(** The fields of [TDB] that [main.c] reads and writes: the header of the
    mapping, the lock of get-or-allocate, the number of users, the node,
    the path of the file, the name of the table and the open file. *)
Record TDB : Type := mkTDB {
  hdr : option TdbHdr;
  ga_lock : bool;
  count : Z;
  node : Z;
  path : string;
  tbl_name : string;
  filp : option TdbFile
}.

Definition set_hdr (db : TDB) (h : option TdbHdr) : TDB :=
  mkTDB h (ga_lock db) (count db) (node db) (path db) (tbl_name db) (filp db).

Definition set_ga_lock (db : TDB) (l : bool) : TDB :=
  mkTDB (hdr db) l (count db) (node db) (path db) (tbl_name db) (filp db).

Definition set_count (db : TDB) (c : Z) : TDB :=
  mkTDB (hdr db) (ga_lock db) c (node db) (path db) (tbl_name db) (filp db).

Definition set_node (db : TDB) (n : Z) : TDB :=
  mkTDB (hdr db) (ga_lock db) (count db) n (path db) (tbl_name db) (filp db).

Definition set_filp (db : TDB) (f : option TdbFile) : TDB :=
  mkTDB (hdr db) (ga_lock db) (count db) (node db) (path db) (tbl_name db) f.

(** [TdbIter]: the record the iterator stands on and its bucket. *)
Record TdbIter : Type := mkTdbIter {
  rec : option nat;
  bckt : option TdbBucket
}.

Definition TDB_ITER_BAD (i : TdbIter) : bool :=
  match rec i with
  | None => true
  | Some _ => false
  end.

(** A call into [htrie.c] through [db->hdr]. *)
Definition with_hdr {A : Type} (f : TdbHdr -> TdbHdr * A) : M TDB A :=
  fun db =>
    match hdr db with
    | Some h => let '(h', a) := f h in Ret (a, set_hdr db (Some h'))
    | None => Fault
    end.

(** Read of the record behind a record pointer. *)
Definition deref (p : nat) : M TDB TdbRec :=
  fun db =>
    match hdr db with
    | Some h =>
        match recs h !! p with
        | Some r => Ret (r, db)
        | None => Fault
        end
    | None => Fault
    end.

Definition spin_lock_ga : M TDB unit :=
  fun db => if ga_lock db then Spin else Ret (tt, set_ga_lock db true).

Definition spin_unlock_ga : M TDB unit :=
  fun db => Ret (tt, set_ga_lock db false).

(** ** Public interface (main.c) *)

Definition tdb_entry_create (db : TDB) (key : Z) (data : option string)
    (len : Z) : outcome (option nat * TDB) :=
  (BUG_ON (bool_decide (data = None)) ;;;
   r <- with_hdr (fun h => tdb_htrie_insert h key data None 0 len true) ;;
   ret r) db.

Definition tdb_entry_alloc_unique (db : TDB) (key : Z) (len : Z)
    (eq_cb : option (tdb_eq_cb_t Z)) (eq_data : Z)
  : outcome (option nat * TDB) :=
  (BUG_ON (len <? TDB_HTRIE_MINDREC) ;;;
   r <- with_hdr (fun h => tdb_htrie_insert h key None eq_cb eq_data len false) ;;
   ret r) db.

Definition tdb_entry_alloc (db : TDB) (key : Z) (len : Z)
  : outcome (option nat * TDB) :=
  (BUG_ON (len <? TDB_HTRIE_MINDREC) ;;;
   r <- with_hdr (fun h => tdb_htrie_insert h key None None 0 len false) ;;
   ret r) db.

Definition tdb_entry_is_complete (db : TDB) (rec : nat)
  : outcome (bool * TDB) :=
  (r <- deref rec ;; ret (tdb_rec_is_complete r)) db.

Definition tdb_entry_mark_complete (db : TDB) (rec : nat)
  : outcome (unit * TDB) :=
  (_ <- deref rec ;;
   with_hdr (fun h => (upd_rec h rec tdb_rec_mark_complete, tt))) db.

Definition tdb_entry_add (db : TDB) (r : nat) (size : Z)
  : outcome (option nat * TDB) :=
  with_hdr (fun h => tdb_htrie_extend_rec h r size) db.

Definition tdb_entry_remove (db : TDB) (key : Z) (eq_cb : tdb_eq_cb_t Z)
    (data : Z) (force : bool) : outcome (unit * TDB) :=
  with_hdr (fun h => (tdb_htrie_remove h key eq_cb data force, tt)) db.

Section GetRoom.

(** The address of the data area of the block at a record offset; the
    layout of the mapping is left open. *)
Variable vrec_data : nat -> Z.

(** [curr_ptr] is an address; the difference of the two pointers is
    compared as a [size_t], and the length of a fragment is an
    [unsigned int]. *)
Definition tdb_entry_get_room (db : TDB) (r : nat) (curr_ptr : Z)
    (tail_len : Z) (tot_size : Z)
  : outcome ((option Z * option nat) * TDB) :=
  (v <- deref r ;;
   if tail_len <=? u64 (vrec_data r + rec_len v - curr_ptr)
   then ret (Some curr_ptr, Some r)
   else
     with_hdr (fun h =>
       (upd_rec h r (fun v => set_len v (u32 (curr_ptr - vrec_data r))), tt)) ;;;
     r' <- with_hdr (fun h => tdb_htrie_extend_rec h r tot_size) ;;
     match r' with
     | Some p => ret (Some (vrec_data p), Some p)
     | None => ret (None, None)
     end) db.

End GetRoom.

Definition tdb_rec_get (db : TDB) (key : Z) : outcome (TdbIter * TDB) :=
  match hdr db with
  | None => Fault
  | Some h =>
      match tdb_htrie_lookup h key with
      | None => Ret (mkTdbIter None None, db)
      | Some b =>
          let '(h', b', r) := tdb_htrie_bscan_for_rec h b key in
          Ret (mkTdbIter r (Some b'), set_hdr db (Some h'))
      end
  end.

Definition tdb_rec_next (db : TDB) (iter : TdbIter)
  : outcome (TdbIter * TDB) :=
  match bckt iter with
  | None => Bug
  | Some b =>
      match rec iter with
      | None => Fault
      | Some p =>
          (r <- deref p ;;
           r' <- with_hdr (fun h =>
                   let '(h', b', r') := tdb_htrie_next_rec h p b (rec_key r) in
                   (h', mkTdbIter r' (Some b'))) ;;
           ret r') db
      end
  end.

Definition tdb_rec_put (db : TDB) (rec : nat) : outcome (unit * TDB) :=
  with_hdr (fun h => (tdb_htrie_put_rec h rec, tt)) db.

Definition tdb_rec_keep (db : TDB) (rec : nat) : outcome (unit * TDB) :=
  with_hdr (fun h => (tdb_htrie_get_rec h rec, tt)) db.

Definition tdb_entry_walk {V : Type} (db : TDB) (fn : tdb_walk_fn_t V) (v : V)
  : outcome ((Z * V) * TDB) :=
  with_hdr (fun h => (h, tdb_htrie_walk h fn v)) db.

(** [TdbGetAllocCtx]: the callbacks, the opaque context handed to them,
    the requested length and the out-flag [is_new]. *)
Record TdbGetAllocCtx : Type := mkTdbGetAllocCtx {
  eq_rec : tdb_eq_cb_t Z;
  precreate_rec : option (Z -> Z);
  init_rec : TdbRec -> Z -> TdbRec;
  ctx : Z;
  len : Z;
  is_new : bool
}.

Definition set_is_new (c : TdbGetAllocCtx) (b : bool) : TdbGetAllocCtx :=
  mkTdbGetAllocCtx (eq_rec c) (precreate_rec c) (init_rec c) (ctx c) (len c) b.

(** The number of record slots an iterator has still to scan. *)
Definition iter_size (iter : TdbIter) : nat :=
  match bckt iter with
  | Some b => length (bckt_recs b)
  | None => O
  end.

(** The [while] loop of [tdb_rec_get_alloc]: the first record of the
    collision chain accepted by [eq_rec], or NULL at the end of the chain.
    The loop is cut after [fuel] rounds. *)
Fixpoint get_alloc_scan (fuel : nat) (c : TdbGetAllocCtx) (iter : TdbIter)
  : M TDB (option nat) :=
  match rec iter with
  | None => ret None
  | Some p =>
      match fuel with
      | O => fun _ => Spin
      | S f =>
          r <- deref p ;;
          if eq_rec c r (ctx c) then ret (Some p)
          else
            iter' <- (fun db => tdb_rec_next db iter) ;;
            get_alloc_scan f c iter'
      end
  end.

Definition precreate_veto (c : TdbGetAllocCtx) : bool :=
  match precreate_rec c with
  | Some f => negb (f (ctx c) =? 0)
  | None => false
  end.

Definition tdb_rec_get_alloc (db : TDB) (key : Z) (c : TdbGetAllocCtx)
  : outcome ((option nat * TdbGetAllocCtx) * TDB) :=
  (spin_lock_ga ;;;
   let c := set_is_new c false in
   iter <- (fun db => tdb_rec_get db key) ;;
   found <- get_alloc_scan (S (iter_size iter)) c iter ;;
   match found with
   | Some p =>
       spin_unlock_ga ;;;
       ret (Some p, c)
   | None =>
       if precreate_veto c then
         spin_unlock_ga ;;;
         ret (None, c)
       else
         let c := set_is_new c true in
         r <- (fun db => tdb_entry_alloc db key (len c)) ;;
         match r with
         | None =>
             spin_unlock_ga ;;;
             ret (None, c)
         | Some p =>
             with_hdr (fun h => (upd_rec h p (fun r => init_rec c r (ctx c)), tt)) ;;;
             (fun db => tdb_entry_mark_complete db p) ;;;
             spin_unlock_ga ;;;
             ret (Some p, c)
         end
   end) db.

(** ** Opening a table (main.c) *)

(** The suffix of a table file; the format strings of [tdb_get_db] spell
    it out.  [sizeof(TDB_SUFFIX)] counts the terminating NUL. *)
Definition TDB_SUFFIX : string := ".tdb".
Definition sizeof_TDB_SUFFIX : Z := Z.of_nat (String.length TDB_SUFFIX) + 1.

(** Modelled from the spec: extents are a power of two, 2 MiB, large. *)
Definition TDB_EXT_BITS : Z := 21.
Definition TDB_EXT_SZ : Z := Z.shiftl 1 TDB_EXT_BITS.
Definition TDB_EXT_MASK : Z := u64 (Z.lnot (TDB_EXT_SZ - 1)).

(** [strrchr]: the index of the last occurrence of a character. *)
Fixpoint strrchr (s : string) (c : ascii) : option nat :=
  match s with
  | EmptyString => None
  | String a s' =>
      match strrchr s' c with
      | Some i => Some (S i)
      | None => if Ascii.eqb a c then Some O else None
      end
  end.

(** The conversion ["%.*s"]: at most [prec] characters of the string, all
    of it for a negative precision. *)
Definition fmt_prec (prec : Z) (s : string) : string :=
  if prec <? 0 then s else substring 0 (Z.to_nat prec) s.

(** The conversion ["%d"]. *)
Definition fmt_d (n : Z) : string := NilZero.string_of_int (Z.to_int n).

(** [snprintf] into a buffer of [size] bytes keeps [size - 1] characters. *)
Definition snprintf (size : nat) (s : string) : string :=
  substring 0 (size - 1) s.

(** The string that [strncmp] reads at [path + off], [n] characters long.
    For a negative offset the bytes [pre] that precede the path in memory
    are read. *)
Definition str_at (pre path : string) (off : Z) (n : nat) : string :=
  if off <? 0
  then substring (String.length pre - Z.to_nat (- off)) n (pre ++ path)
  else substring (Z.to_nat off) n path.

Definition tdb_get (db : TDB) : TDB := set_count db (count db + 1).

Section Open.

(** The state of the collaborators of [main.c]: the table registry of
    [table.c], the files of [file.c] and the kernel allocator. *)
Variable W : Type.

(** The limits of [tdb.h] on the length of a table name and of a path. *)
Variable TDB_TBLNAME_LEN : nat.
Variable TDB_PATH_LEN : nat.

Variable tdb_tbl_lookup : string -> Z -> M W (option TDB).
Variable tdb_tbl_enumerate : TDB -> M W unit.
Variable kzalloc_TDB : M W bool.
Variable tdb_put : TDB -> M W unit.
Variable tdb_file_open : TDB -> Z -> M W (option (TdbFile * option TdbHdr)).
Variable tdb_file_close : TDB -> M W unit.
Variable tdb_htrie_init : option TdbHdr -> Z -> Z -> M W (option TdbHdr).

Definition tdb_get_db (pre path : string) (node : Z) : M W (option TDB) :=
  BUG_ON (9 <? node) ;;;
  let full_len := Z.of_nat (String.length path) in
  if negb (str_at pre path (full_len - sizeof_TDB_SUFFIX + 1)
                  (Z.to_nat (sizeof_TDB_SUFFIX - 1)) =? TDB_SUFFIX)%string
  then ret None
  else
    match strrchr path "/" with
    | None => ret None
    | Some slash =>
        let len := full_len - Z.of_nat slash - sizeof_TDB_SUFFIX in
        BUG_ON (len <? 0) ;;;
        if Z.of_nat TDB_TBLNAME_LEN <=? len + sizeof_TDB_SUFFIX
        then ret None
        else
          let name := substring (S slash) (String.length path - S slash) path in
          let tbl_nname :=
            snprintf TDB_TBLNAME_LEN (fmt_prec len name ++ fmt_d node) in
          db <- tdb_tbl_lookup tbl_nname (len + 1) ;;
          match db with
          | Some db => ret (Some db)
          | None =>
              ok <- kzalloc_TDB ;;
              if negb ok then ret None
              else
                let db := mkTDB None false 0 0
                  (snprintf TDB_PATH_LEN
                     (fmt_prec (full_len - sizeof_TDB_SUFFIX + 1) path
                      ++ fmt_d node ++ ".tdb"))
                  (snprintf TDB_TBLNAME_LEN
                     (fmt_prec len name ++ fmt_d node ++ ".tdb"))
                  None in
                ret (Some (tdb_get db))
          end
    end.

Definition tdb_open (pre path : string) (fsize : Z) (rec_size : Z)
    (node : Z) : M W (option TDB) :=
  if negb (Z.land fsize (u64 (Z.lnot TDB_EXT_MASK)) =? 0)
     || (fsize <? TDB_EXT_SZ)
  then ret None
  else
    db <- tdb_get_db pre path node ;;
    match db with
    | None => ret None
    | Some db =>
        let db := set_node db node in
        fo <- tdb_file_open db fsize ;;
        match fo with
        | None =>
            tdb_put db ;;;
            ret None
        | Some (f, h) =>
            let db := set_hdr (set_filp db (Some f)) h in
            h' <- tdb_htrie_init (hdr db) (i_size f) rec_size ;;
            let db := set_hdr db h' in
            match h' with
            | None =>
                tdb_file_close db ;;;
                tdb_put db ;;;
                ret None
            | Some _ =>
                tdb_tbl_enumerate db ;;;
                let db := set_ga_lock db false in
                ret (Some db)
            end
        end
    end.

End Open.

(** ** A small table to run the interface on *)

Definition hdr0 : TdbHdr := mkTdbHdr SlotEmpty [] 0 4096 2.
Definition db0 : TDB :=
  mkTDB (Some hdr0) false 1 0 "/db/t0.tdb" "t0.tdb" (Some (mkTdbFile 4096)).

(** ** Notions for the statements *)

(** Induction along the overflow chain of a bucket. *)
Fixpoint TdbBucket_chain_ind (P : TdbBucket -> Prop)
    (Hlast : forall slots, P (Bckt slots None))
    (Hmore : forall slots b, P b -> P (Bckt slots (Some b)))
    (b : TdbBucket) : P b :=
  match b with
  | Bckt slots None => Hlast slots
  | Bckt slots (Some b') =>
      Hmore slots b' (TdbBucket_chain_ind P Hlast Hmore b')
  end.

(** The collision chain of a key: the record offsets that a lookup of
    [key] scans. *)
Definition chain (h : TdbHdr) (key : Z) : list nat :=
  match tdb_htrie_lookup h key with
  | Some b => bckt_recs b
  | None => []
  end.

(** The record as an iterator shows it: with the reference of the
    iterator counted. *)
Definition rec_held (r : TdbRec) : TdbRec := set_refcnt r (refcnt r + 1).

(** The record at offset [p] is visible, has the key and satisfies the
    equality callback of the context. *)
Definition rec_accepted (c : TdbGetAllocCtx) (rs : list TdbRec) (key : Z)
    (p : nat) : bool :=
  rec_matches rs key p &&
  match rs !! p with
  | Some r => eq_rec c (rec_held r) (ctx c)
  | None => false
  end.

Definition set_data (r : TdbRec) (d : string) : TdbRec :=
  mkTdbRec (rec_key r) (chunk_next r) (rec_len r) (refcnt r)
           (rec_complete r) (rec_tombstone r) d.

(** A table with one complete record of key 42, a context that accepts
    every record and writes ["X"], and a context that accepts none. *)
Definition db_one : TDB :=
  Eval vm_compute in
    match tdb_entry_create db0 42 (Some "X"%string) 1 with
    | Ret (_, d) => d
    | _ => db0
    end.

(** The empty table after the allocation of an incomplete record. *)
Definition db_alloc : TDB :=
  Eval vm_compute in
    match tdb_entry_alloc db0 42 128 with
    | Ret (_, d) => d
    | _ => db0
    end.

Definition ctx_any : TdbGetAllocCtx :=
  mkTdbGetAllocCtx (fun _ _ => true) None (fun r _ => set_data r "X") 0 128 false.

Definition ctx_none : TdbGetAllocCtx :=
  mkTdbGetAllocCtx (fun _ _ => false) None (fun r _ => set_data r "X") 0 128 false.

Definition ctx_veto : TdbGetAllocCtx :=
  mkTdbGetAllocCtx (fun _ _ => false) (Some (fun _ => -12))
                   (fun r _ => set_data r "X") 0 128 true.

Definition ctx_huge : TdbGetAllocCtx :=
  mkTdbGetAllocCtx (fun _ _ => false) None (fun r _ => set_data r "X") 0 8192 false.

(** The table [hdr0] has room for 4096 bytes: a request of 8192 fails. *)
Definition db_full : TDB :=
  Eval vm_compute in
    match tdb_entry_alloc db0 42 8192 with
    | Ret (_, d) => d
    | _ => db_one
    end.

(** What a caller sees who iterates over a collision chain: [tdb_rec_get]
    followed by [tdb_rec_next] until the iterator is bad. *)
Fixpoint rec_iterate (fuel : nat) (iter : TdbIter) : M TDB (list nat) :=
  match rec iter with
  | None => ret []
  | Some p =>
      match fuel with
      | O => fun _ => Spin
      | S f =>
          iter' <- (fun db => tdb_rec_next db iter) ;;
          rest <- rec_iterate f iter' ;;
          ret (p :: rest)
      end
  end.

Definition lookup_all (db : TDB) (key : Z) : outcome (list nat * TDB) :=
  (iter <- (fun db => tdb_rec_get db key) ;;
   rec_iterate (S (iter_size iter)) iter) db.

(** A layout with blocks of 256 bytes and a record header of 16 bytes. *)
Definition vrec_data0 (p : nat) : Z := Z.of_nat p * 256 + 16.

(** An operation reports a failure when it returns NULL. *)
Definition reports_error {A : Type} (o : outcome (option A * TDB)) : Prop :=
  exists db', o = Ret (None, db').

(** ** Opening a table: the collaborators of a small system *)

(** Modelled from the spec: the table registry of [table.c] maps a name to
    an open handle; the first [len] characters of the names are compared. *)
Definition reg_lookup (name : string) (len : Z) : M (list TDB) (option TDB) :=
  fun w =>
    Ret (List.find (fun d =>
           (substring 0 (Z.to_nat len) (tbl_name d) =?
            substring 0 (Z.to_nat len) name)%string) w, w).

Definition reg_enumerate (db : TDB) : M (list TDB) unit :=
  fun w => Ret (tt, w ++ [db]).

Definition kzalloc_ok : M (list TDB) bool := fun w => Ret (true, w).

Definition put_nop (db : TDB) : M (list TDB) unit := fun w => Ret (tt, w).

(** Modelled from the spec: the mapped-file provider returns an extent of
    the given size. *)
Definition file_open_ok (db : TDB) (fsize : Z)
  : M (list TDB) (option (TdbFile * option TdbHdr)) :=
  fun w => Ret (Some (mkTdbFile fsize, Some (mkTdbHdr SlotEmpty [] 0 0 0)), w).

Definition htrie_init_ok (h : option TdbHdr) (size rec_size : Z)
  : M (list TDB) (option TdbHdr) :=
  fun w => Ret (Some (mkTdbHdr SlotEmpty [] 0 size 2), w).

(** [tdb_open] of the small system, with table names of up to 31 bytes and
    paths of up to 128 bytes. *)
Definition tdb_open0 (pre path : string) (fsize rec_size node : Z)
  : M (list TDB) (option TDB) :=
  tdb_open (list TDB) 31 128 reg_lookup reg_enumerate kzalloc_ok put_nop
           file_open_ok put_nop htrie_init_ok pre path fsize rec_size node.

Definition tdb_get_db0 (pre path : string) (node : Z)
  : M (list TDB) (option TDB) :=
  tdb_get_db (list TDB) 31 128 reg_lookup kzalloc_ok pre path node.

(** The handle that [tdb_open] of the small system returns for the
    relative path ["a/b.tdb"], node 0 and a size of one extent. *)
Definition db_rel : TDB :=
  Eval vm_compute in
    match tdb_open0 "" "a/b.tdb" (2 ^ 21) 64 0 [] with
    | Ret (Some d, _) => d
    | _ => db0
    end.

(** A trie is well formed when its nodes have the full fan-out and are
    nested no deeper than the depth that is left. *)
Fixpoint wf_slot (fuel : nat) (s : TdbSlot) : Prop :=
  match fuel with
  | O => match s with SlotNode _ => False | _ => True end
  | S f =>
      match s with
      | SlotNode ch =>
          length ch = TDB_HTRIE_FANOUT /\ Forall (wf_slot f) ch
      | _ => True
      end
  end.

Definition wf_hdr (h : TdbHdr) : Prop := wf_slot TDB_HTRIE_DEPTH (root h).

(** One step of the distribution of the records of a split bucket. *)
Definition htrie_put (f : nat) (level : Z) (rs : list TdbRec) (cap : nat)
    (ch : list TdbSlot) (q : nat) : list TdbSlot :=
  match ch !! htrie_idx (rec_key_at rs q) level with
  | Some c =>
      <[htrie_idx (rec_key_at rs q) level :=
          htrie_install f (level + 1) rs cap c (rec_key_at rs q) q]> ch
  | None => ch
  end.

(** The initializer of the context leaves a record that has the key, is
    not tombstoned and is accepted by the equality callback. *)
Definition init_accepted (c : TdbGetAllocCtx) (key : Z) : Prop :=
  let r := tdb_rec_mark_complete
             (init_rec c (mkTdbRec key None (len c) 2 false false EmptyString)
                       (ctx c)) in
  rec_key r = key /\ rec_tombstone r = false /\
  eq_rec c (rec_held r) (ctx c) = true.

(** ** Concurrent callers of get-or-allocate *)

(** The program points of [tdb_rec_get_alloc]: at [spin_lock], after it,
    after the loop, before the allocation, before the initializer, before
    the completion, before [spin_unlock], and after the return. *)
Inductive ga_pc : Type :=
| GaStart
| GaLocked
| GaScanned (found : option nat)
| GaCreate
| GaInit (p : nat)
| GaComplete (p : nat)
| GaUnlock (r : option nat)
| GaDone (r : option nat).

(** A caller of [tdb_rec_get_alloc]: its key, its context and its program
    point. *)
Record ga_thread : Type := mkGaThread {
  t_key : Z;
  t_ctx : TdbGetAllocCtx;
  t_pc : ga_pc
}.

(** One step of a caller on the shared table.  A caller at [spin_lock]
    that finds the lock held stays where it is. *)
Definition ga_step (t : ga_thread) : M TDB ga_thread :=
  let k := t_key t in
  let c := t_ctx t in
  match t_pc t with
  | GaStart =>
      fun db =>
        if ga_lock db then Ret (t, db)
        else Ret (mkGaThread k c GaLocked, set_ga_lock db true)
  | GaLocked =>
      let c := set_is_new c false in
      iter <- (fun db => tdb_rec_get db k) ;;
      found <- get_alloc_scan (S (iter_size iter)) c iter ;;
      ret (mkGaThread k c (GaScanned found))
  | GaScanned (Some p) => ret (mkGaThread k c (GaUnlock (Some p)))
  | GaScanned None =>
      if precreate_veto c then ret (mkGaThread k c (GaUnlock None))
      else ret (mkGaThread k (set_is_new c true) GaCreate)
  | GaCreate =>
      r <- (fun db => tdb_entry_alloc db k (len c)) ;;
      match r with
      | None => ret (mkGaThread k c (GaUnlock None))
      | Some p => ret (mkGaThread k c (GaInit p))
      end
  | GaInit p =>
      with_hdr (fun h => (upd_rec h p (fun r => init_rec c r (ctx c)), tt)) ;;;
      ret (mkGaThread k c (GaComplete p))
  | GaComplete p =>
      (fun db => tdb_entry_mark_complete db p) ;;;
      ret (mkGaThread k c (GaUnlock (Some p)))
  | GaUnlock r =>
      spin_unlock_ga ;;;
      ret (mkGaThread k c (GaDone r))
  | GaDone r => ret t
  end.

Fixpoint ga_steps (n : nat) (t : ga_thread) : M TDB ga_thread :=
  match n with
  | O => ret t
  | S n' => t' <- ga_step t ;; ga_steps n' t'
  end.

(** The system: the callers and the table they share. *)
Definition ga_sys : Type := list ga_thread * TDB.

Definition ga_lift (i : nat) (ts : list ga_thread)
    (o : outcome (ga_thread * TDB)) : outcome ga_sys :=
  match o with
  | Ret (t', db') => Ret (<[i := t']> ts, db')
  | Bug => Bug
  | Fault => Fault
  | Spin => Spin
  end.

(** The caller [i] takes a step. *)
Definition ga_sched_step (i : nat) (s : ga_sys) : outcome ga_sys :=
  match fst s !! i with
  | Some t => ga_lift i (fst s) (ga_step t (snd s))
  | None => Ret s
  end.

(** The callers take steps as a schedule tells. *)
Fixpoint ga_run (sched : list nat) (s : ga_sys) : outcome ga_sys :=
  match sched with
  | [] => Ret s
  | i :: rest =>
      match ga_sched_step i s with
      | Ret s' => ga_run rest s'
      | Bug => Bug
      | Fault => Fault
      | Spin => Spin
      end
  end.

(** The caller [i] runs [tdb_rec_get_alloc] from entry to return. *)
Definition ga_call (i : nat) (s : ga_sys) : outcome ga_sys :=
  match fst s !! i with
  | Some t =>
      match tdb_rec_get_alloc (snd s) (t_key t) (t_ctx t) with
      | Ret ((r, c'), db') =>
          Ret (<[i := mkGaThread (t_key t) c' (GaDone r)]> (fst s), db')
      | Bug => Bug
      | Fault => Fault
      | Spin => Spin
      end
  | None => Ret s
  end.

(** The callers run one after the other, in a given order. *)
Fixpoint ga_seq (order : list nat) (s : ga_sys) : outcome ga_sys :=
  match order with
  | [] => Ret s
  | i :: rest =>
      match ga_call i s with
      | Ret s' => ga_seq rest s'
      | Bug => Bug
      | Fault => Fault
      | Spin => Spin
      end
  end.

Definition ga_in_cs (pc : ga_pc) : bool :=
  match pc with
  | GaStart | GaDone _ => false
  | _ => true
  end.

Definition ga_is_done (pc : ga_pc) : bool :=
  match pc with
  | GaDone _ => true
  | _ => false
  end.

(** The number of steps a caller has still to take. *)
Definition ga_rank (pc : ga_pc) : nat :=
  match pc with
  | GaStart => 7
  | GaLocked => 6
  | GaScanned _ => 5
  | GaCreate => 4
  | GaInit _ => 3
  | GaComplete _ => 2
  | GaUnlock _ => 1
  | GaDone _ => 0
  end.

Definition ga_result (k : Z)
    (o : outcome ((option nat * TdbGetAllocCtx) * TDB))
  : outcome (ga_thread * TDB) :=
  match o with
  | Ret ((r, c'), db') => Ret (mkGaThread k c' (GaDone r), db')
  | Bug => Bug
  | Fault => Fault
  | Spin => Spin
  end.

(** The holder of the lock runs to its return while the others wait. *)
Definition ga_finish (j : nat) (s : ga_sys) : outcome ga_sys :=
  match fst s !! j with
  | Some tj => ga_lift j (fst s) (ga_steps 6 tj (snd s))
  | None => Ret s
  end.

(** The invariant of the interleaved runs from [s0].  The callers of
    [order] have taken the lock, in this order; the others are at
    [spin_lock].  When the lock is free, the state is the one that the
    calls of [order] reach one after the other.  When the lock is held,
    the last caller of [order] holds it and is inside its critical
    section; once it has run to its return, the state is the one that the
    calls of [order] reach one after the other. *)
Definition ga_inv (s0 s : ga_sys) (order : list nat) : Prop :=
  NoDup order /\
  (forall i, i ∈ order -> (i < length (fst s0))%nat) /\
  length (fst s) = length (fst s0) /\
  (forall i t, fst s !! i = Some t -> i ∉ order ->
     t_pc t = GaStart /\ fst s0 !! i = Some t) /\
  ((ga_lock (snd s) = false /\
    (forall i t, fst s !! i = Some t -> i ∈ order ->
       ga_is_done (t_pc t) = true) /\
    ga_seq order s0 = Ret s)
   \/
   (ga_lock (snd s) = true /\
    exists order' j tj,
      order = order' ++ [j] /\
      fst s !! j = Some tj /\
      ga_in_cs (t_pc tj) = true /\
      (forall i t, fst s !! i = Some t -> i ∈ order' ->
         ga_is_done (t_pc t) = true) /\
      ga_seq order s0 = ga_finish j s)).

(** The step of the caller [i] takes the lock. *)
Definition ga_acquires (i : nat) (s : ga_sys) : bool :=
  match fst s !! i with
  | Some t =>
      match t_pc t with
      | GaStart => negb (ga_lock (snd s))
      | _ => false
      end
  | None => false
  end.

(** The callers that take the lock in a run, in the order in which they
    take it. *)
Fixpoint ga_order (sched : list nat) (s : ga_sys) : list nat :=
  match sched with
  | [] => []
  | i :: rest =>
      match ga_sched_step i s with
      | Ret s' => (if ga_acquires i s then [i] else []) ++ ga_order rest s'
      | _ => []
      end
  end.

(** A table with three records in three buckets. *)
Definition db_three : TDB :=
  Eval vm_compute in
    match tdb_entry_create db0 0x1111 (Some "alpha"%string) 5 with
    | Ret (_, d1) =>
        match tdb_entry_create d1 0x2222 (Some "beta"%string) 4 with
        | Ret (_, d2) =>
            match tdb_entry_create d2 0x3333 (Some "gamma"%string) 5 with
            | Ret (_, d3) => d3
            | _ => db0
            end
        | _ => db0
        end
    | _ => db0
    end.

(** Two callers with the same key and context on the empty table, and a
    schedule that lets them run to their return. *)
Definition ga_two : list ga_thread :=
  [mkGaThread 42 ctx_any GaStart; mkGaThread 42 ctx_any GaStart].

Definition ga_sched_two : list nat :=
  [1; 0; 1; 0; 1; 1; 0; 1; 1; 0; 1; 0; 0; 0; 0; 0; 0]%nat.

Definition ga_two_end : ga_sys :=
  Eval vm_compute in
    match ga_run ga_sched_two (ga_two, db0) with
    | Ret s => s
    | _ => (ga_two, db0)
    end.

(** The table after a call of [tdb_rec_get_alloc] on the empty table. *)
Definition db_got : TDB :=
  Eval vm_compute in
    match tdb_rec_get_alloc db0 42 ctx_any with
    | Ret (_, d) => d
    | _ => db0
    end.

(** Two callers with keys of different buckets of the table [db_three],
    and the system after each has taken one step. *)
Definition ga_cx : list ga_thread :=
  [mkGaThread 0x1111 ctx_none GaStart; mkGaThread 0x2222 ctx_none GaStart].

Definition ga_cx_end : ga_sys :=
  Eval vm_compute in
    match ga_run [0; 1]%nat (ga_cx, db_three) with
    | Ret s => s
    | _ => (ga_cx, db_three)
    end.

(** The depth of the trie is not unfolded in proofs. *)
(** ** Scenarios *)

(** The payload of the record an iterator stands on. *)
Definition iter_data (o : outcome (TdbIter * TDB)) : option string :=
  match o with
  | Ret (it, db) =>
      p ← rec it; h ← hdr db; r ← recs h !! p; Some (rec_data r)
  | _ => None
  end.

(** The payloads of the records that a lookup with iteration yields. *)
Definition lookup_data (db : TDB) (key : Z) : list string :=
  match lookup_all db key, hdr db with
  | Ret (ps, _), Some h =>
      omap (fun p => rec_data <$> recs h !! p) ps
  | _, _ => []
  end.

(** The table after a sequence of calls that return. *)
Definition after {A : Type} (o : outcome (A * TDB)) : TDB :=
  match o with
  | Ret (_, db) => db
  | _ => db0
  end.

(** Small round trip: two records with different keys. *)
Definition db_s1 : TDB :=
  Eval vm_compute in
    after (tdb_entry_create
             (after (tdb_entry_create db0 0x1111 (Some "alpha"%string) 5))
             0x2222 (Some "beta"%string) 4).

(** Collision chain: three records with one key. *)
Definition db_s2 : TDB :=
  Eval vm_compute in
    after (tdb_entry_create
             (after (tdb_entry_create
                       (after (tdb_entry_create db0 0xDEAD (Some "a"%string) 1))
                       0xDEAD (Some "bb"%string) 2))
             0xDEAD (Some "ccc"%string) 3).

(** Unique replace: a record with key 5, then an allocation that replaces
    every record of the key, completed after its payload is written. *)
Definition db_s4 : TDB :=
  Eval vm_compute in
    let d1 := after (tdb_entry_create db0 5 (Some "v1"%string) 2) in
    match tdb_entry_alloc_unique d1 5 128 (Some (fun _ _ => true)) 0 with
    | Ret (Some p, d2) =>
        let d3 := after (with_hdr
                           (fun h => (upd_rec h p (fun r => set_data r "v2"), tt))
                           d2) in
        after (tdb_entry_mark_complete d3 p)
    | _ => db0
    end.

(** ** Closing a table (main.c) *)

(** Conversion to [int]. *)
Definition s32 (z : Z) : Z := (z + 2 ^ 31) mod 2 ^ 32 - 2 ^ 31.

(** [atomic_dec_and_test] on the number of users of a handle: the counter
    is decremented, and the result tells whether it has reached zero. *)
Definition atomic_dec_and_test (db : TDB) : bool * TDB :=
  let c := s32 (count db - 1) in
  (c =? 0, set_count db c).

Section Close.

(** The state of the collaborators of [main.c]: the table registry, the
    files, the trie and the kernel allocator. *)
Variable W : Type.

Variable tdb_tbl_forget : TDB -> M W unit.
Variable tdb_file_close : TDB -> M W unit.
Variable tdb_htrie_exit : option TdbHdr -> M W unit.
Variable kfree_TDB : TDB -> M W unit.

Definition __do_close_table (db : TDB) : M W unit :=
  tdb_file_close db ;;;
  tdb_htrie_exit (hdr db) ;;;
  kfree_TDB db.

(** The result is the handle as the call leaves it: NULL for a NULL
    argument and for a handle that has been freed. *)
Definition tdb_close (db : option TDB) : M W (option TDB) :=
  match db with
  | None => ret None
  | Some db =>
      let '(zero, db) := atomic_dec_and_test db in
      if negb zero then ret (Some db)
      else
        tdb_tbl_forget db ;;;
        __do_close_table db ;;;
        ret None
  end.

(** [n] calls of [tdb_close] on a handle, one after the other. *)
Fixpoint tdb_close_n (n : nat) (db : option TDB) : M W (option TDB) :=
  match n with
  | O => ret db
  | S n' => db' <- tdb_close db ;; tdb_close_n n' db'
  end.

End Close.

(** ** The info string (main.c) *)

Definition TDB_VERSION : string := "0.2.0".

Definition INT_MAX : Z := 2 ^ 31 - 1.

(** The newline and the terminator of a C string. *)
Definition nl : ascii := "010"%char.
Definition NUL : ascii := "000"%char.

(** The text that [tdb_info] prints first: its format string with the
    version filled in. *)
Definition tdb_info_head : string :=
  String nl ("Tempesta DB version: " ++ TDB_VERSION
             ++ String nl "Open tables: ").

Section Info.

Variable W : Type.

(** [tdb_tbl_print_all] of [table.c]: it gets the buffer, the offset in
    the buffer at which it is to print and the size that is left there,
    and returns the number of characters and the buffer. *)
Variable tdb_tbl_print_all : list ascii -> Z -> Z -> M W (Z * list ascii).

(** The kernel's [snprintf] of a text with no conversion left, at the
    start of a buffer, which is the list of its bytes.  Nothing is printed
    for a size beyond [INT_MAX], with result 0; otherwise at most
    [size - 1] characters and the terminator are stored, and the length of
    the whole text is returned.  A store beyond the buffer is a fault. *)
Definition buf_snprintf (buf : list ascii) (size : Z) (s : string)
  : M W (Z * list ascii) :=
  fun w =>
    if INT_MAX <? size then Ret ((0, buf), w)
    else if size =? 0 then Ret ((Z.of_nat (String.length s), buf), w)
    else
      let cs := list_ascii_of_string (substring 0 (Z.to_nat size - 1) s) in
      if (length cs <? length buf)%nat
      then Ret ((Z.of_nat (String.length s),
                 list_inserts 0 (cs ++ [NUL]) buf), w)
      else Fault.

(** The store [buf[i] = c]. *)
Definition buf_store (buf : list ascii) (i : Z) (c : ascii)
  : M W (list ascii) :=
  fun w =>
    if (0 <=? i) && (i <? Z.of_nat (length buf))
    then Ret (<[Z.to_nat i := c]> buf, w)
    else Fault.

(** [n] is an [int]; [len - n] is passed as a [size_t]. *)
Definition tdb_info (buf : list ascii) (len : Z) : M W (Z * list ascii) :=
  r <- buf_snprintf buf len tdb_info_head ;;
  let '(n, buf) := r in
  if n <=? 0 then ret (n, buf)
  else
    r <- tdb_tbl_print_all buf n (u64 (len - n)) ;;
    let '(m, buf) := r in
    let n := s32 (n + m) in
    buf <- buf_store buf (n - 1) nl ;;
    ret (n, buf).

End Info.

(** ** Further notions and samples *)

(** The checks of [tdb_get_db] on a path, put together: the path has a
    slash, the suffix follows the last slash and ends the path, and the
    characters from the last slash on are fewer than a table name holds. *)
Definition tdb_path_ok (tblname_len : nat) (fpath : string) : bool :=
  match strrchr fpath "/" with
  | Some slash =>
      (slash + 5 <=? String.length fpath)%nat
      && (substring (String.length fpath - 4) 4 fpath =? TDB_SUFFIX)%string
      && (String.length fpath - slash <? tblname_len)%nat
  | None => false
  end.

(** The record [r'] is the record [r] with one reference more: its
    reference counter is one higher and its other fields are the same. *)
Definition rec_ref_taken (r r' : TdbRec) : Prop :=
  refcnt r' = refcnt r + 1 /\
  rec_key r' = rec_key r /\ chunk_next r' = chunk_next r /\
  rec_len r' = rec_len r /\ rec_complete r' = rec_complete r /\
  rec_tombstone r' = rec_tombstone r /\ rec_data r' = rec_data r.

(** The record [r'] is the record [r] made complete: its complete flag is
    set and its other fields are the same. *)
Definition rec_completed (r r' : TdbRec) : Prop :=
  rec_complete r' = true /\
  rec_key r' = rec_key r /\ chunk_next r' = chunk_next r /\
  rec_len r' = rec_len r /\ refcnt r' = refcnt r /\
  rec_tombstone r' = rec_tombstone r /\ rec_data r' = rec_data r.

(** The fragment [v'] is the fragment [v] cut to the length [l]: its
    length is [l] and its other fields are the same. *)
Definition rec_chopped (l : Z) (v v' : TdbRec) : Prop :=
  rec_len v' = l /\
  rec_key v' = rec_key v /\ chunk_next v' = chunk_next v /\
  refcnt v' = refcnt v /\ rec_complete v' = rec_complete v /\
  rec_tombstone v' = rec_tombstone v /\ rec_data v' = rec_data v.

(** The context [c'] is the context [c] with the out-flag [is_new] set to
    [b]: the callbacks, the opaque context and the length are the same. *)
Definition ctx_is_new (b : bool) (c c' : TdbGetAllocCtx) : Prop :=
  is_new c' = b /\
  eq_rec c' = eq_rec c /\ precreate_rec c' = precreate_rec c /\
  init_rec c' = init_rec c /\ ctx c' = ctx c /\ len c' = len c.

(** A call returns: it ends with a value, which is the result or the NULL
    of an error, and neither stops the kernel nor faults nor spins. *)
Definition returns {S A : Type} (o : outcome (A * S)) : Prop :=
  exists a s, o = Ret (a, s).

(** Collaborators that record their calls in a log. *)
Definition log_event {A : Type} (e : string) (_ : A) : M (list string) unit :=
  fun w => Ret (tt, w ++ [e]).

Definition tdb_close_n0 (n : nat) (db : option TDB)
  : M (list string) (option TDB) :=
  tdb_close_n (list string) (log_event "tdb_tbl_forget")
    (log_event "tdb_file_close") (log_event "tdb_htrie_exit")
    (log_event "kfree") n db.

(** A printer of the open tables: it prints the text [t] when the size
    leaves room for it and for its terminator, and nothing otherwise. *)
Definition print_text (t : string) (buf : list ascii) (off size : Z)
  : M unit (Z * list ascii) :=
  fun w =>
    if Z.of_nat (String.length t) <? size
    then Ret ((Z.of_nat (String.length t),
               list_inserts (Z.to_nat off) (list_ascii_of_string t ++ [NUL]) buf),
              w)
    else Ret ((0, buf), w).

(** A context that accepts no record and asks for fewer bytes than a
    large record has. *)
Definition ctx_small : TdbGetAllocCtx :=
  mkTdbGetAllocCtx (fun _ _ => false) None (fun r _ => set_data r "X") 0 64 false.

(** The table [db_one] while a caller holds its record. *)
Definition db_one_held : TDB :=
  Eval vm_compute in
    match tdb_rec_get_alloc db_one 42 ctx_any with
    | Ret (_, d) => d
    | _ => db_one
    end.

(** The table [db_one] after an allocation that replaces the records of
    key 42. *)
Definition db_replaced : TDB :=
  Eval vm_compute in
    after (tdb_entry_alloc_unique db_one 42 128 (Some (fun _ _ => true)) 0).

Opaque TDB_HTRIE_DEPTH.

(** * Theorems *)

(** ** Lemmas on the record area *)

Lemma set_hdr_id (db : TDB) (h : TdbHdr) :
  hdr db = Some h -> set_hdr db (Some h) = db.
Proof. destruct db; simpl; intros ->; reflexivity. Qed.

Lemma set_hdr_set_hdr (db : TDB) (h1 h2 : option TdbHdr) :
  set_hdr (set_hdr db h1) h2 = set_hdr db h2.
Proof. reflexivity. Qed.

Lemma upd_rec_lookup (h : TdbHdr) (p : nat) (f : TdbRec -> TdbRec) (r : TdbRec) :
  recs h !! p = Some r -> recs (upd_rec h p f) !! p = Some (f r).
Proof.
  intros Hp. unfold upd_rec. rewrite Hp. simpl.
  apply list_lookup_insert_eq. by eapply lookup_lt_Some.
Qed.

Lemma upd_rec_lookup_ne (h : TdbHdr) (p q : nat) (f : TdbRec -> TdbRec) :
  p <> q -> recs (upd_rec h p f) !! q = recs h !! q.
Proof.
  intros Hne. unfold upd_rec. destruct (recs h !! p); [|done].
  simpl. by apply list_lookup_insert_ne.
Qed.

Lemma upd_rec_root (h : TdbHdr) (p : nat) (f : TdbRec -> TdbRec) :
  root (upd_rec h p f) = root h.
Proof. unfold upd_rec. by destruct (recs h !! p). Qed.

(** A reference taken and dropped again leaves the header as it was. *)
Lemma put_get_rec (h : TdbHdr) (p : nat) :
  tdb_htrie_put_rec (tdb_htrie_get_rec h p) p = h.
Proof.
  unfold tdb_htrie_put_rec, tdb_htrie_get_rec, upd_rec.
  destruct (recs h !! p) as [r|] eqn:Hp; simpl.
  - rewrite list_lookup_insert_eq by (by eapply lookup_lt_Some). simpl.
    rewrite list_insert_insert_eq.
    replace (set_refcnt (set_refcnt r (refcnt r + 1)) (refcnt r + 1 - 1)) with r
      by (destruct r; unfold set_refcnt; simpl; f_equal; lia).
    rewrite (list_insert_id (recs h) p r Hp). by destruct h.
  - by rewrite Hp.
Qed.

(** ** Lemmas on the scan of a collision chain *)

(** A successful scan splits the slots at the first matching record. *)
Lemma scan_slots_Some rs key slots p rest :
  scan_slots rs key slots = Some (p, rest) ->
  exists skipped,
    slots = skipped ++ p :: rest /\
    rec_matches rs key p = true /\
    Forall (fun q => rec_matches rs key q = false) skipped.
Proof.
  induction slots as [|q slots IH]; simpl; [done|].
  destruct (rec_matches rs key q) eqn:Hq.
  - intros [= -> ->]. exists []. by repeat split.
  - intros H. destruct (IH H) as (sk & -> & Hp & Hsk).
    exists (q :: sk). repeat split; [done|]. by constructor.
Qed.

Lemma scan_slots_None rs key slots :
  scan_slots rs key slots = None ->
  Forall (fun q => rec_matches rs key q = false) slots.
Proof.
  induction slots as [|q slots IH]; simpl; [by constructor|].
  destruct (rec_matches rs key q) eqn:Hq; [done|].
  intros H. constructor; auto.
Qed.

Lemma bckt_scan_Some rs key b p b' :
  bckt_scan rs key b = (Some p, b') ->
  exists skipped,
    bckt_recs b = skipped ++ p :: bckt_recs b' /\
    rec_matches rs key p = true /\
    Forall (fun q => rec_matches rs key q = false) skipped.
Proof.
  revert p b'.
  induction b as [slots|slots b0 IH] using TdbBucket_chain_ind;
    intros p b'; simpl;
    destruct (scan_slots rs key slots) as [[q rest]|] eqn:Hs.
  - intros [= -> <-]. apply scan_slots_Some in Hs as (sk & -> & Hp & Hsk).
    exists sk. simpl. rewrite <- app_assoc. by repeat split.
  - done.
  - intros [= -> <-]. apply scan_slots_Some in Hs as (sk & -> & Hp & Hsk).
    exists sk. simpl. rewrite <- app_assoc. by repeat split.
  - apply scan_slots_None in Hs.
    intros H. destruct (IH _ _ H) as (sk & Heq & Hp & Hsk).
    exists (slots ++ sk). rewrite Heq, <- app_assoc. repeat split; [done|].
    by apply Forall_app.
Qed.

Lemma bckt_scan_None rs key b b' :
  bckt_scan rs key b = (None, b') ->
  Forall (fun q => rec_matches rs key q = false) (bckt_recs b) /\
  b' = Bckt [] None.
Proof.
  revert b'.
  induction b as [slots|slots b0 IH] using TdbBucket_chain_ind;
    intros b'; simpl;
    destruct (scan_slots rs key slots) as [[q rest]|] eqn:Hs; try done.
  - intros [= <-]. apply scan_slots_None in Hs.
    by rewrite app_nil_r.
  - apply scan_slots_None in Hs.
    intros H. destruct (IH _ H) as [Hall ->]. split; [|done].
    by apply Forall_app.
Qed.

Lemma find_skip {A : Type} (f : A -> bool) (sk l : list A) :
  Forall (fun q => f q = false) sk -> List.find f (sk ++ l) = List.find f l.
Proof.
  induction 1 as [|q sk Hq _ IH]; simpl; [done|]. by rewrite Hq.
Qed.

Lemma find_all_false {A : Type} (f : A -> bool) (l : list A) :
  Forall (fun q => f q = false) l -> List.find f l = None.
Proof.
  intros H. rewrite <- (app_nil_r l). by rewrite find_skip.
Qed.

Lemma rec_accepted_matches c rs key p :
  rec_matches rs key p = false -> rec_accepted c rs key p = false.
Proof. unfold rec_accepted. by intros ->. Qed.

Lemma Forall_rec_accepted c rs key ps :
  Forall (fun q => rec_matches rs key q = false) ps ->
  Forall (fun q => rec_accepted c rs key q = false) ps.
Proof.
  intros H. eapply Forall_impl; [exact H|].
  intros q. apply rec_accepted_matches.
Qed.

Lemma rec_matches_Some rs key p :
  rec_matches rs key p = true ->
  exists r, rs !! p = Some r /\ tdb_live_rec r = true /\ rec_key r = key.
Proof.
  unfold rec_matches. destruct (rs !! p) as [r|]; [|done].
  intros [H1 H2]%andb_true_iff. exists r. repeat split; [done|].
  by apply Z.eqb_eq.
Qed.

(** The loop of [tdb_rec_get_alloc] from a record [p] that the iterator
    holds: it ends at the first accepted record of the rest of the chain,
    which it holds then, or at the end of the chain with no reference
    left. *)
Lemma get_alloc_scan_spec (fuel : nat) (c : TdbGetAllocCtx) (key : Z)
    (h0 : TdbHdr) (db : TDB) (p : nat) (b : TdbBucket) :
  rec_matches (recs h0) key p = true ->
  hdr db = Some (tdb_htrie_get_rec h0 p) ->
  (length (bckt_recs b) < fuel)%nat ->
  get_alloc_scan fuel c (mkTdbIter (Some p) (Some b)) db =
    match List.find (rec_accepted c (recs h0) key) (p :: bckt_recs b) with
    | Some q => Ret (Some q, set_hdr db (Some (tdb_htrie_get_rec h0 q)))
    | None => Ret (None, set_hdr db (Some h0))
    end.
Proof.
  revert db p b.
  induction fuel as [|f IH]; intros db p b Hm Hdb Hfuel; [lia|].
  destruct (rec_matches_Some _ _ _ Hm) as (r & Hr & Hlive & Hkey).
  assert (Hheld : recs (tdb_htrie_get_rec h0 p) !! p = Some (rec_held r))
    by (by apply upd_rec_lookup).
  cbn [get_alloc_scan rec]. unfold bind at 1. unfold deref at 1.
  rewrite Hdb, Hheld.
  cbn [List.find]. unfold rec_accepted at 1. rewrite Hm, Hr. cbn [andb].
  destruct (eq_rec c (rec_held r) (ctx c)) eqn:Heq.
  - unfold ret. by rewrite set_hdr_id.
  - unfold bind at 1. unfold tdb_rec_next. cbn [bckt rec].
    unfold bind at 1. unfold deref. rewrite Hdb, Hheld.
    unfold bind at 1. unfold with_hdr. rewrite Hdb.
    unfold tdb_htrie_next_rec. rewrite put_get_rec.
    replace (rec_key (rec_held r)) with key by (by rewrite <- Hkey).
    unfold tdb_htrie_bscan_for_rec.
    destruct (bckt_scan (recs h0) key b) as [[q|] b'] eqn:Hscan.
    + apply bckt_scan_Some in Hscan as (sk & Hsk & Hq & Hall).
      unfold ret at 1.
      rewrite (IH _ q b' Hq); [| done |].
      * rewrite Hsk. rewrite find_skip by (by apply Forall_rec_accepted).
        by destruct (List.find _ (q :: bckt_recs b')).
      * rewrite Hsk, length_app in Hfuel. simpl in Hfuel. lia.
    + apply bckt_scan_None in Hscan as [Hall ->].
      unfold ret at 1. rewrite find_all_false by (by apply Forall_rec_accepted).
      by destruct f.
Qed.

(** Lookup and loop together: the first accepted record of the chain. *)
Lemma get_alloc_lookup_spec (c : TdbGetAllocCtx) (key : Z) (h : TdbHdr)
    (db : TDB) :
  hdr db = Some h ->
  (iter <- (fun db => tdb_rec_get db key) ;;
   get_alloc_scan (S (iter_size iter)) c iter) db =
    match List.find (rec_accepted c (recs h) key) (chain h key) with
    | Some q => Ret (Some q, set_hdr db (Some (tdb_htrie_get_rec h q)))
    | None => Ret (None, db)
    end.
Proof.
  intros Hdb. unfold bind, tdb_rec_get, chain. rewrite Hdb.
  destruct (tdb_htrie_lookup h key) as [b|]; [|done].
  unfold tdb_htrie_bscan_for_rec.
  destruct (bckt_scan (recs h) key b) as [[p|] b'] eqn:Hscan.
  - apply bckt_scan_Some in Hscan as (sk & Hsk & Hp & Hall).
    rewrite (get_alloc_scan_spec _ c key h _ p b' Hp); [| done |].
    + rewrite Hsk, find_skip by (by apply Forall_rec_accepted).
      destruct (List.find _ (p :: bckt_recs b')); [done|].
      by rewrite set_hdr_set_hdr, set_hdr_id.
    + unfold iter_size. simpl. lia.
  - apply bckt_scan_None in Hscan as [Hall ->].
    rewrite find_all_false by (by apply Forall_rec_accepted).
    simpl. unfold ret. by rewrite set_hdr_id.
Qed.

(** ** Lemmas on allocation *)

Lemma bind_assoc {S A B C : Type} (m : M S A) (f : A -> M S B)
    (g : B -> M S C) (s : S) :
  bind (bind m f) g s = bind m (fun x => bind (f x) g) s.
Proof. unfold bind. by destruct (m s) as [[a s']| | |]. Qed.

(** The record that [tdb_htrie_insert] returns is the new one, at the end
    of the record area. *)
Lemma tdb_htrie_insert_Some h key data eq_cb eq_data len complete h' p :
  tdb_htrie_insert h key data eq_cb eq_data len complete = (h', Some p) ->
  exists body,
    recs h' !! p = Some (mkTdbRec key None len 2 complete false body) /\
    length (recs h') = S p.
Proof.
  unfold tdb_htrie_insert.
  destruct (used h + len <=? dbsz h); [|done].
  intros [= <- <-]. eexists. cbn [recs]. split.
  - by apply list_lookup_middle.
  - rewrite length_app. simpl. lia.
Qed.

Lemma tdb_htrie_insert_None h key data eq_cb eq_data len complete h' :
  tdb_htrie_insert h key data eq_cb eq_data len complete = (h', None) ->
  h' = h /\ dbsz h < used h + len.
Proof.
  unfold tdb_htrie_insert.
  destruct (used h + len <=? dbsz h) eqn:E; [done|].
  intros [= <-]. split; [done|]. by apply Z.leb_gt.
Qed.

Lemma tdb_entry_alloc_eq db key len h :
  hdr db = Some h ->
  tdb_entry_alloc db key len =
    if len <? TDB_HTRIE_MINDREC then Bug
    else Ret (snd (tdb_htrie_insert h key None None 0 len false),
              set_hdr db (Some (fst (tdb_htrie_insert h key None None 0 len false)))).
Proof.
  intros Hdb. unfold tdb_entry_alloc, bind, BUG_ON, with_hdr, ret.
  destruct (len <? TDB_HTRIE_MINDREC); [done|].
  rewrite Hdb. by destruct (tdb_htrie_insert _ _ _ _ _ _ _).
Qed.

Lemma tdb_entry_alloc_unique_eq db key len eq_cb eq_data h :
  hdr db = Some h ->
  tdb_entry_alloc_unique db key len eq_cb eq_data =
    if len <? TDB_HTRIE_MINDREC then Bug
    else Ret (snd (tdb_htrie_insert h key None eq_cb eq_data len false),
              set_hdr db (Some (fst (tdb_htrie_insert h key None eq_cb eq_data len false)))).
Proof.
  intros Hdb. unfold tdb_entry_alloc_unique, bind, BUG_ON, with_hdr, ret.
  destruct (len <? TDB_HTRIE_MINDREC); [done|].
  rewrite Hdb. by destruct (tdb_htrie_insert _ _ _ _ _ _ _).
Qed.

(** ** Get-or-allocate *)

(** What [tdb_rec_get_alloc] computes on a table whose lock is free. *)
Lemma tdb_rec_get_alloc_eq (db : TDB) (key : Z) (c : TdbGetAllocCtx)
    (h : TdbHdr) :
  hdr db = Some h ->
  ga_lock db = false ->
  tdb_rec_get_alloc db key c =
    match List.find (rec_accepted c (recs h) key) (chain h key) with
    | Some q =>
        Ret ((Some q, set_is_new c false),
             set_hdr db (Some (tdb_htrie_get_rec h q)))
    | None =>
        if precreate_veto c then Ret ((None, set_is_new c false), db)
        else if len c <? TDB_HTRIE_MINDREC then Bug
        else
          match tdb_htrie_insert h key None None 0 (len c) false with
          | (h1, Some p) =>
              Ret ((Some p, set_is_new c true),
                   set_hdr db
                     (Some (upd_rec
                              (upd_rec h1 p (fun r => init_rec c r (ctx c)))
                              p tdb_rec_mark_complete)))
          | (h1, None) => Ret ((None, set_is_new c true), set_hdr db (Some h1))
          end
    end.
Proof.
  intros Hdb Hlock. unfold tdb_rec_get_alloc.
  unfold bind at 1. unfold spin_lock_ga. rewrite Hlock. cbv zeta.
  rewrite <- (bind_assoc (fun db => tdb_rec_get db key)
    (fun iter => get_alloc_scan (S (iter_size iter)) (set_is_new c false) iter)).
  unfold bind at 1.
  rewrite (get_alloc_lookup_spec (set_is_new c false) key h) by done.
  change (rec_accepted (set_is_new c false)) with (rec_accepted c).
  destruct (List.find _ _) as [q|].
  { unfold bind, spin_unlock_ga, ret. do 2 f_equal.
    destruct db; simpl in *; by subst. }
  change (precreate_veto (set_is_new c false)) with (precreate_veto c).
  destruct (precreate_veto c).
  { unfold bind, spin_unlock_ga, ret. do 2 f_equal.
    destruct db; simpl in *; by subst. }
  unfold bind at 1.
  rewrite (tdb_entry_alloc_eq _ _ _ h) by done.
  change (len (set_is_new (set_is_new c false) true)) with (len c).
  destruct (len c <? TDB_HTRIE_MINDREC); [done|].
  destruct (tdb_htrie_insert h key None None 0 (len c) false) as [h1 [p|]] eqn:Hins;
    cbn [fst snd].
  - apply tdb_htrie_insert_Some in Hins as (body & Hp & _).
    unfold bind, with_hdr, tdb_entry_mark_complete, bind, deref, with_hdr,
      spin_unlock_ga, ret.
    cbn [hdr set_hdr set_ga_lock].
    rewrite (upd_rec_lookup _ _ _ _ Hp). cbn [hdr].
    do 2 f_equal. destruct db; simpl in *; by subst.
  - unfold bind, spin_unlock_ga, ret. do 2 f_equal.
    destruct db; simpl in *; by subst.
Qed.

Lemma upd_rec_upd_rec (h : TdbHdr) (p : nat) (f g : TdbRec -> TdbRec) :
  upd_rec (upd_rec h p f) p g = upd_rec h p (fun r => g (f r)).
Proof.
  unfold upd_rec. destruct (recs h !! p) as [r|] eqn:Hp.
  - cbn [recs set_recs].
    rewrite list_lookup_insert_eq by (by eapply lookup_lt_Some).
    unfold set_recs. cbn [root recs used dbsz bckt_slots].
    by rewrite list_insert_insert_eq.
  - by rewrite Hp.
Qed.

(** C1: [tdb_rec_get_alloc] on a table whose get-alloc lock is free.  If
    some record of the collision chain of the key is accepted by the
    equality callback, the call returns such a record; in the table that
    the call leaves, the reference counter of this record is one higher
    than before and nothing else has changed, and the out-flag [is_new]
    of the context is false.  If no record is accepted, the precreate
    callback does not veto and the allocation of [len] bytes succeeds,
    the call returns the new record, which has the key and the requested
    length; in the table that the call leaves, this record is what the
    initializer made of it, with the complete flag set, and the out-flag
    [is_new] of the context is true. *)
Theorem tdb_rec_get_alloc_spec (db : TDB) (h : TdbHdr) (key : Z)
    (c : TdbGetAllocCtx) :
  hdr db = Some h ->
  ga_lock db = false ->
  ((exists p, In p (chain h key) /\ rec_accepted c (recs h) key p = true) ->
   exists q r c' db' h' r',
     tdb_rec_get_alloc db key c = Ret ((Some q, c'), db') /\
     is_new c' = false /\
     ctx_is_new false c c' /\
     In q (chain h key) /\
     rec_accepted c (recs h) key q = true /\
     recs h !! q = Some r /\
     hdr db' = Some h' /\
     recs h' !! q = Some r' /\
     refcnt r' = refcnt r + 1 /\
     rec_ref_taken r r' /\
     (forall q', q' <> q -> recs h' !! q' = recs h !! q') /\
     c' = set_is_new c false /\
     db' = set_hdr db (Some (tdb_htrie_get_rec h q)) /\
     r' = set_refcnt r (refcnt r + 1))
  /\
  ((forall p, In p (chain h key) -> rec_accepted c (recs h) key p = false) ->
   precreate_veto c = false ->
   forall p db1,
     tdb_entry_alloc db key (len c) = Ret (Some p, db1) ->
     exists h1 r1 c' db' h2 r2,
       hdr db1 = Some h1 /\
       recs h1 !! p = Some r1 /\
       rec_key r1 = key /\ rec_len r1 = len c /\ rec_complete r1 = false /\
       tdb_rec_get_alloc db key c = Ret ((Some p, c'), db') /\
       is_new c' = true /\
       ctx_is_new true c c' /\
       hdr db' = Some h2 /\
       recs h2 !! p = Some r2 /\
       rec_complete r2 = true /\
       rec_completed (init_rec c r1 (ctx c)) r2 /\
       (forall q, q <> p -> recs h2 !! q = recs h1 !! q) /\
       c' = set_is_new c true /\
       db' = set_hdr db1 (Some h2) /\
       r2 = tdb_rec_mark_complete (init_rec c r1 (ctx c))).
Proof.
  intros Hdb Hlock. rewrite (tdb_rec_get_alloc_eq db key c h Hdb Hlock).
  split.
  - intros (p & Hin & Hacc).
    destruct (List.find _ _) as [q|] eqn:Hfind.
    + apply List.find_some in Hfind as [Hq Hqacc].
      assert (exists r, recs h !! q = Some r) as [r Hr].
      { unfold rec_accepted in Hqacc. destruct (recs h !! q); [eauto|].
        by rewrite andb_false_r in Hqacc. }
      exists q, r, (set_is_new c false),
        (set_hdr db (Some (tdb_htrie_get_rec h q))),
        (tdb_htrie_get_rec h q), (set_refcnt r (refcnt r + 1)).
      split; [done|]. split; [reflexivity|]. split; [by repeat split|].
      split; [done|]. split; [done|]. split; [done|]. split; [done|].
      split; [exact (upd_rec_lookup h q _ r Hr)|].
      split; [reflexivity|]. split; [by repeat split|].
      split; [|done].
      intros q' Hne. by apply upd_rec_lookup_ne.
    + by rewrite (List.find_none _ _ Hfind p Hin) in Hacc.
  - intros Hnone Hveto p db1 Halloc.
    destruct (List.find _ _) as [q|] eqn:Hfind.
    { apply List.find_some in Hfind as [Hq Hqacc].
      by rewrite (Hnone q Hq) in Hqacc. }
    rewrite Hveto.
    rewrite (tdb_entry_alloc_eq _ _ _ h Hdb) in Halloc.
    destruct (len c <? TDB_HTRIE_MINDREC); [done|].
    destruct (tdb_htrie_insert h key None None 0 (len c) false) as [h1 r'] eqn:Hins.
    cbn [fst snd] in Halloc. injection Halloc as -> <-.
    apply tdb_htrie_insert_Some in Hins as (body & Hp & _).
    set (r1 := mkTdbRec key None (len c) 2 false false body) in *.
    set (h2 := upd_rec (upd_rec h1 p (fun r => init_rec c r (ctx c)))
                       p tdb_rec_mark_complete).
    exists h1, r1, (set_is_new c true), (set_hdr db (Some h2)), h2,
      (tdb_rec_mark_complete (init_rec c r1 (ctx c))).
    split; [done|]. split; [exact Hp|].
    split; [done|]. split; [done|]. split; [done|]. split; [done|].
    split; [reflexivity|]. split; [by repeat split|]. split; [done|].
    split.
    { unfold h2. rewrite upd_rec_upd_rec. exact (upd_rec_lookup _ _ _ _ Hp). }
    split; [reflexivity|]. split; [by repeat split|].
    split.
    { intros q Hne. unfold h2. by rewrite !upd_rec_lookup_ne. }
    split; [done|]. split; [|done].
    by rewrite set_hdr_set_hdr.
Qed.

Lemma tdb_rec_get_alloc_spec_witness :
  (exists q r c' db' h' r',
     tdb_rec_get_alloc db_one 42 ctx_any = Ret ((Some q, c'), db') /\
     is_new c' = false /\
     ctx_is_new false ctx_any c' /\
     In q (chain (default hdr0 (hdr db_one)) 42) /\
     rec_accepted ctx_any (recs (default hdr0 (hdr db_one))) 42 q = true /\
     recs (default hdr0 (hdr db_one)) !! q = Some r /\
     hdr db' = Some h' /\
     recs h' !! q = Some r' /\
     refcnt r' = refcnt r + 1 /\
     rec_ref_taken r r' /\
     (forall q', q' <> q ->
        recs h' !! q' = recs (default hdr0 (hdr db_one)) !! q') /\
     c' = set_is_new ctx_any false /\
     db' = set_hdr db_one
             (Some (tdb_htrie_get_rec (default hdr0 (hdr db_one)) q)) /\
     r' = set_refcnt r (refcnt r + 1)) /\
  (exists h1 r1 c' db' h2 r2,
     hdr db_alloc = Some h1 /\
     recs h1 !! 0%nat = Some r1 /\
     rec_key r1 = 42 /\ rec_len r1 = len ctx_any /\ rec_complete r1 = false /\
     tdb_rec_get_alloc db0 42 ctx_any = Ret ((Some 0%nat, c'), db') /\
     is_new c' = true /\
     ctx_is_new true ctx_any c' /\
     hdr db' = Some h2 /\
     recs h2 !! 0%nat = Some r2 /\
     rec_complete r2 = true /\
     rec_completed (init_rec ctx_any r1 (ctx ctx_any)) r2 /\
     (forall q, q <> 0%nat -> recs h2 !! q = recs h1 !! q) /\
     c' = set_is_new ctx_any true /\
     db' = set_hdr db_alloc (Some h2) /\
     r2 = tdb_rec_mark_complete (init_rec ctx_any r1 (ctx ctx_any))).
Proof.
  split.
  - apply (tdb_rec_get_alloc_spec db_one _ 42 ctx_any eq_refl eq_refl).
    exists 0%nat. split; [vm_compute; auto | reflexivity].
  - apply (proj2 (tdb_rec_get_alloc_spec db0 hdr0 42 ctx_any eq_refl eq_refl)).
    + intros p [].
    + reflexivity.
    + vm_compute. reflexivity.
Defined.

(** C10: the out-flag [is_new] of [tdb_rec_get_alloc].  When no record is
    accepted, the precreate callback does not veto and the allocation
    fails, the call returns NULL and leaves [is_new] set to true; on the
    veto path the call returns NULL with [is_new] false; when a record is
    found, [is_new] is false. *)
Theorem tdb_rec_get_alloc_is_new (db : TDB) (h : TdbHdr) (key : Z)
    (c : TdbGetAllocCtx) :
  hdr db = Some h ->
  ga_lock db = false ->
  ((forall p, In p (chain h key) -> rec_accepted c (recs h) key p = false) ->
   precreate_veto c = false ->
   forall db1,
     tdb_entry_alloc db key (len c) = Ret (None, db1) ->
     exists c',
       tdb_rec_get_alloc db key c = Ret ((None, c'), db1) /\ is_new c' = true)
  /\
  ((forall p, In p (chain h key) -> rec_accepted c (recs h) key p = false) ->
   precreate_veto c = true ->
   exists c',
     tdb_rec_get_alloc db key c = Ret ((None, c'), db) /\ is_new c' = false)
  /\
  ((exists p, In p (chain h key) /\ rec_accepted c (recs h) key p = true) ->
   exists q c' db',
     tdb_rec_get_alloc db key c = Ret ((Some q, c'), db') /\ is_new c' = false).
Proof.
  intros Hdb Hlock. rewrite (tdb_rec_get_alloc_eq db key c h Hdb Hlock).
  repeat split.
  - intros Hnone Hveto db1 Halloc.
    destruct (List.find _ _) as [q|] eqn:Hfind.
    { apply List.find_some in Hfind as [Hq Hqacc].
      by rewrite (Hnone q Hq) in Hqacc. }
    rewrite Hveto.
    rewrite (tdb_entry_alloc_eq _ _ _ h Hdb) in Halloc.
    destruct (len c <? TDB_HTRIE_MINDREC); [done|].
    destruct (tdb_htrie_insert h key None None 0 (len c) false) as [h1 r'].
    cbn [fst snd] in Halloc. injection Halloc as -> <-.
    by exists (set_is_new c true).
  - intros Hnone Hveto.
    destruct (List.find _ _) as [q|] eqn:Hfind.
    { apply List.find_some in Hfind as [Hq Hqacc].
      by rewrite (Hnone q Hq) in Hqacc. }
    rewrite Hveto. by exists (set_is_new c false).
  - intros (p & Hin & Hacc).
    destruct (List.find _ _) as [q|] eqn:Hfind.
    + by exists q, (set_is_new c false), (set_hdr db (Some (tdb_htrie_get_rec h q))).
    + by rewrite (List.find_none _ _ Hfind p Hin) in Hacc.
Qed.

Lemma tdb_rec_get_alloc_is_new_witness :
  (exists c',
     tdb_rec_get_alloc db0 42 ctx_huge = Ret ((None, c'), db_full) /\
     is_new c' = true) /\
  (exists c',
     tdb_rec_get_alloc db_one 42 ctx_veto = Ret ((None, c'), db_one) /\
     is_new c' = false) /\
  (exists q c' db',
     tdb_rec_get_alloc db_one 42 ctx_any = Ret ((Some q, c'), db') /\
     is_new c' = false).
Proof.
  split; [|split].
  - apply (proj1 (tdb_rec_get_alloc_is_new db0 hdr0 42 ctx_huge eq_refl eq_refl)).
    + intros p [].
    + reflexivity.
    + vm_compute. reflexivity.
  - apply (proj1 (proj2 (tdb_rec_get_alloc_is_new db_one _ 42 ctx_veto
                           eq_refl eq_refl))).
    + intros p [<-|[]]. reflexivity.
    + reflexivity.
  - apply (proj2 (proj2 (tdb_rec_get_alloc_is_new db_one _ 42 ctx_any
                           eq_refl eq_refl))).
    exists 0%nat. split; [vm_compute; auto | reflexivity].
Defined.

(** ** Lookup *)

Lemma Forall_In_false {A : Type} (f : A -> bool) (l : list A) :
  (forall p, In p l -> f p = false) -> Forall (fun q => f q = false) l.
Proof. intros H. apply Forall_forall. intros x Hx. apply H. by apply list_elem_of_In. Qed.

Lemma In_Forall_false {A : Type} (f : A -> bool) (l : list A) (p : A) :
  Forall (fun q => f q = false) l -> In p l -> f p = false.
Proof.
  intros H Hp. rewrite Forall_forall in H. apply H. by apply list_elem_of_In.
Qed.

(** C6: [tdb_rec_get] on an open table.  The record pointer of the
    iterator is NULL when the key lands in no bucket or when no record of
    the collision chain has the key and is visible; the table is unchanged
    then.  Otherwise the iterator points to a record of the chain that has
    the key and is visible; in the table that the call leaves, the
    reference counter of that record is one higher than before, its other
    fields are as before, and every other record is as before. *)
Theorem tdb_rec_get_spec (db : TDB) (h : TdbHdr) (key : Z) :
  hdr db = Some h ->
  (tdb_htrie_lookup h key = None ->
   tdb_rec_get db key = Ret (mkTdbIter None None, db))
  /\
  ((forall p, In p (chain h key) -> rec_matches (recs h) key p = false) ->
   exists b, tdb_rec_get db key = Ret (mkTdbIter None b, db))
  /\
  ((exists p, In p (chain h key) /\ rec_matches (recs h) key p = true) ->
   exists q b r r',
     tdb_rec_get db key =
       Ret (mkTdbIter (Some q) b, set_hdr db (Some (tdb_htrie_get_rec h q))) /\
     In q (chain h key) /\
     recs h !! q = Some r /\
     rec_key r = key /\ tdb_live_rec r = true /\
     recs (tdb_htrie_get_rec h q) !! q = Some r' /\
     refcnt r' = refcnt r + 1 /\
     rec_ref_taken r r' /\
     r' = set_refcnt r (refcnt r + 1) /\
     (forall q', q' <> q ->
        recs (tdb_htrie_get_rec h q) !! q' = recs h !! q')).
Proof.
  intros Hdb. unfold tdb_rec_get, chain. rewrite Hdb. split; [|split].
  - by intros ->.
  - intros Hnone. destruct (tdb_htrie_lookup h key) as [b|]; [|by eexists].
    unfold tdb_htrie_bscan_for_rec.
    destruct (bckt_scan (recs h) key b) as [[q|] b'] eqn:Hscan.
    + apply bckt_scan_Some in Hscan as (sk & Hsk & Hq & _).
      rewrite Hnone in Hq; [done|]. rewrite Hsk. apply in_or_app. right. by left.
    + eexists. by rewrite set_hdr_id.
  - intros (p & Hin & Hp).
    destruct (tdb_htrie_lookup h key) as [b|]; [|done].
    unfold tdb_htrie_bscan_for_rec.
    destruct (bckt_scan (recs h) key b) as [[q|] b'] eqn:Hscan.
    + apply bckt_scan_Some in Hscan as (sk & Hsk & Hq & _).
      destruct (rec_matches_Some _ _ _ Hq) as (r & Hr & Hlive & Hkey).
      exists q, (Some b'), r, (set_refcnt r (refcnt r + 1)).
      split; [done|]. split.
      { rewrite Hsk. apply in_or_app. right. by left. }
      split; [done|]. split; [done|]. split; [done|]. split.
      { exact (upd_rec_lookup h q _ r Hr). }
      split; [reflexivity|]. split; [by repeat split|]. split; [done|].
      intros q' Hne. by apply upd_rec_lookup_ne.
    + apply bckt_scan_None in Hscan as [Hall _].
      by rewrite (In_Forall_false _ _ _ Hall Hin) in Hp.
Qed.

Lemma tdb_rec_get_spec_witness :
  tdb_rec_get db0 42 = Ret (mkTdbIter None None, db0) /\
  (exists b, tdb_rec_get db_alloc 42 = Ret (mkTdbIter None b, db_alloc)) /\
  (exists q b r r',
     tdb_rec_get db_one 42 =
       Ret (mkTdbIter (Some q) b,
            set_hdr db_one
              (Some (tdb_htrie_get_rec (default hdr0 (hdr db_one)) q))) /\
     In q (chain (default hdr0 (hdr db_one)) 42) /\
     recs (default hdr0 (hdr db_one)) !! q = Some r /\
     rec_key r = 42 /\ tdb_live_rec r = true /\
     recs (tdb_htrie_get_rec (default hdr0 (hdr db_one)) q) !! q = Some r' /\
     refcnt r' = refcnt r + 1 /\
     rec_ref_taken r r' /\
     r' = set_refcnt r (refcnt r + 1) /\
     (forall q', q' <> q ->
        recs (tdb_htrie_get_rec (default hdr0 (hdr db_one)) q) !! q' =
        recs (default hdr0 (hdr db_one)) !! q')).
Proof.
  split; [|split].
  - apply (proj1 (tdb_rec_get_spec db0 hdr0 42 eq_refl)). reflexivity.
  - apply (proj1 (proj2 (tdb_rec_get_spec db_alloc _ 42 eq_refl))).
    intros p [<-|[]]. reflexivity.
  - apply (proj2 (proj2 (tdb_rec_get_spec db_one _ 42 eq_refl))).
    exists 0%nat. split; [vm_compute; auto | reflexivity].
Defined.

(** ** Visibility of records *)

Lemma rec_matches_put_rec (h : TdbHdr) (p q : nat) (key : Z) :
  rec_matches (recs (tdb_htrie_put_rec h p)) key q = rec_matches (recs h) key q.
Proof.
  unfold rec_matches, tdb_htrie_put_rec.
  destruct (decide (p = q)) as [->|Hne].
  - destruct (recs h !! q) as [r|] eqn:Hq.
    + by rewrite (upd_rec_lookup _ _ _ _ Hq).
    + unfold upd_rec. rewrite Hq. simpl. by rewrite Hq.
  - by rewrite upd_rec_lookup_ne.
Qed.

Lemma filter_skip {A : Type} (f : A -> bool) (sk l : list A) :
  Forall (fun q => f q = false) sk -> List.filter f (sk ++ l) = List.filter f l.
Proof.
  induction 1 as [|q sk Hq _ IH]; simpl; [done|]. by rewrite Hq.
Qed.

(** The iteration from a record [p] that the iterator holds yields [p] and
    the matching records of the rest of the chain, and drops the last
    reference at the end. *)
Lemma rec_iterate_spec (fuel : nat) (key : Z) (h0 : TdbHdr) (db : TDB)
    (p : nat) (b : TdbBucket) :
  rec_matches (recs h0) key p = true ->
  hdr db = Some (tdb_htrie_get_rec h0 p) ->
  (length (bckt_recs b) < fuel)%nat ->
  rec_iterate fuel (mkTdbIter (Some p) (Some b)) db =
    Ret (p :: List.filter (rec_matches (recs h0) key) (bckt_recs b),
         set_hdr db (Some h0)).
Proof.
  revert db p b.
  induction fuel as [|f IH]; intros db p b Hm Hdb Hfuel; [lia|].
  destruct (rec_matches_Some _ _ _ Hm) as (r & Hr & Hlive & Hkey).
  assert (Hheld : recs (tdb_htrie_get_rec h0 p) !! p = Some (rec_held r))
    by exact (upd_rec_lookup h0 p _ r Hr).
  cbn [rec_iterate rec]. unfold bind at 1. unfold tdb_rec_next. cbn [bckt rec].
  unfold bind at 1. unfold deref. rewrite Hdb, Hheld.
  unfold bind at 1. unfold with_hdr. rewrite Hdb.
  unfold tdb_htrie_next_rec. rewrite put_get_rec.
  replace (rec_key (rec_held r)) with key by (by rewrite <- Hkey).
  unfold tdb_htrie_bscan_for_rec.
  destruct (bckt_scan (recs h0) key b) as [[q|] b'] eqn:Hscan.
  - apply bckt_scan_Some in Hscan as (sk & Hsk & Hq & Hall).
    unfold ret at 1. unfold bind at 1.
    rewrite (IH _ q b' Hq); [| done |].
    + rewrite Hsk, filter_skip by done. cbn [List.filter]. by rewrite Hq.
    + rewrite Hsk, length_app in Hfuel. simpl in Hfuel. lia.
  - apply bckt_scan_None in Hscan as [Hall ->].
    unfold ret at 1. unfold bind at 1.
    replace (List.filter (rec_matches (recs h0) key) (bckt_recs b)) with (@nil nat).
    + by destruct f.
    + rewrite <- (app_nil_r (bckt_recs b)). by rewrite filter_skip.
Qed.

(** A lookup with iteration yields the records of the chain that have the
    key and are visible, in the order of the chain, and leaves the table as
    it was. *)
Lemma lookup_all_spec (db : TDB) (h : TdbHdr) (key : Z) :
  hdr db = Some h ->
  lookup_all db key =
    Ret (List.filter (rec_matches (recs h) key) (chain h key), db).
Proof.
  intros Hdb. unfold lookup_all, bind, tdb_rec_get, chain. rewrite Hdb.
  destruct (tdb_htrie_lookup h key) as [b|]; [|done].
  unfold tdb_htrie_bscan_for_rec.
  destruct (bckt_scan (recs h) key b) as [[p|] b'] eqn:Hscan.
  - apply bckt_scan_Some in Hscan as (sk & Hsk & Hp & Hall).
    rewrite (rec_iterate_spec _ key h _ p b' Hp); [| done |].
    + rewrite Hsk, filter_skip by done. cbn [List.filter]. rewrite Hp.
      by rewrite set_hdr_set_hdr, set_hdr_id.
    + unfold iter_size. simpl. lia.
  - apply bckt_scan_None in Hscan as [Hall ->].
    replace (List.filter (rec_matches (recs h) key) (bckt_recs b)) with (@nil nat).
    + simpl. unfold ret. by rewrite set_hdr_id.
    + rewrite <- (app_nil_r (bckt_recs b)). by rewrite filter_skip.
Qed.

(** [tdb_rec_next] returns visible records only. *)
Lemma tdb_rec_next_live (db db' : TDB) (it it' : TdbIter) (h : TdbHdr) (q : nat) :
  hdr db = Some h ->
  tdb_rec_next db it = Ret (it', db') ->
  rec it' = Some q ->
  exists r, recs h !! q = Some r /\ tdb_live_rec r = true.
Proof.
  intros Hdb. unfold tdb_rec_next.
  destruct (bckt it) as [b|]; [|done].
  destruct (rec it) as [p|]; [|done].
  unfold bind, deref, with_hdr, ret. rewrite Hdb.
  destruct (recs h !! p) as [r0|]; [|done]. rewrite Hdb.
  unfold tdb_htrie_next_rec, tdb_htrie_bscan_for_rec.
  destruct (bckt_scan _ _ b) as [[q'|] b'] eqn:Hscan.
  - intros [= <- <-]. cbn [rec]. intros [= ->].
    apply bckt_scan_Some in Hscan as (_ & _ & Hq & _).
    rewrite rec_matches_put_rec in Hq.
    destruct (rec_matches_Some _ _ _ Hq) as (r & Hr & Hlive & _). eauto.
  - intros [= <- <-]. done.
Qed.

(** Removal that is not forced leaves an incomplete record as it is. *)
Lemma htrie_remove_incomplete key eq_cb data (ps : list nat) (h : TdbHdr)
    (p : nat) (r : TdbRec) :
  recs h !! p = Some r ->
  rec_complete r = false ->
  recs (fold_left (htrie_remove_rec key eq_cb data false) ps h) !! p = Some r.
Proof.
  revert h. induction ps as [|q ps IH]; intros h Hp Hc; [done|].
  cbn [fold_left]. apply IH; [|done].
  unfold htrie_remove_rec.
  destruct (recs h !! q) as [r'|] eqn:Hq; [|done].
  destruct (decide (q = p)) as [->|Hne].
  - assert (r' = r) as -> by congruence.
    rewrite Hc. cbn [orb]. by rewrite andb_false_r.
  - destruct (_ && _); [|done]. by rewrite upd_rec_lookup_ne.
Qed.

(** A walk passes over a record that is not visible. *)
Lemma htrie_walk_recs_skip {V : Type} (rs : list TdbRec) (fn : tdb_walk_fn_t V)
    (ps : list nat) (v : V) (p : nat) (r : TdbRec) :
  rs !! p = Some r ->
  tdb_live_rec r = false ->
  htrie_walk_recs rs fn ps v =
  htrie_walk_recs rs fn (filter (fun q => q <> p) ps) v.
Proof.
  intros Hp Hlive. revert v.
  induction ps as [|q ps IH]; intros v; [done|].
  rewrite filter_cons. destruct (decide (q <> p)) as [Hne|Heq].
  - cbn [htrie_walk_recs].
    destruct (rs !! q) as [r'|]; [|done].
    destruct (tdb_live_rec r'); [|done].
    destruct (fn r' v) as [res v']. by destruct (res =? 0).
  - apply dec_stable in Heq as ->.
    cbn [htrie_walk_recs]. by rewrite Hp, Hlive.
Qed.

(** [tdb_rec_get] returns visible records only. *)
Lemma tdb_rec_get_live (db db' : TDB) (it : TdbIter) (h : TdbHdr) (key : Z)
    (q : nat) :
  hdr db = Some h ->
  tdb_rec_get db key = Ret (it, db') ->
  rec it = Some q ->
  exists r, recs h !! q = Some r /\ tdb_live_rec r = true.
Proof.
  intros Hdb. unfold tdb_rec_get. rewrite Hdb.
  destruct (tdb_htrie_lookup h key) as [b|].
  - unfold tdb_htrie_bscan_for_rec.
    destruct (bckt_scan _ _ b) as [[q'|] b'] eqn:Hscan.
    + intros [= <- <-]. cbn [rec]. intros [= ->].
      apply bckt_scan_Some in Hscan as (_ & _ & Hq & _).
      destruct (rec_matches_Some _ _ _ Hq) as (r & Hr & Hlive & _). eauto.
    + intros [= <- <-]. done.
  - intros [= <- <-]. done.
Qed.

Lemma tdb_rec_get_returns (db : TDB) (h : TdbHdr) (key : Z) :
  hdr db = Some h -> exists it db', tdb_rec_get db key = Ret (it, db').
Proof.
  intros Hdb. unfold tdb_rec_get. rewrite Hdb.
  destruct (tdb_htrie_lookup h key) as [b|]; [|by eexists _, _].
  destruct (tdb_htrie_bscan_for_rec h b key) as [[h1 b1] r1]. by eexists _, _.
Qed.

Lemma live_complete (r : TdbRec) :
  tdb_live_rec r = true <-> rec_complete r = true /\ rec_tombstone r = false.
Proof.
  unfold tdb_live_rec. rewrite andb_true_iff, negb_true_iff. tauto.
Qed.

(** C5: visibility of records.  (1) The record returned by
    [tdb_entry_alloc] or [tdb_entry_alloc_unique] is incomplete.  (2) As
    long as a record is incomplete, [tdb_rec_get] and [tdb_rec_next] do
    not return it, an iteration over a chain does not yield it, a walk
    passes over it, and a removal that is not forced leaves it as it is.
    (3) A record of the collision chain of its key is yielded by lookup
    and iteration iff it is complete and not tombstoned.  (4)
    [tdb_entry_mark_complete] sets the complete flag. *)
Theorem tdb_incomplete_invisible :
  (forall db key len eq_cb eq_data p db1,
     tdb_entry_alloc db key len = Ret (Some p, db1) \/
     tdb_entry_alloc_unique db key len eq_cb eq_data = Ret (Some p, db1) ->
     exists h1 r1,
       hdr db1 = Some h1 /\ recs h1 !! p = Some r1 /\ rec_complete r1 = false)
  /\
  (forall db h p r,
     hdr db = Some h -> recs h !! p = Some r -> rec_complete r = false ->
     (forall key, exists it db',
        tdb_rec_get db key = Ret (it, db') /\ rec it <> Some p) /\
     (forall it,
        match tdb_rec_next db it with
        | Ret (it', _) => rec it' <> Some p
        | _ => True
        end) /\
     (forall key, exists l, lookup_all db key = Ret (l, db) /\ ~ In p l) /\
     (forall (V : Type) (fn : tdb_walk_fn_t V) (v : V),
        tdb_entry_walk db fn v =
          Ret (htrie_walk_recs (recs h) fn
                 (filter (fun q => q <> p) (slot_recs (root h))) v, db)) /\
     (forall key eq_cb data, exists h',
        tdb_entry_remove db key eq_cb data false =
          Ret (tt, set_hdr db (Some h')) /\
        recs h' !! p = Some r))
  /\
  (forall db h key q r,
     hdr db = Some h -> In q (chain h key) ->
     recs h !! q = Some r -> rec_key r = key ->
     exists l,
       lookup_all db key = Ret (l, db) /\
       (In q l <-> rec_complete r = true /\ rec_tombstone r = false))
  /\
  (forall db h p r,
     hdr db = Some h -> recs h !! p = Some r ->
     exists h',
       tdb_entry_mark_complete db p = Ret (tt, set_hdr db (Some h')) /\
       recs h' !! p = Some (set_complete r true)).
Proof.
  split; [|split; [|split]].
  - intros db key len eq_cb eq_data p db1 Halloc.
    destruct (hdr db) as [h|] eqn:Hdb.
    2:{ destruct Halloc as [H|H];
        unfold tdb_entry_alloc, tdb_entry_alloc_unique, bind, BUG_ON, with_hdr in H;
        destruct (len <? TDB_HTRIE_MINDREC); try done; by rewrite Hdb in H. }
    destruct Halloc as [H|H].
    + rewrite (tdb_entry_alloc_eq _ _ _ h Hdb) in H.
      destruct (len <? TDB_HTRIE_MINDREC); [done|].
      destruct (tdb_htrie_insert _ _ _ _ _ _ _) as [h1 r'] eqn:Hins.
      cbn [fst snd] in H. injection H as -> <-.
      apply tdb_htrie_insert_Some in Hins as (body & Hp & _).
      by eexists h1, _.
    + rewrite (tdb_entry_alloc_unique_eq _ _ _ _ _ h Hdb) in H.
      destruct (len <? TDB_HTRIE_MINDREC); [done|].
      destruct (tdb_htrie_insert _ _ _ _ _ _ _) as [h1 r'] eqn:Hins.
      cbn [fst snd] in H. injection H as -> <-.
      apply tdb_htrie_insert_Some in Hins as (body & Hp & _).
      by eexists h1, _.
  - intros db h p r Hdb Hp Hc.
    assert (Hdead : tdb_live_rec r = false)
      by (unfold tdb_live_rec; by rewrite Hc).
    split; [|split; [|split; [|split]]].
    + intros key. destruct (tdb_rec_get_returns db h key Hdb) as (it & db' & Hget).
      exists it, db'. split; [done|]. intros Hit.
      destruct (tdb_rec_get_live _ _ _ _ _ _ Hdb Hget Hit) as (r' & Hr' & Hl).
      congruence.
    + intros it. destruct (tdb_rec_next db it) as [[it' db']| | |] eqn:Hn; try done.
      intros Hit.
      destruct (tdb_rec_next_live _ _ _ _ _ _ Hdb Hn Hit) as (r' & Hr' & Hl).
      congruence.
    + intros key. eexists. split; [by apply lookup_all_spec|].
      intros [_ Hm]%List.filter_In. unfold rec_matches in Hm.
      by rewrite Hp, Hdead in Hm.
    + intros V fn v. unfold tdb_entry_walk, with_hdr. rewrite Hdb.
      unfold tdb_htrie_walk.
      rewrite <- (htrie_walk_recs_skip _ _ _ _ p r Hp Hdead).
      by rewrite set_hdr_id.
    + intros key eq_cb data. eexists.
      unfold tdb_entry_remove, with_hdr. rewrite Hdb. split; [done|].
      unfold tdb_htrie_remove.
      destruct (tdb_htrie_lookup h key); [|done].
      by apply htrie_remove_incomplete.
  - intros db h key q r Hdb Hq Hr Hkey.
    eexists. split; [by apply lookup_all_spec|].
    rewrite List.filter_In. unfold rec_matches. rewrite Hr.
    rewrite <- live_complete.
    assert ((rec_key r =? key) = true) as -> by (by apply Z.eqb_eq).
    rewrite andb_true_r. tauto.
  - intros db h p r Hdb Hp. eexists.
    unfold tdb_entry_mark_complete, bind, deref, with_hdr. rewrite Hdb, Hp, Hdb.
    split; [done|]. exact (upd_rec_lookup h p _ r Hp).
Qed.

Lemma tdb_incomplete_invisible_witness :
  (exists h1 r1,
     hdr db_alloc = Some h1 /\ recs h1 !! 0%nat = Some r1 /\
     rec_complete r1 = false) /\
  (exists it db',
     tdb_rec_get db_alloc 42 = Ret (it, db') /\ rec it <> Some 0%nat) /\
  (exists l, lookup_all db_alloc 42 = Ret (l, db_alloc) /\ ~ In 0%nat l) /\
  (exists h',
     tdb_entry_remove db_alloc 42 (fun _ _ => true) 0 false =
       Ret (tt, set_hdr db_alloc (Some h')) /\
     recs h' !! 0%nat = Some (mkTdbRec 42 None 128 2 false false EmptyString)) /\
  (exists l,
     lookup_all db_one 42 = Ret (l, db_one) /\
     (In 0%nat l <-> true = true /\ false = false)) /\
  (exists h',
     tdb_entry_mark_complete db_alloc 0%nat =
       Ret (tt, set_hdr db_alloc (Some h')) /\
     recs h' !! 0%nat =
       Some (set_complete (mkTdbRec 42 None 128 2 false false EmptyString) true)).
Proof.
  destruct tdb_incomplete_invisible as (H1 & H2 & H3 & H4).
  destruct (H2 db_alloc _ 0%nat _ eq_refl eq_refl eq_refl)
    as (Hget & _ & Hall & _ & Hrm).
  split; [|split; [|split; [|split; [|split]]]].
  - apply (H1 db0 42 128 None 0 0%nat db_alloc). left. vm_compute. reflexivity.
  - apply Hget.
  - apply Hall.
  - apply Hrm.
  - apply (H3 db_one _ 42 0%nat (mkTdbRec 42 None 1 2 true false "X") eq_refl);
      [vm_compute; auto | reflexivity..].
  - apply (H4 db_alloc _ 0%nat _ eq_refl eq_refl).
Defined.

(** ** Room for writing *)

(** C3: [tdb_entry_get_room] for a fragment [r] of an open table and a
    write cursor inside the fragment.  If the fragment has at least
    [tail_len] bytes left after the cursor, the cursor is returned and
    nothing changes.  Otherwise the length of the fragment is first cut to
    the cursor, then the record is extended: the data pointer of the new
    fragment is returned, or NULL when the extension fails.  In the table
    that the call leaves then, with or without the new fragment, the
    length of the fragment [r] is the offset of the cursor in it. *)
Theorem tdb_entry_get_room_spec (vrec_data : nat -> Z) (db : TDB) (h : TdbHdr)
    (r : nat) (v : TdbRec) (curr_ptr tail_len tot_size : Z) :
  hdr db = Some h ->
  recs h !! r = Some v ->
  0 <= tail_len < 2 ^ 64 ->
  rec_len v < 2 ^ 32 ->
  vrec_data r <= curr_ptr <= vrec_data r + rec_len v ->
  (tail_len <= vrec_data r + rec_len v - curr_ptr ->
   tdb_entry_get_room vrec_data db r curr_ptr tail_len tot_size =
     Ret ((Some curr_ptr, Some r), db))
  /\
  (vrec_data r + rec_len v - curr_ptr < tail_len ->
   exists h1 v1,
     h1 = upd_rec h r (fun v => set_len v (curr_ptr - vrec_data r)) /\
     recs h1 !! r = Some v1 /\
     rec_len v1 = curr_ptr - vrec_data r /\
     rec_chopped (curr_ptr - vrec_data r) v v1 /\
     v1 = set_len v (curr_ptr - vrec_data r) /\
     (forall q, q <> r -> recs h1 !! q = recs h !! q) /\
     tdb_entry_get_room vrec_data db r curr_ptr tail_len tot_size =
       match tdb_htrie_extend_rec h1 r tot_size with
       | (h2, Some p) => Ret ((Some (vrec_data p), Some p), set_hdr db (Some h2))
       | (h2, None) => Ret ((None, None), set_hdr db (Some h2))
       end /\
     exists res db' h2 v2,
       tdb_entry_get_room vrec_data db r curr_ptr tail_len tot_size =
         Ret (res, db') /\
       hdr db' = Some h2 /\
       recs h2 !! r = Some v2 /\
       rec_len v2 = curr_ptr - vrec_data r /\
       rec_key v2 = rec_key v /\ rec_data v2 = rec_data v).
Proof.
  intros Hdb Hr Htail Hlen Hcur.
  assert (Hroom : u64 (vrec_data r + rec_len v - curr_ptr) =
                  vrec_data r + rec_len v - curr_ptr).
  { unfold u64. apply Z.mod_small. lia. }
  assert (Hchop : u32 (curr_ptr - vrec_data r) = curr_ptr - vrec_data r).
  { unfold u32. apply Z.mod_small. lia. }
  split.
  - intros Hfit. apply Z.leb_le in Hfit.
    unfold tdb_entry_get_room. unfold bind at 1. unfold deref.
    rewrite Hdb, Hr. cbv beta iota. by rewrite Hroom, Hfit.
  - intros Hshort. apply Z.leb_gt in Hshort.
    set (h1 := upd_rec h r (fun v => set_len v (curr_ptr - vrec_data r))).
    assert (Hr1 : recs h1 !! r = Some (set_len v (curr_ptr - vrec_data r)))
      by exact (upd_rec_lookup h r _ v Hr).
    assert (Hcall :
      tdb_entry_get_room vrec_data db r curr_ptr tail_len tot_size =
        match tdb_htrie_extend_rec h1 r tot_size with
        | (h2, Some p) =>
            Ret ((Some (vrec_data p), Some p), set_hdr db (Some h2))
        | (h2, None) => Ret ((None, None), set_hdr db (Some h2))
        end).
    { unfold tdb_entry_get_room. unfold bind at 1. unfold deref.
      rewrite Hdb, Hr. cbv beta iota. rewrite Hroom, Hshort.
      unfold bind, with_hdr, ret. rewrite Hdb. cbn [hdr set_hdr].
      rewrite Hchop. fold h1.
      by destruct (tdb_htrie_extend_rec h1 r tot_size) as [h2 [p|]]. }
    exists h1, (set_len v (curr_ptr - vrec_data r)).
    split; [done|]. split; [done|]. split; [reflexivity|].
    split; [by repeat split|]. split; [done|].
    split; [intros q Hne; by apply upd_rec_lookup_ne|].
    split; [done|].
    rewrite Hcall. unfold tdb_htrie_extend_rec. rewrite Hr1.
    destruct (used h1 + tot_size <=? dbsz h1).
    + eexists _, _, _, _. split; [reflexivity|]. cbn [hdr set_hdr].
      split; [reflexivity|]. cbn [recs]. split.
      * rewrite lookup_app_l by (rewrite length_insert; by eapply lookup_lt_Some).
        apply list_lookup_insert_eq. by eapply lookup_lt_Some.
      * by repeat split.
    + eexists _, _, _, _. split; [reflexivity|]. cbn [hdr set_hdr].
      split; [reflexivity|]. split; [exact Hr1|]. by repeat split.
Qed.

Lemma tdb_entry_get_room_spec_witness :
  tdb_entry_get_room vrec_data0 db_alloc 0 116 20 256 =
    Ret ((Some 116, Some 0%nat), db_alloc) /\
  (exists h1 v1,
     h1 = upd_rec (default hdr0 (hdr db_alloc)) 0
            (fun v => set_len v (116 - vrec_data0 0)) /\
     recs h1 !! 0%nat = Some v1 /\
     rec_len v1 = 116 - vrec_data0 0 /\
     rec_chopped (116 - vrec_data0 0)
       (mkTdbRec 42 None 128 2 false false EmptyString) v1 /\
     v1 = set_len (mkTdbRec 42 None 128 2 false false EmptyString)
                  (116 - vrec_data0 0) /\
     (forall q, q <> 0%nat ->
        recs h1 !! q = recs (default hdr0 (hdr db_alloc)) !! q) /\
     tdb_entry_get_room vrec_data0 db_alloc 0 116 50 256 =
       match tdb_htrie_extend_rec h1 0 256 with
       | (h2, Some p) =>
           Ret ((Some (vrec_data0 p), Some p), set_hdr db_alloc (Some h2))
       | (h2, None) => Ret ((None, None), set_hdr db_alloc (Some h2))
       end /\
     exists res db' h2 v2,
       tdb_entry_get_room vrec_data0 db_alloc 0 116 50 256 = Ret (res, db') /\
       hdr db' = Some h2 /\
       recs h2 !! 0%nat = Some v2 /\
       rec_len v2 = 116 - vrec_data0 0 /\
       rec_key v2 = 42 /\ rec_data v2 = EmptyString).
Proof.
  split.
  - refine (proj1 (tdb_entry_get_room_spec vrec_data0 db_alloc _ 0
                    (mkTdbRec 42 None 128 2 false false EmptyString)
                    116 20 256 eq_refl eq_refl _ _ _) _);
      unfold vrec_data0; cbn; lia.
  - refine (proj2 (tdb_entry_get_room_spec vrec_data0 db_alloc _ 0
                    (mkTdbRec 42 None 128 2 false false EmptyString)
                    116 50 256 eq_refl eq_refl _ _ _) _);
      unfold vrec_data0; cbn; lia.
Defined.

(** The call on the sample table extends the record by a second fragment. *)
Example tdb_entry_get_room_extends :
  exists db',
    tdb_entry_get_room vrec_data0 db_alloc 0 116 50 256 =
      Ret ((Some (vrec_data0 1), Some 1%nat), db') /\
    (hdr db' ≫= fun h => recs h !! 0%nat) =
      Some (mkTdbRec 42 (Some 1%nat) 100 2 false false EmptyString).
Proof. eexists. split; vm_compute; reflexivity. Qed.

(** ** Assertions on the arguments *)

(** C4 as stated fails: a NULL data buffer and a length that is too small
    are not reported by a NULL result; the call does not return. *)
Lemma tdb_entry_bad_input_counterexample :
  tdb_entry_create db0 1 None 5 = Bug /\
  tdb_entry_alloc db0 1 5 = Bug /\
  tdb_entry_alloc_unique db0 1 5 None 0 = Bug /\
  ~ reports_error (tdb_entry_create db0 1 None 5) /\
  ~ reports_error (tdb_entry_alloc db0 1 5) /\
  ~ reports_error (tdb_entry_alloc_unique db0 1 5 None 0).
Proof.
  repeat split; try reflexivity; intros [db' H]; discriminate H.
Qed.

(** ** Opening a table: checks on the arguments *)

Lemma tdb_ext_not_mask : u64 (Z.lnot TDB_EXT_MASK) = Z.ones TDB_EXT_BITS.
Proof. reflexivity. Qed.

(** The size check of [tdb_open] rejects exactly the sizes that are not a
    multiple of the extent size or are smaller than one extent. *)
Lemma tdb_ext_check (fsize : Z) :
  negb (Z.land fsize (u64 (Z.lnot TDB_EXT_MASK)) =? 0) || (fsize <? TDB_EXT_SZ)
    = true <->
  fsize mod TDB_EXT_SZ <> 0 \/ fsize < TDB_EXT_SZ.
Proof.
  rewrite tdb_ext_not_mask, Z.land_ones by done.
  change (2 ^ TDB_EXT_BITS) with TDB_EXT_SZ.
  rewrite orb_true_iff, negb_true_iff, Z.eqb_neq, Z.ltb_lt. tauto.
Qed.

(** Lengths of the strings that [snprintf] builds. *)
Lemma string_length_append (s1 s2 : string) :
  String.length (s1 ++ s2) = (String.length s1 + String.length s2)%nat.
Proof. induction s1 as [|a s1 IH]; simpl; [done|]. by rewrite IH. Qed.

Lemma substring_0_all (m : nat) (s : string) :
  (String.length s <= m)%nat -> substring 0 m s = s.
Proof.
  revert m. induction s as [|a s IH]; intros [|m]; simpl; try done; try lia.
  intros H. rewrite IH; [done|lia].
Qed.

Lemma substring_length_le (n m : nat) (s : string) :
  (n + m <= String.length s)%nat -> String.length (substring n m s) = m.
Proof.
  revert n m. induction s as [|a s IH]; intros [|n] [|m]; simpl; try done; try lia.
  - intros H. rewrite (IH 0%nat m); [done|simpl; lia].
  - intros H. apply (IH n 0%nat). lia.
  - intros H. apply (IH n (S m)). lia.
Qed.

Lemma substring_0_substring (n m k : nat) (s : string) :
  (n <= m)%nat -> substring 0 n (substring k m s) = substring k n s.
Proof.
  revert n m k. induction s as [|a s IH]; intros n m [|k] H.
  - by destruct n, m.
  - by destruct n, m.
  - destruct n as [|n]; [by destruct m|].
    destruct m as [|m]; [lia|]. simpl. f_equal. apply (IH n m 0%nat). lia.
  - simpl. by apply IH.
Qed.

Lemma fmt_d_digit (node : Z) :
  0 <= node <= 9 -> String.length (fmt_d node) = 1%nat.
Proof.
  intros H.
  assert (node = 0 \/ node = 1 \/ node = 2 \/ node = 3 \/ node = 4 \/
          node = 5 \/ node = 6 \/ node = 7 \/ node = 8 \/ node = 9) as Hn by lia.
  repeat destruct Hn as [->|Hn]; try reflexivity. by subst.
Qed.

Section OpenFacts.

Variable W : Type.
Variable TDB_TBLNAME_LEN : nat.
Variable TDB_PATH_LEN : nat.
Variable tdb_tbl_lookup : string -> Z -> M W (option TDB).
Variable tdb_tbl_enumerate : TDB -> M W unit.
Variable kzalloc_TDB : M W bool.
Variable tdb_put : TDB -> M W unit.
Variable tdb_file_open : TDB -> Z -> M W (option (TdbFile * option TdbHdr)).
Variable tdb_file_close : TDB -> M W unit.
Variable tdb_htrie_init : option TdbHdr -> Z -> Z -> M W (option TdbHdr).

Local Abbreviation get_db :=
  (tdb_get_db W TDB_TBLNAME_LEN TDB_PATH_LEN tdb_tbl_lookup kzalloc_TDB).
Local Abbreviation open :=
  (tdb_open W TDB_TBLNAME_LEN TDB_PATH_LEN tdb_tbl_lookup tdb_tbl_enumerate
            kzalloc_TDB tdb_put tdb_file_open tdb_file_close tdb_htrie_init).

(** C8: [tdb_open] returns NULL whenever the file size is not a whole
    multiple of the extent size or is smaller than one extent; no
    collaborator is called and the state of the system is as before. *)
Theorem tdb_open_bad_size (pre path : string) (fsize rec_size node : Z)
    (w : W) :
  fsize mod TDB_EXT_SZ <> 0 \/ fsize < TDB_EXT_SZ ->
  open pre path fsize rec_size node w = Ret (None, w).
Proof.
  intros Hbad. apply tdb_ext_check in Hbad.
  unfold tdb_open. by rewrite Hbad.
Qed.

(** C9: for every node greater than 9 [tdb_get_db] fires its [BUG_ON],
    whatever the path, and so does [tdb_open] once the file size has
    passed its check. *)
Theorem tdb_open_node_bug (node : Z) :
  9 < node ->
  (forall pre path w, get_db pre path node w = Bug) /\
  (forall pre path fsize rec_size w,
     fsize mod TDB_EXT_SZ = 0 -> TDB_EXT_SZ <= fsize ->
     open pre path fsize rec_size node w = Bug).
Proof.
  intros Hnode. apply Z.ltb_lt in Hnode.
  assert (Hbug : forall pre path w, get_db pre path node w = Bug).
  { intros pre path w. unfold tdb_get_db, bind, BUG_ON. by rewrite Hnode. }
  split; [done|].
  intros pre path fsize rec_size w Hmul Hsz.
  unfold tdb_open.
  destruct (negb _ || _) eqn:Hchk.
  - apply tdb_ext_check in Hchk. lia.
  - unfold bind. by rewrite Hbug.
Qed.

(** A path that [tdb_get_db] accepts has passed the checks: the node is at
    most 9, the path ends with the suffix, it has a slash, and the name
    between the last slash and the suffix leaves room for the node and the
    suffix in a table name. *)
Lemma tdb_get_db_accepts (pre path : string) (node : Z) (w w' : W) (db : TDB) :
  get_db pre path node w = Ret (Some db, w') ->
  node <= 9 /\
  exists slash,
    strrchr path "/" = Some slash /\
    (slash + 5 <= String.length path)%nat /\
    substring (String.length path - 4) 4 path = TDB_SUFFIX /\
    (String.length path - slash < TDB_TBLNAME_LEN)%nat.
Proof.
  unfold tdb_get_db, bind, BUG_ON.
  destruct (9 <? node) eqn:Hnode; [done|]. apply Z.ltb_ge in Hnode.
  destruct (negb _) eqn:Hsfx; [done|].
  apply negb_false_iff, String.eqb_eq in Hsfx.
  destruct (strrchr path "/") as [slash|]; [|done].
  destruct (_ <? 0) eqn:Hlen; [done|]. apply Z.ltb_ge in Hlen.
  destruct (_ <=? _) eqn:Hname; [done|]. apply Z.leb_gt in Hname.
  intros _. split; [done|]. exists slash.
  unfold sizeof_TDB_SUFFIX in *. cbn [TDB_SUFFIX String.length] in *.
  repeat split; try lia.
  unfold str_at in Hsfx.
  destruct (_ <? 0) eqn:Hoff; [apply Z.ltb_lt in Hoff; lia|].
  rewrite <- Hsfx. f_equal. lia.
Qed.

(** For a path that passes the checks, a table that is not open yet and a
    node from 0 to 9, [tdb_get_db] returns a new handle; the name of its
    table is the name of the path followed by the node and the suffix. *)
Lemma tdb_get_db_fresh (pre path : string) (node : Z) (w w1 w2 : W)
    (slash : nat) :
  0 <= node <= 9 ->
  strrchr path "/" = Some slash ->
  (slash + 5 <= String.length path)%nat ->
  substring (String.length path - 4) 4 path = TDB_SUFFIX ->
  (String.length path - slash < TDB_TBLNAME_LEN)%nat ->
  (forall name len, tdb_tbl_lookup name len w = Ret (None, w1)) ->
  kzalloc_TDB w1 = Ret (true, w2) ->
  exists db,
    get_db pre path node w = Ret (Some db, w2) /\
    tbl_name db =
      (substring (S slash) (String.length path - slash - 5) path
       ++ fmt_d node ++ TDB_SUFFIX)%string /\
    hdr db = None /\ count db = 1.
Proof.
  intros Hnode Hslash Hlen Hsfx Hname Hlookup Hkz.
  unfold tdb_get_db, bind, BUG_ON.
  replace (9 <? node) with false by (symmetry; apply Z.ltb_ge; lia).
  unfold sizeof_TDB_SUFFIX. cbn [TDB_SUFFIX String.length].
  unfold str_at.
  replace (_ <? 0) with false by (symmetry; apply Z.ltb_ge; lia).
  replace (Z.to_nat (Z.of_nat (String.length path) - (Z.of_nat 4 + 1) + 1))
    with (String.length path - 4)%nat by lia.
  replace (Z.to_nat (Z.of_nat 4 + 1 - 1)) with 4%nat by lia.
  change (String "." (String "t" (String "d" (String "b" EmptyString))))
    with TDB_SUFFIX.
  rewrite Hsfx, String.eqb_refl. cbn [negb]. rewrite Hslash.
  replace (_ <? 0) with false by (symmetry; apply Z.ltb_ge; lia).
  replace (_ <=? _) with false by (symmetry; apply Z.leb_gt; lia).
  rewrite Hlookup, Hkz. cbn [negb]. unfold ret.
  eexists. split; [reflexivity|]. cbn [tbl_name tdb_get set_count hdr count].
  split; [|done].
  unfold fmt_prec.
  replace (_ <? 0) with false by (symmetry; apply Z.ltb_ge; lia).
  replace (Z.to_nat (Z.of_nat (String.length path) - Z.of_nat slash - (Z.of_nat 4 + 1)))
    with (String.length path - slash - 5)%nat by lia.
  rewrite substring_0_substring by lia.
  unfold snprintf. apply substring_0_all.
  rewrite !string_length_append, fmt_d_digit by done.
  rewrite substring_length_le by lia.
  cbn [TDB_SUFFIX String.length]. lia.
Qed.

End OpenFacts.

Lemma tdb_open_bad_size_witness :
  tdb_open0 "" "/opt/cache.tdb" 1000 64 3 [] = Ret (None, []).
Proof.
  apply tdb_open_bad_size. right. reflexivity.
Defined.

Lemma tdb_open_node_bug_witness :
  (forall pre path w, tdb_get_db0 pre path 10 w = Bug) /\
  (forall pre path fsize rec_size w,
     fsize mod TDB_EXT_SZ = 0 -> TDB_EXT_SZ <= fsize ->
     tdb_open0 pre path fsize rec_size 10 w = Bug).
Proof.
  apply tdb_open_node_bug. reflexivity.
Defined.

(** With node 10 and a size of one extent [tdb_open] does not return. *)
Example tdb_open_node_10 :
  tdb_open0 "" "/opt/cache.tdb" (2 ^ 21) 64 10 [] = Bug.
Proof. reflexivity. Qed.

(** C7, at a relative path: [tdb_open] accepts ["a/b.tdb"], which has a
    slash but is not absolute, and names the table ["b0.tdb"]. *)
Theorem tdb_open_relative_path :
  tdb_open0 "" "a/b.tdb" (2 ^ 21) 64 0 [] = Ret (Some db_rel, [db_rel]) /\
  tbl_name db_rel = "b0.tdb"%string /\
  path db_rel = "a/b0.tdb"%string.
Proof. split; [vm_compute; reflexivity|]. split; reflexivity. Qed.

(** ** The trie keeps what is installed *)

Lemma htrie_idx_lt (key level : Z) : (htrie_idx key level < TDB_HTRIE_FANOUT)%nat.
Proof.
  unfold htrie_idx.
  change (Z.of_nat TDB_HTRIE_FANOUT - 1) with (Z.ones 4).
  rewrite Z.land_ones by lia.
  pose proof (Z.mod_pos_bound (Z.shiftr key (level * TDB_HTRIE_BITS)) (2 ^ 4)).
  unfold TDB_HTRIE_FANOUT. lia.
Qed.

Lemma wf_slot_leaf (fuel : nat) (s : TdbSlot) :
  match s with SlotNode _ => False | _ => True end -> wf_slot fuel s.
Proof. by destruct fuel, s. Qed.

Lemma bckt_push_In (cap : nat) (b : TdbBucket) (p q : nat) :
  In q (bckt_recs (bckt_push cap b p)) <-> q = p \/ In q (bckt_recs b).
Proof.
  induction b as [slots|slots b0 IH] using TdbBucket_chain_ind; simpl;
    destruct (length slots <? cap)%nat; simpl;
    rewrite ?in_app_iff; simpl; rewrite ?in_app_iff; simpl;
    rewrite ?IH; intuition.
Qed.

Lemma htrie_put_length f level rs cap ch q :
  length (htrie_put f level rs cap ch q) = length ch.
Proof.
  unfold htrie_put. destruct (ch !! _); [|done]. apply length_insert.
Qed.

Lemma fold_htrie_put_length f level rs cap qs ch :
  length (fold_left (htrie_put f level rs cap) qs ch) = length ch.
Proof.
  revert ch. induction qs as [|q qs IH]; intros ch; [done|].
  simpl. by rewrite IH, htrie_put_length.
Qed.

(** Installation keeps a trie well formed. *)
Lemma htrie_install_wf (fuel : nat) level rs cap s key p :
  wf_slot fuel s -> wf_slot fuel (htrie_install fuel level rs cap s key p).
Proof.
  revert level s key p.
  induction fuel as [|f IH]; intros level s key p Hwf.
  - destruct s; simpl in *; done.
  - destruct s as [|b|ch]; cbn [htrie_install].
    + done.
    + destruct (length (bckt_recs b) <? cap)%nat; [done|].
      fold (htrie_put f level rs cap).
      cbn [wf_slot]. split.
      * by rewrite fold_htrie_put_length, length_replicate.
      * assert (Hgen : forall qs ch0,
                   Forall (wf_slot f) ch0 ->
                   Forall (wf_slot f) (fold_left (htrie_put f level rs cap) qs ch0)).
        { induction qs as [|q qs IHq]; intros ch0 H0; [done|].
          simpl. apply IHq. unfold htrie_put.
          destruct (ch0 !! _) as [c|] eqn:Hc; [|done].
          apply Forall_insert; [done|]. apply IH.
          rewrite Forall_forall in H0. apply H0.
          by eapply list_elem_of_lookup_2. }
        apply Hgen. apply Forall_replicate. by apply wf_slot_leaf.
    + destruct Hwf as [Hlen Hall].
      destruct (ch !! htrie_idx key level) as [c|] eqn:Hc; [|done].
      cbn [wf_slot]. split; [by rewrite length_insert|].
      apply Forall_insert; [done|]. apply IH.
      rewrite Forall_forall in Hall. apply Hall.
      by eapply list_elem_of_lookup_2.
Qed.

(** After the installation of a record, the lookup of its key lands in a
    bucket that holds the record. *)
Lemma htrie_install_found (fuel : nat) level rs cap s key p :
  wf_slot fuel s ->
  rec_key_at rs p = key ->
  exists b,
    htrie_descend fuel level (htrie_install fuel level rs cap s key p) key
      = Some b /\
    In p (bckt_recs b).
Proof.
  revert level s.
  induction fuel as [|f IH]; intros level s Hwf Hkey.
  - destruct s as [|b|ch]; simpl in *; try done.
    + eexists. split; [done|]. simpl. by left.
    + eexists. split; [done|]. apply bckt_push_In. by left.
  - destruct s as [|b|ch]; cbn [htrie_install].
    + eexists. split; [done|]. simpl. by left.
    + destruct (length (bckt_recs b) <? cap)%nat.
      { eexists. split; [done|]. apply bckt_push_In. by left. }
      fold (htrie_put f level rs cap).
      rewrite fold_left_app. cbn [fold_left].
      set (ch1 := fold_left (htrie_put f level rs cap) (bckt_recs b)
                            (replicate TDB_HTRIE_FANOUT SlotEmpty)).
      assert (Hlen1 : length ch1 = TDB_HTRIE_FANOUT)
        by (unfold ch1; by rewrite fold_htrie_put_length, length_replicate).
      assert (Hwf1 : Forall (wf_slot f) ch1).
      { unfold ch1.
        assert (Hgen : forall qs ch0,
                   Forall (wf_slot f) ch0 ->
                   Forall (wf_slot f) (fold_left (htrie_put f level rs cap) qs ch0)).
        { induction qs as [|q qs IHq]; intros ch0 H0; [done|].
          simpl. apply IHq. unfold htrie_put.
          destruct (ch0 !! _) as [c|] eqn:Hc; [|done].
          apply Forall_insert; [done|]. apply htrie_install_wf.
          rewrite Forall_forall in H0. apply H0.
          by eapply list_elem_of_lookup_2. }
        apply Hgen. apply Forall_replicate. by apply wf_slot_leaf. }
      unfold htrie_put at 1. rewrite Hkey.
      destruct (lookup_lt_is_Some_2 ch1 (htrie_idx key level)) as [c Hc].
      { rewrite Hlen1. apply htrie_idx_lt. }
      rewrite Hc. cbn [htrie_descend].
      rewrite list_lookup_insert_eq by (by eapply lookup_lt_Some).
      apply IH; [|done].
      rewrite Forall_forall in Hwf1. apply Hwf1.
      by eapply list_elem_of_lookup_2.
    + destruct Hwf as [Hlen Hall].
      destruct (lookup_lt_is_Some_2 ch (htrie_idx key level)) as [c Hc].
      { rewrite Hlen. apply htrie_idx_lt. }
      rewrite Hc. cbn [htrie_descend].
      rewrite list_lookup_insert_eq by (by eapply lookup_lt_Some).
      apply IH; [|done].
      rewrite Forall_forall in Hall. apply Hall.
      by eapply list_elem_of_lookup_2.
Qed.

Lemma flat_map_insert_In {A B : Type} (g : A -> list B) (l : list A) (i : nat)
    (c' : A) (q : B) :
  In q (flat_map g (<[i := c']> l)) -> In q (g c') \/ In q (flat_map g l).
Proof.
  revert i. induction l as [|x l IH]; intros i; [done|].
  destruct i as [|i]; simpl; rewrite !in_app_iff.
  - tauto.
  - intros [H|H]; [tauto|]. destruct (IH i H); tauto.
Qed.

Lemma flat_map_lookup_In {A B : Type} (g : A -> list B) (l : list A) (i : nat)
    (c : A) (q : B) :
  l !! i = Some c -> In q (g c) -> In q (flat_map g l).
Proof.
  intros Hc Hq. apply in_flat_map. exists c. split; [|done].
  apply list_elem_of_In. by eapply list_elem_of_lookup_2.
Qed.

Lemma flat_map_replicate_empty (n : nat) (q : nat) :
  ~ In q (flat_map slot_recs (replicate n SlotEmpty)).
Proof. induction n as [|n IH]; simpl; tauto. Qed.

(** Installation adds the new record to the trie and no other. *)
Lemma htrie_install_recs (fuel : nat) level rs cap s key p q :
  In q (slot_recs (htrie_install fuel level rs cap s key p)) ->
  q = p \/ In q (slot_recs s).
Proof.
  revert level s key p q.
  induction fuel as [|f IH]; intros level s key p q.
  - destruct s as [|b|ch]; simpl.
    + intros [->|[]]. by left.
    + apply bckt_push_In.
    + tauto.
  - destruct s as [|b|ch]; cbn [htrie_install].
    + simpl. intros [->|[]]. by left.
    + destruct (length (bckt_recs b) <? cap)%nat.
      { cbn [slot_recs]. apply bckt_push_In. }
      fold (htrie_put f level rs cap). cbn [slot_recs].
      assert (Hgen : forall qs ch0,
                 In q (flat_map slot_recs
                         (fold_left (htrie_put f level rs cap) qs ch0)) ->
                 In q qs \/ In q (flat_map slot_recs ch0)).
      { induction qs as [|q' qs IHq]; intros ch0; [tauto|].
        cbn [fold_left]. intros H. apply IHq in H as [H|H]; [simpl; tauto|].
        unfold htrie_put in H.
        destruct (ch0 !! _) as [c|] eqn:Hc; [|tauto].
        apply flat_map_insert_In in H as [H|H]; [|tauto].
        apply IH in H as [->|H]; [simpl; tauto|].
        right. by eapply flat_map_lookup_In. }
      intros H. apply Hgen in H as [H|H].
      * apply in_app_iff in H as [H|[->|[]]]; tauto.
      * by apply flat_map_replicate_empty in H.
    + destruct (ch !! htrie_idx key level) as [c|] eqn:Hc; [|tauto].
      cbn [slot_recs]. intros H.
      apply flat_map_insert_In in H as [H|H]; [|tauto].
      apply IH in H as [->|H]; [tauto|].
      right. by eapply flat_map_lookup_In.
Qed.

(** The bucket of a key holds records of the trie. *)
Lemma htrie_descend_recs (fuel : nat) level s key b q :
  htrie_descend fuel level s key = Some b ->
  In q (bckt_recs b) -> In q (slot_recs s).
Proof.
  revert level s.
  induction fuel as [|f IH]; intros level s; destruct s as [|b0|ch]; simpl;
    try done; try (by intros [= ->]).
  destruct (ch !! htrie_idx key level) as [c|] eqn:Hc; [|done].
  intros Hd Hq. eapply flat_map_lookup_In; [done|]. by eapply IH.
Qed.

(** After the installation of a record, the bucket of its key holds this
    record and records that the bucket of the key held before. *)
Lemma htrie_install_chain (fuel : nat) level rs cap s key p b' q :
  htrie_descend fuel level (htrie_install fuel level rs cap s key p) key
    = Some b' ->
  In q (bckt_recs b') ->
  q = p \/
  exists b, htrie_descend fuel level s key = Some b /\ In q (bckt_recs b).
Proof.
  revert level s b'.
  induction fuel as [|f IH]; intros level s b'.
  - destruct s as [|b|ch]; simpl; try done.
    + intros [= <-] [->|[]]. by left.
    + intros [= <-] [->|H]%bckt_push_In; [tauto|]. right. by exists b.
  - destruct s as [|b|ch].
    + simpl. intros [= <-] [->|[]]. by left.
    + intros Hd Hq.
      pose proof (htrie_descend_recs _ _ _ _ _ _ Hd Hq) as Hin.
      apply htrie_install_recs in Hin as [->|Hin]; [tauto|].
      right. by exists b.
    + cbn [htrie_install].
      destruct (ch !! htrie_idx key level) as [c|] eqn:Hc.
      * cbn [htrie_descend].
        rewrite list_lookup_insert_eq by (by eapply lookup_lt_Some).
        rewrite Hc. apply IH.
      * cbn [htrie_descend]. by rewrite Hc.
Qed.

Lemma wf_hdr_upd_rec (h : TdbHdr) (p : nat) (f : TdbRec -> TdbRec) :
  wf_hdr h -> wf_hdr (upd_rec h p f).
Proof. unfold wf_hdr. by rewrite upd_rec_root. Qed.

Lemma chain_upd_rec (h : TdbHdr) (p : nat) (f : TdbRec -> TdbRec) (key : Z) :
  chain (upd_rec h p f) key = chain h key.
Proof. unfold chain, tdb_htrie_lookup. by rewrite upd_rec_root. Qed.

(** The record that [tdb_htrie_insert] installs is in the collision chain
    of its key afterwards, next to records that were in the chain before;
    the trie stays well formed. *)
Lemma tdb_htrie_insert_chain (h h1 : TdbHdr) (key len : Z) (p : nat) :
  wf_hdr h ->
  tdb_htrie_insert h key None None 0 len false = (h1, Some p) ->
  wf_hdr h1 /\
  In p (chain h1 key) /\
  (forall q, In q (chain h1 key) -> q = p \/ In q (chain h key)) /\
  p = length (recs h) /\
  recs h1 = recs h ++ [mkTdbRec key None len 2 false false EmptyString].
Proof.
  intros Hwf. unfold tdb_htrie_insert.
  destruct (used h + len <=? dbsz h); [|done].
  intros [= <- <-].
  set (rs := recs h ++ [mkTdbRec key None len 2 false false EmptyString]).
  assert (Hkey : rec_key_at rs (length (recs h)) = key).
  { unfold rec_key_at, rs. by rewrite list_lookup_middle. }
  unfold wf_hdr, chain, tdb_htrie_lookup. cbn [root recs].
  split; [by apply htrie_install_wf|].
  destruct (htrie_install_found TDB_HTRIE_DEPTH 0 rs (bckt_slots h) (root h)
              key (length (recs h)) Hwf Hkey) as (b & Hb & Hin).
  rewrite Hb. split; [done|]. split; [|done].
  intros q Hq.
  destruct (htrie_install_chain _ _ _ _ _ _ _ _ _ Hb Hq) as [->|(b0 & Hb0 & Hq0)];
    [by left|].
  right. by rewrite Hb0.
Qed.

Lemma find_unique {A : Type} (f : A -> bool) (l : list A) (p : A) :
  In p l -> f p = true -> (forall q, In q l -> f q = true -> q = p) ->
  List.find f l = Some p.
Proof.
  induction l as [|x l IH]; [done|].
  intros Hin Hp Huniq. simpl.
  destruct (f x) eqn:Hx.
  - f_equal. apply Huniq; [by left|done].
  - destruct Hin as [->|Hin]; [congruence|].
    apply IH; [done..|]. intros q Hq. apply Huniq. by right.
Qed.

(** No insert is lost: when [tdb_rec_get_alloc] has created a record, the
    next call with the key and the context returns this very record, with
    [is_new] false. *)
Theorem tdb_rec_get_alloc_again (db : TDB) (h : TdbHdr) (key : Z)
    (c : TdbGetAllocCtx) :
  hdr db = Some h ->
  ga_lock db = false ->
  wf_hdr h ->
  (forall q, In q (chain h key) -> rec_accepted c (recs h) key q = false) ->
  precreate_veto c = false ->
  TDB_HTRIE_MINDREC <= len c ->
  used h + len c <= dbsz h ->
  init_accepted c key ->
  exists p db1 db2 h1,
    tdb_rec_get_alloc db key c = Ret ((Some p, set_is_new c true), db1) /\
    hdr db1 = Some h1 /\ ga_lock db1 = false /\ wf_hdr h1 /\
    tdb_rec_get_alloc db1 key c = Ret ((Some p, set_is_new c false), db2).
Proof.
  intros Hdb Hlock Hwf Hnone Hveto Hmin Hroom (Hkey & Htomb & Heq).
  rewrite (tdb_rec_get_alloc_eq db key c h Hdb Hlock).
  rewrite find_all_false by (by apply Forall_In_false).
  rewrite Hveto.
  replace (len c <? TDB_HTRIE_MINDREC) with false
    by (symmetry; by apply Z.ltb_ge).
  destruct (tdb_htrie_insert h key None None 0 (len c) false)
    as [h1 [p|]] eqn:Hins.
  2:{ apply tdb_htrie_insert_None in Hins as [_ Hfull]. lia. }
  destruct (tdb_htrie_insert_chain h h1 key (len c) p Hwf Hins)
    as (Hwf1 & Hp & Hsub & Hplen & Hrecs).
  set (r0 := mkTdbRec key None (len c) 2 false false EmptyString) in *.
  assert (Hp1 : recs h1 !! p = Some r0)
    by (rewrite Hrecs, Hplen; by apply list_lookup_middle).
  rewrite upd_rec_upd_rec.
  set (h2 := upd_rec h1 p
               (fun r => tdb_rec_mark_complete (init_rec c r (ctx c)))).
  assert (Hp2 : recs h2 !! p =
                Some (tdb_rec_mark_complete (init_rec c r0 (ctx c))))
    by exact (upd_rec_lookup h1 p _ r0 Hp1).
  exists p, (set_hdr db (Some h2)), (set_hdr db (Some (tdb_htrie_get_rec h2 p))), h2.
  split; [done|]. split; [done|]. split; [done|].
  split; [by apply wf_hdr_upd_rec|].
  rewrite (tdb_rec_get_alloc_eq (set_hdr db (Some h2)) key c h2 eq_refl Hlock).
  rewrite (find_unique _ _ p).
  - done.
  - unfold h2. by rewrite chain_upd_rec.
  - unfold rec_accepted, rec_matches. rewrite Hp2.
    unfold tdb_live_rec. rewrite Htomb, Hkey, Z.eqb_refl. cbn. exact Heq.
  - intros q Hq Hacc. unfold h2 in Hq. rewrite chain_upd_rec in Hq.
    destruct (Hsub q Hq) as [->|Hq0]; [done|].
    destruct (decide (q = p)) as [->|Hne]; [done|].
    exfalso. specialize (Hnone q Hq0).
    assert (Hsame : recs h2 !! q = recs h !! q).
    { unfold h2. rewrite upd_rec_lookup_ne by done. rewrite Hrecs.
      destruct (decide (q < length (recs h))%nat).
      - by rewrite lookup_app_l.
      - rewrite lookup_app_r by lia.
        rewrite (lookup_ge_None_2 (recs h)) by lia.
        destruct (q - length (recs h))%nat as [|k] eqn:E; [lia|done]. }
    unfold rec_accepted, rec_matches in Hacc, Hnone.
    rewrite Hsame in Hacc. congruence.
Qed.

(** ** Concurrent callers of get-or-allocate *)

(** The lookup and the loop of a caller leave the lock as it is. *)
Lemma get_alloc_lookup_lock (c : TdbGetAllocCtx) (key : Z) (db db' : TDB)
    (found : option nat) :
  (iter <- (fun db => tdb_rec_get db key) ;;
   get_alloc_scan (S (iter_size iter)) c iter) db = Ret (found, db') ->
  ga_lock db' = ga_lock db.
Proof.
  destruct (hdr db) as [h|] eqn:Hdb.
  - rewrite (get_alloc_lookup_spec c key h db Hdb).
    destruct (List.find _ _); by intros [= <- <-].
  - unfold bind, tdb_rec_get. by rewrite Hdb.
Qed.

Lemma with_hdr_lock {A : Type} (f : TdbHdr -> TdbHdr * A) (db db' : TDB) (a : A) :
  with_hdr f db = Ret (a, db') -> ga_lock db' = ga_lock db.
Proof.
  unfold with_hdr. destruct (hdr db) as [h|]; [|done].
  destruct (f h) as [h' a']. by intros [= <- <-].
Qed.

(** A step inside the critical section moves the caller on; the lock is
    given back by the last step and by no other. *)
Lemma ga_step_in_cs (t t1 : ga_thread) (db db1 : TDB) :
  ga_in_cs (t_pc t) = true ->
  ga_step t db = Ret (t1, db1) ->
  (ga_rank (t_pc t1) < ga_rank (t_pc t))%nat /\
  t_pc t1 <> GaStart /\
  (if ga_is_done (t_pc t1) then ga_lock db1 = false
   else ga_lock db1 = ga_lock db).
Proof.
  destruct t as [k c pc]. cbn [t_pc t_key t_ctx].
  destruct pc as [| |[p|]| |p|p|r|r]; try done; intros _;
    unfold ga_step; cbn [t_pc t_key t_ctx].
  - rewrite <- (bind_assoc (fun db => tdb_rec_get db k)
      (fun iter => get_alloc_scan (S (iter_size iter)) (set_is_new c false) iter)).
    unfold bind at 1.
    destruct ((iter <- (fun db => tdb_rec_get db k) ;;
               get_alloc_scan (S (iter_size iter)) (set_is_new c false) iter) db)
      as [[found db2]| | |] eqn:Hscan; try done.
    intros [= <- <-]. cbn. repeat split; [lia|done|].
    by eapply get_alloc_lookup_lock.
  - intros [= <- <-]. cbn. repeat split; [lia|done].
  - destruct (precreate_veto c); intros [= <- <-]; cbn;
      repeat split; try lia; done.
  - unfold bind.
    destruct (tdb_entry_alloc db k (len c)) as [[r db2]| | |] eqn:Halloc;
      try done.
    assert (ga_lock db2 = ga_lock db) as Hl.
    { unfold tdb_entry_alloc, bind, BUG_ON in Halloc.
      destruct (len c <? TDB_HTRIE_MINDREC); [done|].
      destruct (with_hdr _ db) as [[r' db3]| | |] eqn:Hw; try done.
      injection Halloc as -> ->. by eapply with_hdr_lock. }
    destruct r; intros [= <- <-]; cbn; repeat split; try lia; done.
  - unfold bind.
    destruct (with_hdr _ db) as [[u db2]| | |] eqn:Hw; try done.
    intros [= <- <-]. cbn. repeat split; [lia|done|].
    by eapply with_hdr_lock.
  - unfold bind.
    destruct (tdb_entry_mark_complete db p) as [[u db2]| | |] eqn:Hm; try done.
    intros [= <- <-]. cbn. repeat split; [lia|done|].
    unfold tdb_entry_mark_complete, bind, deref in Hm.
    destruct (hdr db) as [h|]; [|done].
    destruct (recs h !! p); [|done]. by eapply with_hdr_lock.
  - unfold bind, spin_unlock_ga, ret. intros [= <- <-]. cbn.
    repeat split; [lia|done].
Qed.

Lemma ga_steps_done (n : nat) (t : ga_thread) (db : TDB) :
  ga_is_done (t_pc t) = true -> ga_steps n t db = Ret (t, db).
Proof.
  intros Hd. induction n as [|n IH]; [done|].
  cbn [ga_steps]. unfold bind. unfold ga_step.
  destruct (t_pc t); try done.
Qed.

(** A caller past [spin_lock] is through after as many steps as its rank
    tells; further steps change nothing. *)
Lemma ga_steps_enough (n : nat) (t : ga_thread) (db : TDB) :
  t_pc t <> GaStart ->
  (ga_rank (t_pc t) <= n)%nat ->
  ga_steps (S n) t db = ga_steps n t db.
Proof.
  revert t db. induction n as [|n IH]; intros t db Hst Hrank.
  - rewrite !ga_steps_done; [done| |]; destruct (t_pc t); simpl in *; try done; lia.
  - destruct (ga_is_done (t_pc t)) eqn:Hd.
    { by rewrite !ga_steps_done. }
    assert (Hcs : ga_in_cs (t_pc t) = true) by (by destruct (t_pc t)).
    change (bind (ga_step t) (ga_steps (S n)) db = bind (ga_step t) (ga_steps n) db).
    unfold bind.
    destruct (ga_step t db) as [[t1 db1]| | |] eqn:Hstep; try done.
    destruct (ga_step_in_cs _ _ _ _ Hcs Hstep) as (Hr & Hne & _).
    apply IH; [done|lia].
Qed.

(** The steps of a caller that has taken the lock and runs alone amount to
    [tdb_rec_get_alloc]. *)
Lemma ga_alone (db : TDB) (k : Z) (c : TdbGetAllocCtx) :
  ga_lock db = false ->
  ga_steps 6 (mkGaThread k c GaLocked) (set_ga_lock db true) =
  ga_result k (tdb_rec_get_alloc db k c).
Proof.
  intros Hlock. destruct (hdr db) as [h|] eqn:Hdb.
  2:{ unfold tdb_rec_get_alloc, ga_steps, ga_step, bind, spin_lock_ga,
        tdb_rec_get.
      cbn [t_pc t_key t_ctx]. rewrite Hlock. cbn [hdr set_ga_lock].
      by rewrite Hdb. }
  rewrite (tdb_rec_get_alloc_eq db k c h Hdb Hlock).
  cbn [ga_steps]. unfold bind at 1. unfold ga_step at 1.
  cbn [t_pc t_key t_ctx].
  rewrite <- (bind_assoc (fun db => tdb_rec_get db k)
    (fun iter => get_alloc_scan (S (iter_size iter)) (set_is_new c false) iter)).
  unfold bind at 1.
  rewrite (get_alloc_lookup_spec (set_is_new c false) k h) by done.
  change (rec_accepted (set_is_new c false)) with (rec_accepted c).
  destruct (List.find _ _) as [q|].
  { unfold ret, bind, ga_step, spin_unlock_ga, ret. cbn.
    do 2 f_equal. destruct db; simpl in *; by subst. }
  unfold ret at 1. unfold bind at 1. unfold ga_step at 1.
  cbn [t_pc t_key t_ctx].
  change (precreate_veto (set_is_new c false)) with (precreate_veto c).
  destruct (precreate_veto c).
  { unfold ret, bind, ga_step, spin_unlock_ga, ret. cbn.
    do 2 f_equal. destruct db; simpl in *; by subst. }
  unfold ret at 1. unfold bind at 1. unfold ga_step at 1.
  cbn [t_pc t_key t_ctx]. unfold bind at 1.
  rewrite (tdb_entry_alloc_eq _ _ _ h) by done.
  change (len (set_is_new (set_is_new c false) true)) with (len c).
  destruct (len c <? TDB_HTRIE_MINDREC); [done|].
  destruct (tdb_htrie_insert h k None None 0 (len c) false) as [h1 [p|]] eqn:Hins;
    cbn [fst snd].
  - apply tdb_htrie_insert_Some in Hins as (body & Hp & _).
    unfold ret at 1. unfold bind at 1. unfold ga_step at 1.
    cbn [t_pc t_key t_ctx]. unfold bind at 1. unfold with_hdr at 1.
    cbn [hdr set_hdr]. unfold ret at 1.
    unfold bind at 1. unfold ga_step at 1. cbn [t_pc t_key t_ctx].
    unfold bind at 1. unfold tdb_entry_mark_complete, bind, deref, with_hdr.
    cbn [hdr set_hdr].
    rewrite (upd_rec_lookup _ _ _ _ Hp).
    unfold ret, ga_step, spin_unlock_ga, bind, ret. cbn.
    do 2 f_equal. destruct db; simpl in *; by subst.
  - unfold ret, bind, ga_step, spin_unlock_ga, ret. cbn.
    do 2 f_equal. destruct db; simpl in *; by subst.
Qed.

Lemma ga_seq_app (o1 o2 : list nat) (s : ga_sys) :
  ga_seq (o1 ++ o2) s =
    match ga_seq o1 s with
    | Ret s' => ga_seq o2 s'
    | Bug => Bug
    | Fault => Fault
    | Spin => Spin
    end.
Proof.
  revert s. induction o1 as [|i o1 IH]; intros s; [done|].
  cbn [app ga_seq]. by destruct (ga_call i s).
Qed.

Lemma ga_lift_insert (j : nat) (ts : list ga_thread) (t : ga_thread)
    (o : outcome (ga_thread * TDB)) :
  ga_lift j (<[j := t]> ts) o = ga_lift j ts o.
Proof.
  destruct o as [[t' db']| | |]; try done.
  cbn. by rewrite list_insert_insert_eq.
Qed.

(** A step of a caller keeps the invariant. *)
Lemma ga_sched_step_inv (s0 s s' : ga_sys) (order : list nat) (i : nat) :
  ga_inv s0 s order ->
  ga_sched_step i s = Ret s' ->
  ga_inv s0 s' (order ++ if ga_acquires i s then [i] else []).
Proof.
  destruct s as [ts db]. intros (Hnd & Hbd & Hlen & Hout & Hin).
  unfold ga_sched_step, ga_acquires. cbn [fst snd] in *.
  destruct (ts !! i) as [t|] eqn:Hi.
  2:{ intros [= <-]. rewrite app_nil_r.
      exact (conj Hnd (conj Hbd (conj Hlen (conj Hout Hin)))). }
  destruct (decide (i ∈ order)) as [Hio|Hio].
  - (* the caller has taken the lock before *)
    destruct Hin as [(Hfree & Hdone & Hseq)|(Hheld & o' & j & tj & -> & Hj & Hcs & Hdone & Hseq)].
    + pose proof (Hdone i t Hi Hio) as Hd.
      unfold ga_step. destruct (t_pc t) eqn:Hpc; try done.
      unfold ret. cbn [ga_lift]. rewrite list_insert_id by done.
      intros [= <-]. rewrite app_nil_r.
      exact (conj Hnd (conj Hbd (conj Hlen (conj Hout
               (or_introl (conj Hfree (conj Hdone Hseq))))))).
    + apply elem_of_app in Hio as [Hio|Hio%list_elem_of_singleton].
      * pose proof (Hdone i t Hi Hio) as Hd.
        unfold ga_step. destruct (t_pc t) eqn:Hpc; try done.
        unfold ret. cbn [ga_lift]. rewrite list_insert_id by done.
        intros [= <-]. rewrite app_nil_r.
        refine (conj Hnd (conj Hbd (conj Hlen (conj Hout
                  (or_intror (conj Hheld _)))))).
        by exists o', j, tj.
      * (* the holder of the lock takes a step *)
        subst i. assert (t = tj) as -> by congruence.
        replace (match t_pc tj with GaStart => negb (ga_lock db) | _ => false end)
          with false by (by destruct (t_pc tj)).
        rewrite app_nil_r.
        destruct (ga_step tj db) as [[t1 db1]| | |] eqn:Hstep; try done.
        cbn [ga_lift]. intros [= <-].
        destruct (ga_step_in_cs _ _ _ _ Hcs Hstep) as (Hrank & Hne & Hl).
        assert (Hj1 : (<[j := t1]> ts) !! j = Some t1)
          by (apply list_lookup_insert_eq; by eapply lookup_lt_Some).
        assert (Hnj : j ∉ o').
        { apply NoDup_app in Hnd as (_ & Hd & _). intros Hjo.
          apply (Hd j Hjo). by apply list_elem_of_singleton. }
        assert (Hfin : ga_finish j (ts, db) =
                       ga_lift j ts (ga_steps 5 t1 db1)).
        { unfold ga_finish. cbn [fst snd]. rewrite Hj.
          cbn [ga_steps]. unfold bind at 1. by rewrite Hstep. }
        split; [done|]. split; [done|].
        split; [cbn [fst]; by rewrite length_insert|].
        split.
        { cbn [fst]. intros i t Hit Hno.
          assert (i <> j).
          { intros ->. apply Hno, elem_of_app. right.
            by apply list_elem_of_singleton. }
          rewrite list_lookup_insert_ne in Hit by done. by apply Hout. }
        cbn [fst snd].
        destruct (ga_is_done (t_pc t1)) eqn:Hd1.
        -- left. split; [done|]. split.
           ++ intros i t Hit Hio.
              apply elem_of_app in Hio as [Hio|Hio%list_elem_of_singleton].
              ** assert (i <> j) by (by intros ->).
                 rewrite list_lookup_insert_ne in Hit by done. by eapply Hdone.
              ** subst i. congruence.
           ++ rewrite Hseq, Hfin. by rewrite ga_steps_done.
        -- right. split; [congruence|].
           exists o', j, t1. split; [done|]. split; [done|].
           split; [by destruct (t_pc t1)|]. split.
           ++ intros i t Hit Hio.
              assert (i <> j) by (by intros ->).
              rewrite list_lookup_insert_ne in Hit by done. by eapply Hdone.
           ++ rewrite Hseq, Hfin. unfold ga_finish. cbn [fst snd].
              rewrite Hj1, ga_lift_insert.
              rewrite (ga_steps_enough 5)
                by (try done; destruct (t_pc tj); simpl in *; try done; lia).
              done.
  - (* the caller is at [spin_lock] *)
    destruct (Hout i t Hi Hio) as [Hpc Hi0].
    destruct t as [k c pc]. cbn [t_pc] in Hpc. subst pc.
    unfold ga_step. cbn [t_pc t_key t_ctx].
    destruct Hin as [(Hfree & Hdone & Hseq)|(Hheld & Hrest)].
    + (* the lock is free: the caller takes it *)
      rewrite Hfree. cbn [ga_lift negb]. intros [= <-].
      assert (Hi1 : (<[i := mkGaThread k c GaLocked]> ts) !! i =
                    Some (mkGaThread k c GaLocked))
        by (apply list_lookup_insert_eq; by eapply lookup_lt_Some).
      split.
      { apply NoDup_app. split; [done|]. split; [|apply NoDup_singleton].
        intros x Hx Hxi%list_elem_of_singleton. by subst. }
      split.
      { intros x [Hx|Hx%list_elem_of_singleton]%elem_of_app; [by apply Hbd|].
        subst x. rewrite <- Hlen. by eapply lookup_lt_Some. }
      split; [cbn [fst]; by rewrite length_insert|].
      split.
      { cbn [fst]. intros i' t' Hit Hno.
        assert (i' <> i).
        { intros ->. apply Hno, elem_of_app. right.
          by apply list_elem_of_singleton. }
        rewrite list_lookup_insert_ne in Hit by done.
        apply Hout; [done|]. intros Hx. apply Hno, elem_of_app. by left. }
      right. cbn [fst snd]. split; [done|].
      exists order, i, (mkGaThread k c GaLocked).
      split; [done|]. split; [done|]. split; [done|]. split.
      { intros i' t' Hit Hio'.
        assert (i' <> i) by (by intros ->).
        rewrite list_lookup_insert_ne in Hit by done. by eapply Hdone. }
      rewrite ga_seq_app, Hseq. cbn [ga_seq].
      unfold ga_call, ga_finish. cbn [fst snd]. rewrite Hi, Hi1.
      cbn [t_key t_ctx]. rewrite ga_lift_insert, ga_alone by done.
      by destruct (tdb_rec_get_alloc db k c) as [[[r c'] db']| | |].
    + (* the lock is held: the caller spins *)
      rewrite Hheld. cbn [ga_lift negb]. rewrite list_insert_id by done.
      intros [= <-]. rewrite app_nil_r.
      exact (conj Hnd (conj Hbd (conj Hlen (conj Hout
               (or_intror (conj Hheld Hrest)))))).
Qed.

(** A run keeps the invariant; the callers that take the lock in the run
    are appended to the order. *)
Lemma ga_run_inv (sched : list nat) (s0 s s' : ga_sys) (order : list nat) :
  ga_inv s0 s order ->
  ga_run sched s = Ret s' ->
  ga_inv s0 s' (order ++ ga_order sched s).
Proof.
  revert s order. induction sched as [|i sched IH]; intros s order Hinv.
  - cbn. intros [= <-]. by rewrite app_nil_r.
  - cbn [ga_run ga_order].
    destruct (ga_sched_step i s) as [s1| | |] eqn:Hstep; try done.
    intros Hrun. rewrite app_assoc. apply IH; [|done].
    by eapply ga_sched_step_inv.
Qed.

Lemma ga_inv_init (ts : list ga_thread) (db : TDB) :
  Forall (fun t => t_pc t = GaStart) ts ->
  ga_lock db = false ->
  ga_inv (ts, db) (ts, db) [].
Proof.
  intros Hstart Hlock. split; [constructor|].
  split; [by intros i Hi%not_elem_of_nil|]. split; [done|]. split.
  - cbn [fst]. intros i t Hi _. split; [|done].
    rewrite Forall_forall in Hstart. apply Hstart.
    by eapply list_elem_of_lookup_2.
  - left. split; [done|]. split; [|done].
    intros i t _ Hin. by apply not_elem_of_nil in Hin.
Qed.

Lemma tdb_rec_get_alloc_held (db : TDB) (key : Z) (c : TdbGetAllocCtx) :
  ga_lock db = true -> tdb_rec_get_alloc db key c = Spin.
Proof.
  intros Hl. unfold tdb_rec_get_alloc, bind, spin_lock_ga. by rewrite Hl.
Qed.

Lemma tdb_rec_get_alloc_unlocks (db db' : TDB) (key : Z) (c : TdbGetAllocCtx)
    (res : option nat * TdbGetAllocCtx) :
  ga_lock db = false ->
  tdb_rec_get_alloc db key c = Ret (res, db') ->
  ga_lock db' = false.
Proof.
  intros Hl. destruct (hdr db) as [h|] eqn:Hdb.
  - rewrite (tdb_rec_get_alloc_eq db key c h Hdb Hl).
    destruct (List.find _ _); [by intros [= <- <-]|].
    destruct (precreate_veto c); [by intros [= <- <-]|].
    destruct (len c <? TDB_HTRIE_MINDREC); [done|].
    destruct (tdb_htrie_insert _ _ _ _ _ _ _) as [h1 [p|]];
      by intros [= <- <-].
  - unfold tdb_rec_get_alloc, bind, spin_lock_ga, tdb_rec_get.
    rewrite Hl. cbn [hdr set_ga_lock]. by rewrite Hdb.
Qed.

(** C2, as the code has it.  The critical section of [tdb_rec_get_alloc]
    is the one of the lock [ga_lock] of the table handle: a caller that
    finds the lock held does not proceed, whatever its key, and a call
    that returns has released the lock.  Callers of [tdb_rec_get_alloc]
    that run interleaved on a table reach the state and the results that
    their calls reach one after the other, in the order in which they took
    the lock; every caller takes the lock once.  In that order no insert
    is lost: after a call that created a record, the next call with the
    key and the context returns this record with [is_new] false. *)
Theorem tdb_rec_get_alloc_critical_section :
  (forall db key c,
     ga_lock db = true -> tdb_rec_get_alloc db key c = Spin)
  /\
  (forall db key c res db',
     ga_lock db = false ->
     tdb_rec_get_alloc db key c = Ret (res, db') ->
     ga_lock db' = false)
  /\
  (forall ts db sched ts' db',
     Forall (fun t => t_pc t = GaStart) ts ->
     ga_lock db = false ->
     ga_run sched (ts, db) = Ret (ts', db') ->
     Forall (fun t => ga_is_done (t_pc t) = true) ts' ->
     ga_order sched (ts, db) ≡ₚ seq 0 (length ts) /\
     ga_seq (ga_order sched (ts, db)) (ts, db) = Ret (ts', db'))
  /\
  (forall db h key c,
     hdr db = Some h ->
     ga_lock db = false ->
     wf_hdr h ->
     (forall q, In q (chain h key) -> rec_accepted c (recs h) key q = false) ->
     precreate_veto c = false ->
     TDB_HTRIE_MINDREC <= len c ->
     used h + len c <= dbsz h ->
     init_accepted c key ->
     exists p db1 db2,
       tdb_rec_get_alloc db key c = Ret ((Some p, set_is_new c true), db1) /\
       tdb_rec_get_alloc db1 key c = Ret ((Some p, set_is_new c false), db2)).
Proof.
  split; [exact tdb_rec_get_alloc_held|].
  split; [intros db key c res db'; apply tdb_rec_get_alloc_unlocks|].
  split.
  - intros ts db sched ts' db' Hstart Hlock Hrun Hdone.
    pose proof (ga_run_inv sched (ts, db) (ts, db) (ts', db') []
                  (ga_inv_init ts db Hstart Hlock) Hrun) as Hinv.
    cbn [app] in Hinv.
    destruct Hinv as (Hnd & Hbd & Hlen & Hout & Hin). cbn [fst snd] in *.
    rewrite Forall_forall in Hdone.
    assert (Hall : forall i, (i < length ts)%nat -> i ∈ ga_order sched (ts, db)).
    { intros i Hi.
      destruct (decide (i ∈ ga_order sched (ts, db))) as [|Hno]; [done|].
      destruct (lookup_lt_is_Some_2 ts' i) as [t Ht]; [lia|].
      destruct (Hout i t Ht Hno) as [Hpc _].
      assert (ga_is_done (t_pc t) = true) as Hd
        by (apply Hdone; by eapply list_elem_of_lookup_2).
      by rewrite Hpc in Hd. }
    destruct Hin as [(Hfree & Hd & Hseq)|(Hheld & o' & j & tj & Ho & Hj & Hcs & _)].
    + split; [|done].
      apply NoDup_Permutation; [done|apply NoDup_seq|].
      intros i. rewrite elem_of_seq. split.
      * intros Hi. apply Hbd in Hi. lia.
      * intros [_ Hi]. apply Hall. lia.
    + assert (ga_is_done (t_pc tj) = true) as Hd
        by (apply Hdone; by eapply list_elem_of_lookup_2).
      by destruct (t_pc tj).
  - intros db h key c Hdb Hlock Hwf Hnone Hveto Hmin Hroom Hinit.
    destruct (tdb_rec_get_alloc_again db h key c Hdb Hlock Hwf Hnone Hveto
                Hmin Hroom Hinit) as (p & db1 & db2 & h1 & H1 & _ & _ & _ & H2).
    by exists p, db1, db2.
Qed.

Lemma tdb_rec_get_alloc_critical_section_witness :
  tdb_rec_get_alloc (set_ga_lock db0 true) 42 ctx_any = Spin /\
  ga_lock db_got = false /\
  (ga_order ga_sched_two (ga_two, db0) ≡ₚ seq 0 (length ga_two) /\
   ga_seq (ga_order ga_sched_two (ga_two, db0)) (ga_two, db0) =
     Ret (fst ga_two_end, snd ga_two_end)) /\
  (exists p db1 db2,
     tdb_rec_get_alloc db0 42 ctx_any =
       Ret ((Some p, set_is_new ctx_any true), db1) /\
     tdb_rec_get_alloc db1 42 ctx_any =
       Ret ((Some p, set_is_new ctx_any false), db2)).
Proof.
  destruct tdb_rec_get_alloc_critical_section as (H1 & H2 & H3 & H4).
  split; [|split; [|split]].
  - apply H1. reflexivity.
  - apply (H2 db0 42 ctx_any (Some 0%nat, set_is_new ctx_any true) db_got);
      [reflexivity | vm_compute; reflexivity].
  - apply H3.
    + repeat constructor.
    + reflexivity.
    + vm_compute. reflexivity.
    + repeat constructor.
  - apply (H4 db0 hdr0 42 ctx_any).
    + reflexivity.
    + reflexivity.
    + by apply wf_slot_leaf.
    + intros q [].
    + reflexivity.
    + discriminate.
    + discriminate.
    + repeat split; reflexivity.
Defined.

(** C2 as stated fails: the critical section is not the one of a bucket.
    The keys 0x1111 and 0x2222 land in different buckets; while the caller
    with the first key is inside its critical section, the caller with the
    second key stays at [spin_lock], and a call with the second key does
    not proceed. *)
Lemma tdb_rec_get_alloc_lock_per_table :
  tdb_htrie_lookup (default hdr0 (hdr db_three)) 0x1111 <>
  tdb_htrie_lookup (default hdr0 (hdr db_three)) 0x2222 /\
  ga_run [0; 1]%nat (ga_cx, db_three) = Ret ga_cx_end /\
  fst ga_cx_end !! 0%nat = Some (mkGaThread 0x1111 ctx_none GaLocked) /\
  fst ga_cx_end !! 1%nat = Some (mkGaThread 0x2222 ctx_none GaStart) /\
  tdb_rec_get_alloc (snd ga_cx_end) 0x2222 ctx_none = Spin.
Proof.
  split; [vm_compute; discriminate|].
  split; [vm_compute; reflexivity|].
  repeat split; reflexivity.
Qed.

(** ** Scenarios *)

(** Two records with different keys are found by their keys; a key that
    was never inserted is absent. *)
Example scenario_round_trip :
  iter_data (tdb_rec_get db_s1 0x1111) = Some "alpha"%string /\
  iter_data (tdb_rec_get db_s1 0x2222) = Some "beta"%string /\
  iter_data (tdb_rec_get db_s1 0x3333) = None.
Proof. repeat split; vm_compute; reflexivity. Qed.

(** Three records with one key are visited once each; the fourth step of
    the iteration is the end. *)
Example scenario_collision_chain :
  lookup_data db_s2 0xDEAD = ["a"; "bb"; "ccc"]%string.
Proof. vm_compute. reflexivity. Qed.

(** After a unique replace only the new record is found. *)
Example scenario_unique_replace :
  lookup_data db_s4 5 = ["v2"%string].
Proof. vm_compute. reflexivity. Qed.

(** Two callers of [tdb_rec_get_alloc] with one key, interleaved: one of
    them sees [is_new], both return the same record, and the record has
    the reference of the index and one for each caller. *)
Example scenario_get_alloc_race :
  map t_pc (fst ga_two_end) = [GaDone (Some 0%nat); GaDone (Some 0%nat)] /\
  map (fun t => is_new (t_ctx t)) (fst ga_two_end) = [false; true] /\
  (hdr (snd ga_two_end) ≫= fun h => refcnt <$> recs h !! 0%nat) = Some 3.
Proof. repeat split; vm_compute; reflexivity. Qed.

(** * Further properties of the interface *)

(** ** Paths of tables *)

Lemma strrchr_get (s : string) (c : ascii) (i : nat) :
  strrchr s c = Some i -> String.get i s = Some c.
Proof.
  revert i. induction s as [|a s IH]; intros i; [done|].
  cbn [strrchr]. destruct (strrchr s c) as [j|].
  - intros [= <-]. simpl. by apply IH.
  - destruct (Ascii.eqb a c) eqn:E; [|done].
    intros [= <-]. apply Ascii.eqb_eq in E. by subst.
Qed.

Lemma get_Some_lt (s : string) (i : nat) (c : ascii) :
  String.get i s = Some c -> (i < String.length s)%nat.
Proof.
  revert i. induction s as [|a s IH]; intros [|i]; simpl; try done; try lia.
  intros H. apply IH in H. lia.
Qed.

Lemma suffix_no_slash (j : nat) :
  String.get j TDB_SUFFIX <> Some "/"%char.
Proof. by do 5 (destruct j as [|j]; [done|]). Qed.

(** When the comparison with the suffix succeeds and the path has a
    slash, the suffix lies in the path, after the last slash: the bytes
    before a short path cannot help, since the suffix has no slash. *)
Lemma tdb_suffix_slash (pre fpath : string) (slash : nat) :
  str_at pre fpath (Z.of_nat (String.length fpath) - sizeof_TDB_SUFFIX + 1)
         (Z.to_nat (sizeof_TDB_SUFFIX - 1)) = TDB_SUFFIX ->
  strrchr fpath "/" = Some slash ->
  (slash + 5 <= String.length fpath)%nat /\
  substring (String.length fpath - 4) 4 fpath = TDB_SUFFIX.
Proof.
  intros Hsfx Hslash.
  apply strrchr_get in Hslash. pose proof (get_Some_lt _ _ _ Hslash) as Hlt.
  unfold sizeof_TDB_SUFFIX in Hsfx. cbn [TDB_SUFFIX String.length] in Hsfx.
  replace (Z.to_nat (Z.of_nat 4 + 1 - 1)) with 4%nat in Hsfx by lia.
  unfold str_at in Hsfx.
  destruct (_ <? 0) eqn:Hoff.
  - exfalso. apply Z.ltb_lt in Hoff.
    set (k := Z.to_nat (- (Z.of_nat (String.length fpath) - (Z.of_nat 4 + 1) + 1)))
      in *.
    assert (Hk : (k + String.length fpath = 4)%nat) by lia.
    destruct (decide (k <= String.length pre)%nat) as [Hpre|Hpre].
    + apply (suffix_no_slash (slash + k)).
      change (String "." (String "t" (String "d" (String "b" EmptyString))))
        with TDB_SUFFIX in Hsfx.
      rewrite <- Hsfx, substring_correct1 by lia.
      replace (slash + k + (String.length pre - k))%nat
        with (slash + String.length pre)%nat by lia.
      by rewrite <- append_correct2.
    + assert (H3 : String.get 3 (substring (String.length pre - k) 4
                                           (pre ++ fpath)) = None).
      { rewrite substring_correct1 by lia.
        replace (3 + (String.length pre - k))%nat with 3%nat by lia.
        destruct (String.get 3 (pre ++ fpath)) as [c|] eqn:E; [|done].
        apply get_Some_lt in E. rewrite string_length_append in E. lia. }
      by rewrite Hsfx in H3.
  - apply Z.ltb_ge in Hoff.
    replace (Z.to_nat (Z.of_nat (String.length fpath) - (Z.of_nat 4 + 1) + 1))
      with (String.length fpath - 4)%nat in Hsfx by lia.
    split; [|done].
    destruct (decide (slash + 5 <= String.length fpath)%nat) as [|Hn]; [done|].
    exfalso. apply (suffix_no_slash (slash - (String.length fpath - 4))).
    change (String "." (String "t" (String "d" (String "b" EmptyString))))
      with TDB_SUFFIX in Hsfx.
    rewrite <- Hsfx, substring_correct1 by lia.
    by replace (slash - (String.length fpath - 4) + (String.length fpath - 4))%nat
      with slash by lia.
Qed.

Lemma fmt_d_neg_digit (nd : Z) :
  -9 <= nd <= -1 -> String.length (fmt_d nd) = 2%nat.
Proof.
  intros H.
  assert (nd = -1 \/ nd = -2 \/ nd = -3 \/ nd = -4 \/ nd = -5 \/
          nd = -6 \/ nd = -7 \/ nd = -8 \/ nd = -9) as Hn by lia.
  repeat destruct Hn as [->|Hn]; try reflexivity. by subst.
Qed.

Lemma substring_append_r (n : nat) (s1 s2 : string) :
  substring 0 (String.length s1 + n) (s1 ++ s2) = (s1 ++ substring 0 n s2)%string.
Proof. induction s1 as [|a s1 IH]; simpl; [done|]. by rewrite IH. Qed.

Section OpenMore.

Variable W : Type.
Variable TDB_TBLNAME_LEN : nat.
Variable TDB_PATH_LEN : nat.
Variable tdb_tbl_lookup : string -> Z -> M W (option TDB).
Variable tdb_tbl_enumerate : TDB -> M W unit.
Variable kzalloc_TDB : M W bool.
Variable tdb_put : TDB -> M W unit.
Variable tdb_file_open : TDB -> Z -> M W (option (TdbFile * option TdbHdr)).
Variable tdb_file_close : TDB -> M W unit.
Variable tdb_htrie_init : option TdbHdr -> Z -> Z -> M W (option TdbHdr).

Local Abbreviation get_db :=
  (tdb_get_db W TDB_TBLNAME_LEN TDB_PATH_LEN tdb_tbl_lookup kzalloc_TDB).
Local Abbreviation open :=
  (tdb_open W TDB_TBLNAME_LEN TDB_PATH_LEN tdb_tbl_lookup tdb_tbl_enumerate
            kzalloc_TDB tdb_put tdb_file_open tdb_file_close tdb_htrie_init).

(** X1: for a node of at most 9, [tdb_get_db] returns NULL for every path
    that fails one of its checks (no slash, the suffix not at the end of
    the path, a name too long for a table name), whatever bytes precede
    the path in memory; the table registry and the allocator are not
    called and the state of the system is as before. *)
Theorem tdb_get_db_rejects (pre fpath : string) (nd : Z) (w : W) :
  nd <= 9 ->
  tdb_path_ok TDB_TBLNAME_LEN fpath = false ->
  get_db pre fpath nd w = Ret (None, w).
Proof.
  intros Hnode Hok. unfold tdb_get_db, bind, BUG_ON.
  replace (9 <? nd) with false by (symmetry; apply Z.ltb_ge; lia).
  destruct (negb _) eqn:Hsfx; [done|].
  apply negb_false_iff, String.eqb_eq in Hsfx.
  destruct (strrchr fpath "/") as [slash|] eqn:Hslash; [|done].
  destruct (tdb_suffix_slash pre fpath slash Hsfx Hslash) as [Hlen Hsuf].
  unfold tdb_path_ok in Hok. rewrite Hslash, Hsuf, String.eqb_refl in Hok.
  replace (slash + 5 <=? String.length fpath)%nat with true in Hok
    by (symmetry; by apply Nat.leb_le).
  cbn [andb] in Hok. apply Nat.ltb_ge in Hok.
  unfold sizeof_TDB_SUFFIX. cbn [TDB_SUFFIX String.length].
  replace (_ <? 0) with false by (symmetry; apply Z.ltb_ge; lia).
  by replace (_ <=? _) with true by (symmetry; apply Z.leb_le; lia).
Qed.

(** X2: with a registry and an allocator that do not stop the kernel,
    [tdb_get_db] fires a [BUG_ON] exactly when the node is greater than 9:
    its second assertion, on the length of the table name, never fires,
    whatever the path and the bytes before it. *)
Theorem tdb_get_db_bug_iff (pre fpath : string) (nd : Z) (w : W) :
  (forall name len w, tdb_tbl_lookup name len w <> Bug) ->
  (forall w, kzalloc_TDB w <> Bug) ->
  tdb_get_db W TDB_TBLNAME_LEN TDB_PATH_LEN tdb_tbl_lookup kzalloc_TDB
             pre fpath nd w = Bug
  <-> 9 < nd.
Proof.
  intros Hlookup Hkz. unfold tdb_get_db, bind, BUG_ON.
  destruct (9 <? nd) eqn:Hnode.
  { apply Z.ltb_lt in Hnode. done. }
  apply Z.ltb_ge in Hnode. split; [|lia]. intros Hbug. exfalso. revert Hbug.
  destruct (negb _) eqn:Hsfx; [done|].
  apply negb_false_iff, String.eqb_eq in Hsfx.
  destruct (strrchr fpath "/") as [slash|] eqn:Hslash; [|done].
  destruct (tdb_suffix_slash pre fpath slash Hsfx Hslash) as [Hlen Hsuf].
  unfold sizeof_TDB_SUFFIX. cbn [TDB_SUFFIX String.length].
  replace (_ <? 0) with false by (symmetry; apply Z.ltb_ge; lia).
  destruct (_ <=? _); [done|].
  match goal with |- context [tdb_tbl_lookup ?n ?l w] =>
    pose proof (Hlookup n l w) as Hl;
    destruct (tdb_tbl_lookup n l w) as [[[db|] w1]| | |]
  end; try done.
  pose proof (Hkz w1) as Hk. by destruct (kzalloc_TDB w1) as [[[|] w2]| | |].
Qed.

(** X3: for a path that passes the checks, a node from 0 to 9 and a table
    that is not open yet, [tdb_get_db] returns a new handle with one user
    and no mapping.  Its table name is the name of the path followed by
    the node and the suffix.  Its file path is the given path with the
    node put before the suffix, as long as this fits into [TDB_PATH_LEN]
    bytes with its terminator; a longer one is cut to [TDB_PATH_LEN - 1]
    characters, and no error is reported. *)
Theorem tdb_get_db_handle (pre fpath : string) (nd : Z) (w w1 w2 : W)
    (slash : nat) :
  0 <= nd <= 9 ->
  strrchr fpath "/" = Some slash ->
  (slash + 5 <= String.length fpath)%nat ->
  substring (String.length fpath - 4) 4 fpath = TDB_SUFFIX ->
  (String.length fpath - slash < TDB_TBLNAME_LEN)%nat ->
  (forall name len, tdb_tbl_lookup name len w = Ret (None, w1)) ->
  kzalloc_TDB w1 = Ret (true, w2) ->
  exists db,
    get_db pre fpath nd w = Ret (Some db, w2) /\
    count db = 1 /\ hdr db = None /\
    tbl_name db =
      (substring (S slash) (String.length fpath - slash - 5) fpath
       ++ fmt_d nd ++ TDB_SUFFIX)%string /\
    ((String.length fpath + 2 <= TDB_PATH_LEN)%nat ->
     path db =
       (substring 0 (String.length fpath - 4) fpath
        ++ fmt_d nd ++ TDB_SUFFIX)%string) /\
    ((TDB_PATH_LEN < String.length fpath + 2)%nat ->
     path db =
       substring 0 (TDB_PATH_LEN - 1)
         (substring 0 (String.length fpath - 4) fpath
          ++ fmt_d nd ++ TDB_SUFFIX) /\
     String.length (path db) = (TDB_PATH_LEN - 1)%nat).
Proof.
  intros Hnode Hslash Hlen Hsfx Hname Hlookup Hkz.
  destruct (tdb_get_db_fresh W TDB_TBLNAME_LEN TDB_PATH_LEN tdb_tbl_lookup
              kzalloc_TDB pre fpath nd w w1 w2 slash
              Hnode Hslash Hlen Hsfx Hname Hlookup Hkz)
    as (db & Hget & Htbl & Hhdr & Hcount).
  exists db. split; [done|]. split; [done|]. split; [done|]. split; [done|].
  revert Hget. unfold tdb_get_db, bind, BUG_ON.
  replace (9 <? nd) with false by (symmetry; apply Z.ltb_ge; lia).
  unfold sizeof_TDB_SUFFIX. cbn [TDB_SUFFIX String.length].
  unfold str_at.
  replace (_ <? 0) with false by (symmetry; apply Z.ltb_ge; lia).
  replace (Z.to_nat (Z.of_nat (String.length fpath) - (Z.of_nat 4 + 1) + 1))
    with (String.length fpath - 4)%nat by lia.
  replace (Z.to_nat (Z.of_nat 4 + 1 - 1)) with 4%nat by lia.
  change (String "." (String "t" (String "d" (String "b" EmptyString))))
    with TDB_SUFFIX.
  rewrite Hsfx, String.eqb_refl. cbn [negb]. rewrite Hslash.
  replace (_ <? 0) with false by (symmetry; apply Z.ltb_ge; lia).
  replace (_ <=? _) with false by (symmetry; apply Z.leb_gt; lia).
  rewrite Hlookup, Hkz. cbn [negb]. unfold ret.
  intros [= <-]. cbn [path tdb_get set_count].
  unfold fmt_prec.
  replace (_ <? 0) with false by (symmetry; apply Z.ltb_ge; lia).
  replace (Z.to_nat (Z.of_nat (String.length fpath) - (Z.of_nat 4 + 1) + 1))
    with (String.length fpath - 4)%nat by lia.
  assert (Hfull : String.length
            (substring 0 (String.length fpath - 4) fpath ++ fmt_d nd ++ TDB_SUFFIX)
          = (String.length fpath + 1)%nat).
  { rewrite !string_length_append, fmt_d_digit by done.
    rewrite substring_length_le by lia.
    cbn [TDB_SUFFIX String.length]. lia. }
  unfold snprintf. split.
  - intros Hfit. apply substring_0_all. rewrite Hfull. lia.
  - intros Hcut. split; [reflexivity|].
    apply (substring_length_le 0). rewrite Hfull. lia.
Qed.

(** X4: a negative node passes the assertion on the node and is printed
    with its sign, for which the check of the name length leaves no room:
    for a node from -9 to -1 and a name of the greatest length that the
    check accepts, the table name of the new handle is cut and ends with
    [.td], not with the suffix. *)
Theorem tdb_get_db_negative_node (pre fpath : string) (nd : Z) (w w1 w2 : W)
    (slash : nat) :
  -9 <= nd <= -1 ->
  strrchr fpath "/" = Some slash ->
  (slash + 5 <= String.length fpath)%nat ->
  substring (String.length fpath - 4) 4 fpath = TDB_SUFFIX ->
  (String.length fpath - slash + 1 = TDB_TBLNAME_LEN)%nat ->
  (forall name len, tdb_tbl_lookup name len w = Ret (None, w1)) ->
  kzalloc_TDB w1 = Ret (true, w2) ->
  exists db,
    get_db pre fpath nd w = Ret (Some db, w2) /\
    tbl_name db =
      (substring (S slash) (String.length fpath - slash - 5) fpath
       ++ fmt_d nd ++ ".td")%string.
Proof.
  intros Hnode Hslash Hlen Hsfx Hname Hlookup Hkz.
  unfold tdb_get_db, bind, BUG_ON.
  replace (9 <? nd) with false by (symmetry; apply Z.ltb_ge; lia).
  unfold sizeof_TDB_SUFFIX. cbn [TDB_SUFFIX String.length].
  unfold str_at.
  replace (_ <? 0) with false by (symmetry; apply Z.ltb_ge; lia).
  replace (Z.to_nat (Z.of_nat (String.length fpath) - (Z.of_nat 4 + 1) + 1))
    with (String.length fpath - 4)%nat by lia.
  replace (Z.to_nat (Z.of_nat 4 + 1 - 1)) with 4%nat by lia.
  change (String "." (String "t" (String "d" (String "b" EmptyString))))
    with TDB_SUFFIX.
  rewrite Hsfx, String.eqb_refl. cbn [negb]. rewrite Hslash.
  replace (_ <? 0) with false by (symmetry; apply Z.ltb_ge; lia).
  replace (_ <=? _) with false by (symmetry; apply Z.leb_gt; lia).
  rewrite Hlookup, Hkz. cbn [negb]. unfold ret.
  eexists. split; [reflexivity|]. cbn [tbl_name tdb_get set_count].
  unfold fmt_prec.
  replace (_ <? 0) with false by (symmetry; apply Z.ltb_ge; lia).
  replace (Z.to_nat (Z.of_nat (String.length fpath) - Z.of_nat slash
                     - (Z.of_nat 4 + 1)))
    with (String.length fpath - slash - 5)%nat by lia.
  rewrite substring_0_substring by lia.
  set (name := substring (S slash) (String.length fpath - slash - 5) fpath).
  assert (Hn : String.length name = (String.length fpath - slash - 5)%nat)
    by (apply substring_length_le; lia).
  pose proof (fmt_d_neg_digit nd Hnode) as Hd.
  unfold snprintf.
  replace (TDB_TBLNAME_LEN - 1)%nat with (String.length name + (2 + 3))%nat by lia.
  rewrite substring_append_r. f_equal.
  pose proof (substring_append_r 3 (fmt_d nd) TDB_SUFFIX) as Hcut.
  rewrite Hd in Hcut. exact Hcut.
Qed.

(** X5: a handle that [tdb_open] returns has passed every check and is
    ready for use: the size is a multiple of the extent size of at least
    one extent, the node is at most 9, the path has passed the checks of
    [tdb_get_db], and the handle carries the node, a mapping with its
    header, an open file and a free lock of get-or-allocate, also when the
    handle was found in the registry. *)
Theorem tdb_open_returns (pre fpath : string) (fsize rec_size nd : Z)
    (w w' : W) (db : TDB) :
  open pre fpath fsize rec_size nd w = Ret (Some db, w') ->
  (fsize mod TDB_EXT_SZ = 0 /\ TDB_EXT_SZ <= fsize) /\
  nd <= 9 /\
  tdb_path_ok TDB_TBLNAME_LEN fpath = true /\
  node db = nd /\
  ga_lock db = false /\
  (exists h, hdr db = Some h) /\
  (exists f, filp db = Some f).
Proof.
  unfold tdb_open.
  destruct (negb _ || _) eqn:Hchk; [done|].
  assert (Hsize : fsize mod TDB_EXT_SZ = 0 /\ TDB_EXT_SZ <= fsize).
  { destruct (Z.eq_dec (fsize mod TDB_EXT_SZ) 0) as [|Hm];
      [destruct (Z_lt_le_dec fsize TDB_EXT_SZ) as [Hl|]; [|done]|].
    - assert (Hbad : fsize mod TDB_EXT_SZ <> 0 \/ fsize < TDB_EXT_SZ) by (by right).
      apply tdb_ext_check in Hbad. congruence.
    - assert (Hbad : fsize mod TDB_EXT_SZ <> 0 \/ fsize < TDB_EXT_SZ) by (by left).
      apply tdb_ext_check in Hbad. congruence. }
  unfold bind at 1.
  destruct (get_db pre fpath nd w) as [[[d|] w1]| | |] eqn:Hget; try done.
  apply tdb_get_db_accepts in Hget
    as (Hnode & slash & Hslash & Hlen & Hsfx & Hname).
  unfold bind at 1.
  destruct (tdb_file_open _ _ w1) as [[[[f h]|] w2]| | |]; try done.
  2:{ unfold bind, ret. by destruct (tdb_put _ w2) as [[[] ?]| | |]. }
  unfold bind at 1. cbn [hdr set_hdr set_filp].
  destruct (tdb_htrie_init _ _ _ w2) as [[[h'|] w3]| | |]; try done.
  2:{ unfold bind, ret. destruct (tdb_file_close _ w3) as [[[] w4]| | |]; try done.
      by destruct (tdb_put _ w4) as [[[] ?]| | |]. }
  unfold bind, ret. destruct (tdb_tbl_enumerate _ w3) as [[[] w4]| | |]; try done.
  intros [= <- <-].
  split; [done|]. split; [done|]. split.
  { unfold tdb_path_ok. rewrite Hslash, Hsfx, String.eqb_refl.
    rewrite andb_true_r. apply andb_true_iff. split.
    - by apply Nat.leb_le.
    - by apply Nat.ltb_lt. }
  cbn. split; [done|]. split; [done|]. split; by eexists.
Qed.

End OpenMore.

Lemma tdb_get_db_rejects_witness :
  tdb_get_db0 "/x.t" "db" 0 [] = Ret (None, []).
Proof. apply tdb_get_db_rejects; [lia | reflexivity]. Defined.

Lemma tdb_get_db_bug_iff_witness :
  tdb_get_db0 "" "/opt/cache.tdb" 10 [] = Bug <-> 9 < 10.
Proof.
  apply tdb_get_db_bug_iff.
  - intros name len w. unfold reg_lookup. discriminate.
  - intros w. unfold kzalloc_ok. discriminate.
Defined.

Lemma tdb_get_db_handle_witness :
  exists db,
    tdb_get_db (list TDB) 31 12 reg_lookup kzalloc_ok "" "/opt/cache.tdb" 3 []
      = Ret (Some db, []) /\
    count db = 1 /\ hdr db = None /\
    tbl_name db = "cache3.tdb"%string /\
    ((14 + 2 <= 12)%nat -> path db = "/opt/cache3.tdb"%string) /\
    ((12 < 14 + 2)%nat ->
     path db = "/opt/cache3"%string /\ String.length (path db) = 11%nat).
Proof.
  apply (tdb_get_db_handle (list TDB) 31 12 reg_lookup kzalloc_ok
           "" "/opt/cache.tdb" 3 [] [] [] 4);
    try reflexivity; simpl; try lia.
Defined.

Lemma tdb_get_db_negative_node_witness :
  exists db,
    tdb_get_db (list TDB) 12 128 reg_lookup kzalloc_ok
               "" "/opt/cached.tdb" (-1) []
      = Ret (Some db, []) /\
    tbl_name db = "cached-1.td"%string.
Proof.
  apply (tdb_get_db_negative_node (list TDB) 12 128 reg_lookup kzalloc_ok
           "" "/opt/cached.tdb" (-1) [] [] [] 4);
    try reflexivity; simpl; try lia.
Defined.

Lemma tdb_open_returns_witness :
  (2 ^ 21 mod TDB_EXT_SZ = 0 /\ TDB_EXT_SZ <= 2 ^ 21) /\
  0 <= 9 /\
  tdb_path_ok 31 "a/b.tdb" = true /\
  node db_rel = 0 /\
  ga_lock db_rel = false /\
  (exists h, hdr db_rel = Some h) /\
  (exists f, filp db_rel = Some f).
Proof.
  apply (tdb_open_returns (list TDB) 31 128 reg_lookup reg_enumerate
           kzalloc_ok put_nop file_open_ok put_nop htrie_init_ok
           "" "a/b.tdb" (2 ^ 21) 64 0 [] [db_rel] db_rel).
  vm_compute. reflexivity.
Defined.

(** ** Closing a table *)

Lemma s32_small (z : Z) : - 2 ^ 31 <= z < 2 ^ 31 -> s32 z = z.
Proof. intros H. unfold s32. rewrite Z.mod_small; lia. Qed.

Section CloseFacts.

Variable W : Type.
Variable tdb_tbl_forget : TDB -> M W unit.
Variable tdb_file_close : TDB -> M W unit.
Variable tdb_htrie_exit : option TdbHdr -> M W unit.
Variable kfree_TDB : TDB -> M W unit.

Local Abbreviation close :=
  (tdb_close W tdb_tbl_forget tdb_file_close tdb_htrie_exit kfree_TDB).
Local Abbreviation close_n :=
  (tdb_close_n W tdb_tbl_forget tdb_file_close tdb_htrie_exit kfree_TDB).

(** Calls of [tdb_close] that do not drop the last reference only count
    down. *)
Lemma tdb_close_n_held (n : nat) (db : TDB) (w : W) :
  - 2 ^ 31 + Z.of_nat n <= count db < 2 ^ 31 ->
  (count db <= 0 \/ Z.of_nat n < count db) ->
  close_n n (Some db) w = Ret (Some (set_count db (count db - Z.of_nat n)), w).
Proof.
  revert db. induction n as [|n IH]; intros db Hrange Hcnt.
  - cbn [tdb_close_n]. unfold ret. do 3 f_equal.
    destruct db. unfold set_count. cbn. f_equal. lia.
  - cbn [tdb_close_n]. unfold bind, tdb_close, atomic_dec_and_test.
    rewrite s32_small by lia.
    replace (count db - 1 =? 0) with false by (symmetry; apply Z.eqb_neq; lia).
    cbn [negb]. unfold ret at 1.
    rewrite IH by (cbn [count set_count]; lia).
    cbn [count set_count]. unfold set_count. cbn. do 4 f_equal. lia.
Qed.

Lemma tdb_close_n_last (k : nat) (d : option TDB) (w : W) :
  close_n (k + 1) d w = (d' <- close_n k d ;; close d') w.
Proof.
  revert d w. induction k as [|k IH]; intros d w.
  - cbn [Nat.add tdb_close_n]. unfold bind, ret.
    by destruct (close d w) as [[? ?]| | |].
  - cbn [Nat.add tdb_close_n]. rewrite bind_assoc.
    unfold bind at 1. unfold bind at 1.
    by destruct (close d w) as [[d1 w1]| | |].
Qed.

(** X6: the users of a handle are counted.  On a handle with [n + 1]
    users the first [n] calls of [tdb_close] only count down: no
    collaborator is called and the state of the system is as before.  The
    next call drops the last reference: the table is taken out of the
    registry, its file is closed, its trie is shut down and the handle is
    freed, in this order. *)
Theorem tdb_close_refcount (n : nat) (db : TDB) (w : W) :
  count db = Z.of_nat (S n) ->
  count db < 2 ^ 31 ->
  close_n n (Some db) w = Ret (Some (set_count db 1), w) /\
  close_n (S n) (Some db) w =
    (tdb_tbl_forget (set_count db 0) ;;;
     tdb_file_close (set_count db 0) ;;;
     tdb_htrie_exit (hdr db) ;;;
     kfree_TDB (set_count db 0) ;;;
     ret None) w.
Proof.
  intros Hcnt Hmax.
  assert (Hn : close_n n (Some db) w = Ret (Some (set_count db 1), w)).
  { rewrite tdb_close_n_held by lia. do 4 f_equal. lia. }
  split; [done|].
  replace (S n) with (n + 1)%nat by lia.
  rewrite tdb_close_n_last. unfold bind at 1. rewrite Hn.
  unfold tdb_close, atomic_dec_and_test, __do_close_table.
  cbn [count set_count]. change (s32 (1 - 1) =? 0) with true. cbn [negb].
  change (s32 (1 - 1)) with 0.
  change (set_count (set_count db 1) 0) with (set_count db 0).
  unfold bind. cbn [hdr set_count].
  destruct (tdb_tbl_forget _ w) as [[[] w1]| | |]; try done.
  destruct (tdb_file_close _ w1) as [[[] w2]| | |]; try done.
  by destruct (tdb_htrie_exit _ w2) as [[[] w3]| | |].
Qed.

End CloseFacts.

Lemma tdb_close_refcount_witness :
  tdb_close_n0 2 (Some (set_count db0 3)) [] =
    Ret (Some (set_count (set_count db0 3) 1), []) /\
  tdb_close_n0 3 (Some (set_count db0 3)) [] =
    Ret (None, ["tdb_tbl_forget"; "tdb_file_close"; "tdb_htrie_exit";
                "kfree"]%string).
Proof.
  apply (tdb_close_refcount (list string) (log_event "tdb_tbl_forget")
           (log_event "tdb_file_close") (log_event "tdb_htrie_exit")
           (log_event "kfree") 2 (set_count db0 3) []);
    [reflexivity | vm_compute; reflexivity].
Defined.

(** ** The info string *)

Lemma list_inserts_take_drop {A : Type} (k l : list A) (i : nat) :
  (i + length k <= length l)%nat ->
  list_inserts i k l = take i l ++ k ++ drop (i + length k) l.
Proof.
  intros Hlen.
  rewrite <- (take_drop i l) at 1.
  replace i with (length (take i l) + 0)%nat at 1
    by (rewrite length_take; lia).
  rewrite list_inserts_app_r. f_equal.
  rewrite <- (take_drop (length k) (drop i l)) at 1.
  rewrite list_inserts_0_r by (rewrite length_take, length_drop; lia).
  by rewrite drop_drop.
Qed.

Lemma list_insert_last {A : Type} (l r : list A) (x : A) :
  l <> [] ->
  <[(length l - 1)%nat := x]> (l ++ r) = removelast l ++ [x] ++ r.
Proof.
  intros Hl. destruct (exists_last Hl) as (l' & a & ->).
  rewrite removelast_last, length_app. cbn [length].
  replace (length l' + 1 - 1)%nat with (length l' + 0)%nat by lia.
  rewrite <- !app_assoc. by rewrite insert_app_r.
Qed.

Lemma length_list_ascii_of_string (s : string) :
  length (list_ascii_of_string s) = String.length s.
Proof. induction s as [|a s IH]; simpl; [done|]. by rewrite IH. Qed.

Lemma list_ascii_of_string_app (s1 s2 : string) :
  list_ascii_of_string (s1 ++ s2) =
  list_ascii_of_string s1 ++ list_ascii_of_string s2.
Proof. induction s1 as [|a s1 IH]; [done|]. cbn. by rewrite IH. Qed.

Section InfoFacts.

Variable W : Type.
Variable tdb_tbl_print_all : list ascii -> Z -> Z -> M W (Z * list ascii).

Local Abbreviation info := (tdb_info W tdb_tbl_print_all).

(** X7: [tdb_info] does not check the size of its buffer against the
    length of its headline, which has 41 characters.  With a buffer of at
    most 40 bytes, and a printer of the tables that returns a count that
    is not negative, the call stores beyond the end of the buffer,
    whatever size of at most [INT_MAX] the caller passes: at the latest
    the newline that ends the text, at [buf[n - 1]], lies beyond it. *)
Theorem tdb_info_short_buffer (buf : list ascii) (len : Z) (w : W) :
  0 <= len <= INT_MAX ->
  (length buf <= 40)%nat ->
  (forall b off size w0, exists m b' w1,
     tdb_tbl_print_all b off size w0 = Ret ((m, b'), w1) /\
     0 <= m <= INT_MAX /\ length b' = length b) ->
  info buf len w = Fault.
Proof.
  intros Hlen Hbuf Hprint.
  unfold tdb_info, bind at 1, buf_snprintf.
  replace (INT_MAX <? len) with false by (symmetry; apply Z.ltb_ge; lia).
  assert (Hstore : forall b w0, length b = length buf ->
    (r <- tdb_tbl_print_all b 41 (u64 (len - 41)) ;;
     let '(m, b0) := r in
     b1 <- buf_store W b0 (s32 (41 + m) - 1) nl ;;
     ret (s32 (41 + m), b1)) w0 = Fault).
  { intros b w0 Hb. unfold bind at 1.
    destruct (Hprint b 41 (u64 (len - 41)) w0) as (m & b' & w1 & -> & Hm & Hb').
    unfold bind, buf_store.
    replace ((0 <=? s32 (41 + m) - 1) && (s32 (41 + m) - 1 <? Z.of_nat (length b')))
      with false; [done|].
    symmetry. apply andb_false_iff.
    destruct (Z_lt_le_dec (41 + m) (2 ^ 31)) as [Hsmall|Hbig].
    - right. rewrite s32_small by lia. apply Z.ltb_ge. lia.
    - left. apply Z.leb_gt. unfold s32, INT_MAX in *.
      replace ((41 + m + 2 ^ 31) mod 2 ^ 32) with (41 + m + 2 ^ 31 - 2 ^ 32).
      + lia.
      + apply Z.mod_unique with (q := 1); lia. }
  destruct (len =? 0) eqn:Hz.
  - change (Z.of_nat (String.length tdb_info_head)) with 41.
    change (41 <=? 0) with false. cbv iota beta. by apply Hstore.
  - destruct (_ <? _)%nat; [|done].
    change (Z.of_nat (String.length tdb_info_head)) with 41.
    change (41 <=? 0) with false. cbv iota beta. apply Hstore.
    apply length_inserts.
Qed.

(** X8: with a buffer of [len] bytes that has room for the headline, the
    text [t] of the open tables and the terminator, and a printer that
    prints [t] after the headline, [tdb_info] returns the length of the
    headline and of [t] together, and leaves in the buffer the headline
    followed by [t] with the last character replaced by a newline, then
    the terminator; the bytes after it are as before.  With no open table
    the newline replaces the blank that ends the headline. *)
Theorem tdb_info_text (buf : list ascii) (len : Z) (t : string) (w w' : W) :
  len <= Z.of_nat (length buf) ->
  len <= INT_MAX ->
  41 + Z.of_nat (String.length t) + 1 <= len ->
  (forall b, tdb_tbl_print_all b 41 (len - 41) w =
     Ret ((Z.of_nat (String.length t),
           list_inserts 41 (list_ascii_of_string t ++ [NUL]) b), w')) ->
  info buf len w =
    Ret ((41 + Z.of_nat (String.length t),
          removelast (list_ascii_of_string (tdb_info_head ++ t))
          ++ [nl; NUL] ++ drop (42 + String.length t) buf), w').
Proof.
  intros Hbuf Hmax Hroom Hprint.
  unfold tdb_info, bind at 1, buf_snprintf.
  replace (INT_MAX <? len) with false by (symmetry; apply Z.ltb_ge; lia).
  replace (len =? 0) with false by (symmetry; apply Z.eqb_neq; lia).
  rewrite substring_0_all
    by (change (String.length tdb_info_head) with 41%nat; lia).
  set (head := list_ascii_of_string tdb_info_head).
  assert (Hhead : length head = 41%nat) by reflexivity.
  replace (length head <? length buf)%nat with true
    by (symmetry; apply Nat.ltb_lt; lia).
  change (Z.of_nat (String.length tdb_info_head)) with 41.
  change (41 <=? 0) with false. cbv iota beta.
  unfold bind at 1.
  replace (u64 (len - 41)) with (len - 41)
    by (unfold u64; rewrite Z.mod_small; unfold INT_MAX in *; lia).
  rewrite Hprint.
  set (txt := list_ascii_of_string t).
  assert (Htxt : length txt = String.length t)
    by apply length_list_ascii_of_string.
  rewrite s32_small by (unfold INT_MAX in *; lia).
  unfold bind, buf_store. rewrite !length_inserts.
  replace ((0 <=? _) && (_ <? _)) with true
    by (symmetry; apply andb_true_iff; split;
        [apply Z.leb_le|apply Z.ltb_lt]; lia).
  unfold ret. do 3 f_equal.
  assert (Hb1 : list_inserts 0 (head ++ [NUL]) buf
                = head ++ [NUL] ++ drop 42 buf).
  { rewrite list_inserts_take_drop by (rewrite length_app; cbn [length]; lia).
    rewrite take_0, length_app, Hhead, <- app_assoc. done. }
  assert (Hb2 : list_inserts 41 (txt ++ [NUL]) (head ++ [NUL] ++ drop 42 buf)
                = (head ++ txt) ++ [NUL] ++ drop (42 + String.length t) buf).
  { rewrite list_inserts_take_drop
      by (rewrite !length_app, length_drop, Hhead, Htxt; cbn [length]; lia).
    rewrite <- Hhead at 1. rewrite take_app_length.
    rewrite drop_app_ge by (rewrite Hhead; lia).
    rewrite length_app, Htxt, Hhead.
    rewrite drop_app_ge by (cbn [length]; lia).
    rewrite drop_drop, <- !app_assoc. do 4 f_equal. cbn [length]. lia. }
  rewrite Hb1, Hb2, list_ascii_of_string_app. fold head txt.
  replace (Z.to_nat (41 + Z.of_nat (String.length t) - 1))
    with (length (head ++ txt) - 1)%nat by (rewrite length_app; lia).
  rewrite list_insert_last; [done|].
  by destruct head.
Qed.

End InfoFacts.

Lemma tdb_info_short_buffer_witness :
  tdb_info unit (print_text "a0.tdb ") (replicate 16 NUL) 16 tt = Fault.
Proof.
  apply tdb_info_short_buffer.
  - unfold INT_MAX. lia.
  - simpl. lia.
  - intros b off size w0. unfold print_text, INT_MAX.
    destruct (_ <? size).
    + eexists _, _, _. split; [reflexivity|]. split; [simpl; lia|].
      apply length_inserts.
    + eexists _, _, _. split; [reflexivity|]. split; [lia|done].
Defined.

Lemma tdb_info_text_witness :
  tdb_info unit (print_text "a0.tdb b1.tdb ") (replicate 64 NUL) 64 tt =
    Ret ((41 + 14,
          removelast (list_ascii_of_string
                        (tdb_info_head ++ "a0.tdb b1.tdb "))
          ++ [nl; NUL] ++ replicate 8 NUL), tt).
Proof.
  apply (tdb_info_text unit (print_text "a0.tdb b1.tdb ")
           (replicate 64 NUL) 64 "a0.tdb b1.tdb " tt tt).
  - simpl. lia.
  - unfold INT_MAX. lia.
  - simpl. lia.
  - intros b. reflexivity.
Defined.

(** ** Room for writing: a cursor beyond the fragment *)

(** X9: [tdb_entry_get_room] compares the difference of two pointers with
    an unsigned length.  When the write cursor lies beyond the end of the
    fragment the difference is negative and counts as a huge room: the
    cursor is returned, for every tail length up to [2 ^ 64] minus the
    excess of the cursor, and the record is neither chopped nor
    extended. *)
Theorem tdb_entry_get_room_past_end (vrec_data : nat -> Z) (db : TDB)
    (h : TdbHdr) (r : nat) (v : TdbRec) (curr_ptr tail_len tot_size : Z) :
  hdr db = Some h ->
  recs h !! r = Some v ->
  vrec_data r + rec_len v < curr_ptr ->
  curr_ptr - (vrec_data r + rec_len v) < 2 ^ 64 ->
  0 <= tail_len <= 2 ^ 64 - (curr_ptr - (vrec_data r + rec_len v)) ->
  tdb_entry_get_room vrec_data db r curr_ptr tail_len tot_size =
    Ret ((Some curr_ptr, Some r), db).
Proof.
  intros Hdb Hr Hpast Hwide Htail.
  unfold tdb_entry_get_room. unfold bind at 1. unfold deref.
  rewrite Hdb, Hr. cbv beta iota.
  replace (u64 (vrec_data r + rec_len v - curr_ptr))
    with (2 ^ 64 - (curr_ptr - (vrec_data r + rec_len v))).
  - by replace (tail_len <=? _) with true by (symmetry; apply Z.leb_le; lia).
  - unfold u64. apply Z.mod_unique with (q := -1); lia.
Qed.

Lemma tdb_entry_get_room_past_end_witness :
  tdb_entry_get_room vrec_data0 db_alloc 0 200 4096 256 =
    Ret ((Some 200, Some 0%nat), db_alloc).
Proof.
  apply (tdb_entry_get_room_past_end vrec_data0 db_alloc
           (default hdr0 (hdr db_alloc)) 0
           (mkTdbRec 42 None 128 2 false false EmptyString) 200 4096 256);
    try reflexivity; unfold vrec_data0; cbn; lia.
Defined.

(** ** Get-or-allocate: outcomes and references *)

(** X10: the outcomes of [tdb_rec_get_alloc] on an open table.  While the
    lock of get-or-allocate is held the call spins.  With the lock free
    the call neither faults nor spins, and it fires a [BUG_ON] exactly
    when no record of the chain is accepted, the pre-creation callback
    raises no veto and the requested length is below
    [TDB_HTRIE_MINDREC]: a length that is too small goes unnoticed as
    long as the record is found. *)
Theorem tdb_rec_get_alloc_outcome (db : TDB) (h : TdbHdr) (key : Z)
    (c : TdbGetAllocCtx) :
  hdr db = Some h ->
  (ga_lock db = true -> tdb_rec_get_alloc db key c = Spin) /\
  (ga_lock db = false ->
   tdb_rec_get_alloc db key c <> Fault /\
   tdb_rec_get_alloc db key c <> Spin /\
   (tdb_rec_get_alloc db key c = Bug <->
    List.find (rec_accepted c (recs h) key) (chain h key) = None /\
    precreate_veto c = false /\
    len c < TDB_HTRIE_MINDREC)).
Proof.
  intros Hdb. split.
  - intros Hlock. unfold tdb_rec_get_alloc, bind at 1, spin_lock_ga.
    by rewrite Hlock.
  - intros Hlock. rewrite (tdb_rec_get_alloc_eq db key c h Hdb Hlock).
    destruct (List.find _ _) as [q|]; [by repeat split; try done; intros [? _]|].
    destruct (precreate_veto c); [by repeat split; try done; intros (_ & ? & _)|].
    destruct (len c <? TDB_HTRIE_MINDREC) eqn:Hlen.
    + apply Z.ltb_lt in Hlen. by repeat split.
    + apply Z.ltb_ge in Hlen.
      destruct (tdb_htrie_insert _ _ _ _ _ _ _) as [h1 [p|]];
        repeat split; try done; intros (_ & _ & ?); lia.
Qed.

Lemma tdb_rec_get_alloc_outcome_witness :
  (ga_lock db_one = true -> tdb_rec_get_alloc db_one 7 ctx_small = Spin) /\
  (ga_lock db_one = false ->
   tdb_rec_get_alloc db_one 7 ctx_small <> Fault /\
   tdb_rec_get_alloc db_one 7 ctx_small <> Spin /\
   (tdb_rec_get_alloc db_one 7 ctx_small = Bug <->
    List.find (rec_accepted ctx_small (recs (default hdr0 (hdr db_one))) 7)
              (chain (default hdr0 (hdr db_one)) 7) = None /\
    precreate_veto ctx_small = false /\
    len ctx_small < TDB_HTRIE_MINDREC)).
Proof.
  apply (tdb_rec_get_alloc_outcome db_one (default hdr0 (hdr db_one)) 7
           ctx_small).
  reflexivity.
Defined.

(** X11: after a lookup that finds no record [tdb_rec_next] must not be
    called.  [tdb_rec_get] leaves the table as it was and an iterator
    without record.  When the key has no bucket the iterator has no
    bucket either and [tdb_rec_next] fires its [BUG_ON].  And whichever
    bucket pointer the scan of a bucket leaves in an iterator without
    record, [tdb_rec_next] does not return: it fires its [BUG_ON] for a
    NULL bucket and reads the key through the NULL record otherwise. *)
Theorem tdb_rec_next_after_miss (db db' : TDB) (h : TdbHdr) (key : Z)
    (it : TdbIter) :
  hdr db = Some h ->
  tdb_rec_get db key = Ret (it, db') ->
  TDB_ITER_BAD it = true ->
  db' = db /\
  rec it = None /\
  (tdb_htrie_lookup h key = None ->
   bckt it = None /\ tdb_rec_next db' it = Bug) /\
  (forall b,
     tdb_rec_next db' (mkTdbIter None b) =
       match b with
       | None => Bug
       | Some _ => Fault
       end) /\
  (forall it' db'', tdb_rec_next db' it <> Ret (it', db'')).
Proof.
  intros Hdb Hget Hbad.
  assert (Hrec : rec it = None).
  { unfold TDB_ITER_BAD in Hbad. by destruct (rec it). }
  assert (Hnext : forall d b,
            tdb_rec_next d (mkTdbIter None b) =
              match b with None => Bug | Some _ => Fault end).
  { intros d b. unfold tdb_rec_next. cbn [bckt rec]. by destruct b. }
  assert (Hdb' : db' = db).
  { revert Hget. unfold tdb_rec_get. rewrite Hdb.
    destruct (tdb_htrie_lookup h key) as [b|]; [|by intros [= <- <-]].
    unfold tdb_htrie_bscan_for_rec.
    destruct (bckt_scan (recs h) key b) as [[p|] b'].
    - intros [= <- <-]. done.
    - intros [= <- <-]. by rewrite set_hdr_id. }
  split; [done|]. split; [done|]. split; [|split].
  - intros Hnone. revert Hget. unfold tdb_rec_get. rewrite Hdb, Hnone.
    intros [= <- <-]. by split.
  - intros b. apply Hnext.
  - intros it' db''. destruct it as [ri bi]. cbn [rec] in Hrec. subst ri.
    rewrite Hnext. by destruct bi.
Qed.

Lemma tdb_rec_next_after_miss_witness :
  db0 = db0 /\
  rec (mkTdbIter None None) = None /\
  (tdb_htrie_lookup hdr0 7 = None ->
   bckt (mkTdbIter None None) = None /\
   tdb_rec_next db0 (mkTdbIter None None) = Bug) /\
  (forall b,
     tdb_rec_next db0 (mkTdbIter None b) =
       match b with
       | None => Bug
       | Some _ => Fault
       end) /\
  (forall it' db'', tdb_rec_next db0 (mkTdbIter None None) <> Ret (it', db'')).
Proof.
  apply (tdb_rec_next_after_miss db0 db0 hdr0 7 (mkTdbIter None None));
    reflexivity.
Defined.

(** X12: references are balanced.  On an open table [tdb_rec_put] undoes
    [tdb_rec_keep], and it undoes the reference that [tdb_rec_get] takes on
    the record it returns: the table is then exactly as before the
    lookup.  A lookup that finds no record takes no reference. *)
Theorem tdb_rec_put_balance (db : TDB) (h : TdbHdr) (key : Z) (p : nat) :
  hdr db = Some h ->
  (_ <- (fun db => tdb_rec_keep db p) ;; fun db => tdb_rec_put db p) db
    = Ret (tt, db) /\
  (forall it db',
     tdb_rec_get db key = Ret (it, db') ->
     match rec it with
     | Some q => tdb_rec_put db' q = Ret (tt, db)
     | None => db' = db
     end).
Proof.
  intros Hdb. split.
  - unfold bind, tdb_rec_keep, tdb_rec_put, with_hdr. rewrite Hdb.
    cbn [hdr set_hdr]. by rewrite put_get_rec, set_hdr_set_hdr, set_hdr_id.
  - intros it db'. unfold tdb_rec_get. rewrite Hdb.
    destruct (tdb_htrie_lookup h key) as [b|].
    + unfold tdb_htrie_bscan_for_rec.
      destruct (bckt_scan (recs h) key b) as [[q|] b'].
      * intros [= <- <-]. cbn [rec]. unfold tdb_rec_put, with_hdr.
        cbn [hdr set_hdr]. by rewrite put_get_rec, set_hdr_set_hdr, set_hdr_id.
      * intros [= <- <-]. cbn [rec]. by rewrite set_hdr_id.
    + by intros [= <- <-].
Qed.

Lemma tdb_rec_put_balance_witness :
  (_ <- (fun db => tdb_rec_keep db 0) ;; fun db => tdb_rec_put db 0) db_one
    = Ret (tt, db_one) /\
  (forall it db',
     tdb_rec_get db_one 42 = Ret (it, db') ->
     match rec it with
     | Some q => tdb_rec_put db' q = Ret (tt, db_one)
     | None => db' = db_one
     end).
Proof.
  apply (tdb_rec_put_balance db_one (default hdr0 (hdr db_one)) 42 0).
  reflexivity.
Defined.

(** X13: when [tdb_rec_get_alloc] returns a record with [is_new] false,
    the record is one of the chain that the equality callback accepts,
    and one [tdb_rec_put] on it leaves the table exactly as it was before
    the call. *)
Theorem tdb_rec_get_alloc_put (db db' : TDB) (h : TdbHdr) (key : Z)
    (c c' : TdbGetAllocCtx) (p : nat) :
  hdr db = Some h ->
  ga_lock db = false ->
  tdb_rec_get_alloc db key c = Ret ((Some p, c'), db') ->
  is_new c' = false ->
  rec_accepted c (recs h) key p = true /\
  tdb_rec_put db' p = Ret (tt, db).
Proof.
  intros Hdb Hlock. rewrite (tdb_rec_get_alloc_eq db key c h Hdb Hlock).
  destruct (List.find _ _) as [q|] eqn:Hfind.
  - intros [= <- <- <-] _. split.
    + by apply find_some in Hfind as [_ ?].
    + unfold tdb_rec_put, with_hdr. cbn [hdr set_hdr].
      by rewrite put_get_rec, set_hdr_set_hdr, set_hdr_id.
  - destruct (precreate_veto c); [done|].
    destruct (len c <? TDB_HTRIE_MINDREC); [done|].
    destruct (tdb_htrie_insert _ _ _ _ _ _ _) as [h1 [q|]]; [|done].
    by intros [= <- <- <-].
Qed.

Lemma tdb_rec_get_alloc_put_witness :
  rec_accepted ctx_any (recs (default hdr0 (hdr db_one))) 42 0 = true /\
  tdb_rec_put db_one_held 0 = Ret (tt, db_one).
Proof.
  apply (tdb_rec_get_alloc_put db_one db_one_held (default hdr0 (hdr db_one))
           42 ctx_any (set_is_new ctx_any false) 0);
    [reflexivity | reflexivity | vm_compute; reflexivity | reflexivity].
Defined.

(** ** Round trips through the table *)

(** The record that an insert without equality callback installs is in
    the collision chain of its key afterwards, next to records that were
    in the chain before; the trie stays well formed. *)
Lemma tdb_htrie_insert_chain_any (h h1 : TdbHdr) (key len : Z)
    (data : option string) (complete : bool) (p : nat) :
  wf_hdr h ->
  tdb_htrie_insert h key data None 0 len complete = (h1, Some p) ->
  wf_hdr h1 /\
  In p (chain h1 key) /\
  (forall q, In q (chain h1 key) -> q = p \/ In q (chain h key)) /\
  p = length (recs h) /\
  recs h1 =
    recs h ++ [mkTdbRec key None len 2 complete false
                 match data with
                 | Some d => substring 0 (Z.to_nat len) d
                 | None => EmptyString
                 end].
Proof.
  intros Hwf. unfold tdb_htrie_insert.
  destruct (used h + len <=? dbsz h); [|done].
  intros [= <- <-].
  set (rs := recs h ++ [mkTdbRec key None len 2 complete false
                          match data with
                          | Some d => substring 0 (Z.to_nat len) d
                          | None => EmptyString
                          end]).
  assert (Hkey : rec_key_at rs (length (recs h)) = key).
  { unfold rec_key_at, rs. by rewrite list_lookup_middle. }
  unfold wf_hdr, chain, tdb_htrie_lookup. cbn [root recs].
  split; [by apply htrie_install_wf|].
  destruct (htrie_install_found TDB_HTRIE_DEPTH 0 rs (bckt_slots h) (root h)
              key (length (recs h)) Hwf Hkey) as (b & Hb & Hin).
  rewrite Hb. split; [done|]. split; [|done].
  intros q Hq.
  destruct (htrie_install_chain _ _ _ _ _ _ _ _ _ Hb Hq) as [->|(b0 & Hb0 & Hq0)];
    [by left|].
  right. by rewrite Hb0.
Qed.

(** A record added at the end leaves the records before it as they are. *)
Lemma rec_matches_app (rs : list TdbRec) (r : TdbRec) (key : Z) (q : nat) :
  q <> length rs ->
  rec_matches (rs ++ [r]) key q = rec_matches rs key q.
Proof.
  intros Hq. unfold rec_matches.
  destruct (decide (q < length rs)%nat).
  - by rewrite lookup_app_l.
  - rewrite lookup_app_r by lia.
    rewrite (lookup_ge_None_2 rs) by lia.
    by destruct (q - length rs)%nat as [|k] eqn:E; [lia|].
Qed.

(** X14: insert and lookup.  When [tdb_entry_create] returns a record on
    a well-formed table, the record is complete and holds the key and the
    first [len] bytes of the data; a lookup of the key with iteration
    yields it, next to records of the key that were visible before; and
    when no record of the key was visible before, [tdb_rec_get] returns
    this very record, with a reference taken on it. *)
Theorem tdb_entry_create_get (db db1 : TDB) (h : TdbHdr) (key : Z)
    (d : string) (len : Z) (p : nat) :
  hdr db = Some h ->
  wf_hdr h ->
  tdb_entry_create db key (Some d) len = Ret (Some p, db1) ->
  exists h1,
    hdr db1 = Some h1 /\ wf_hdr h1 /\
    recs h1 !! p =
      Some (mkTdbRec key None len 2 true false (substring 0 (Z.to_nat len) d)) /\
    (exists ps,
       lookup_all db1 key = Ret (ps, db1) /\ In p ps /\
       forall q, In q ps -> q = p \/ rec_matches (recs h) key q = true) /\
    ((forall q, In q (chain h key) -> rec_matches (recs h) key q = false) ->
     exists b,
       tdb_rec_get db1 key =
         Ret (mkTdbIter (Some p) (Some b),
              set_hdr db1 (Some (tdb_htrie_get_rec h1 p)))).
Proof.
  intros Hdb Hwf. unfold tdb_entry_create, bind, BUG_ON, with_hdr, ret.
  cbn [bool_decide decide_rel]. rewrite bool_decide_eq_false_2 by done.
  rewrite Hdb.
  destruct (tdb_htrie_insert h key (Some d) None 0 len true) as [h1 [p'|]] eqn:Hins;
    [|done].
  intros [= <- <-].
  destruct (tdb_htrie_insert_chain_any h h1 key len (Some d) true p' Hwf Hins)
    as (Hwf1 & Hp & Hsub & Hplen & Hrecs).
  set (r0 := mkTdbRec key None len 2 true false (substring 0 (Z.to_nat len) d)) in *.
  assert (Hp1 : recs h1 !! p' = Some r0)
    by (rewrite Hrecs, Hplen; by apply list_lookup_middle).
  assert (Hm : rec_matches (recs h1) key p' = true).
  { unfold rec_matches. rewrite Hp1. cbn. by rewrite Z.eqb_refl. }
  assert (Hold : forall q, q <> p' ->
            rec_matches (recs h1) key q = rec_matches (recs h) key q).
  { intros q Hq. rewrite Hrecs. apply rec_matches_app. by rewrite <- Hplen. }
  exists h1. split; [done|]. split; [done|]. split; [done|]. split.
  - eexists. split; [by apply lookup_all_spec|]. split.
    + apply filter_In. by split.
    + intros q [Hq Hmq]%filter_In.
      destruct (decide (q = p')) as [|Hne]; [by left|].
      right. by rewrite <- Hold.
  - intros Hnone. unfold tdb_rec_get. cbn [hdr set_hdr].
    assert (Hchain : chain h1 key <> []) by (by destruct (chain h1 key)).
    unfold chain in Hp, Hsub, Hchain.
    destruct (tdb_htrie_lookup h1 key) as [b|]; [|done].
    unfold tdb_htrie_bscan_for_rec.
    destruct (bckt_scan (recs h1) key b) as [[q|] b'] eqn:Hscan.
    + apply bckt_scan_Some in Hscan as (sk & Hsk & Hq & Hall).
      assert (q = p') as ->.
      { destruct (decide (q = p')) as [|Hne]; [done|]. exfalso.
        rewrite Hold in Hq by done.
        destruct (Hsub q) as [|Hin]; [|done|].
        - rewrite Hsk. apply in_or_app. right. by left.
        - by rewrite Hnone in Hq. }
      exists b'. by rewrite set_hdr_set_hdr.
    + apply bckt_scan_None in Hscan as [Hall _]. exfalso.
      rewrite Forall_forall in Hall.
      apply list_elem_of_In in Hp. apply Hall in Hp. congruence.
Qed.

Lemma tdb_entry_create_get_witness :
  exists h1,
    hdr db_one = Some h1 /\ wf_hdr h1 /\
    recs h1 !! 0%nat = Some (mkTdbRec 42 None 1 2 true false "X") /\
    (exists ps,
       lookup_all db_one 42 = Ret (ps, db_one) /\ In 0%nat ps /\
       forall q, In q ps -> q = 0%nat \/ rec_matches (recs hdr0) 42 q = true) /\
    ((forall q, In q (chain hdr0 42) -> rec_matches (recs hdr0) 42 q = false) ->
     exists b,
       tdb_rec_get db_one 42 =
         Ret (mkTdbIter (Some 0%nat) (Some b),
              set_hdr db_one (Some (tdb_htrie_get_rec h1 0)))).
Proof.
  apply (tdb_entry_create_get db0 db_one hdr0 42 "X" 1 0);
    [reflexivity | by apply wf_slot_leaf | vm_compute; reflexivity].
Defined.

(** X15: allocate, complete, look up.  The record that [tdb_entry_alloc]
    returns on a well-formed table is not complete and a lookup of its
    key does not yield it; after [tdb_entry_mark_complete] it is complete
    and the lookup yields it. *)
Theorem tdb_entry_alloc_complete (db db1 : TDB) (h : TdbHdr) (key len : Z)
    (p : nat) :
  hdr db = Some h ->
  wf_hdr h ->
  tdb_entry_alloc db key len = Ret (Some p, db1) ->
  tdb_entry_is_complete db1 p = Ret (false, db1) /\
  (exists ps, lookup_all db1 key = Ret (ps, db1) /\ ~ In p ps) /\
  exists db2,
    tdb_entry_mark_complete db1 p = Ret (tt, db2) /\
    tdb_entry_is_complete db2 p = Ret (true, db2) /\
    exists ps, lookup_all db2 key = Ret (ps, db2) /\ In p ps.
Proof.
  intros Hdb Hwf. rewrite (tdb_entry_alloc_eq db key len h Hdb).
  destruct (len <? TDB_HTRIE_MINDREC); [done|].
  destruct (tdb_htrie_insert h key None None 0 len false) as [h1 [p'|]] eqn:Hins;
    [|done].
  cbn [fst snd]. intros [= <- <-].
  destruct (tdb_htrie_insert_chain h h1 key len p' Hwf Hins)
    as (Hwf1 & Hp & Hsub & Hplen & Hrecs).
  set (r0 := mkTdbRec key None len 2 false false EmptyString) in *.
  assert (Hp1 : recs h1 !! p' = Some r0)
    by (rewrite Hrecs, Hplen; by apply list_lookup_middle).
  split; [|split].
  - unfold tdb_entry_is_complete, bind, deref, ret. cbn [hdr set_hdr].
    by rewrite Hp1.
  - eexists. split; [by apply lookup_all_spec|].
    intros [_ Hm]%filter_In. unfold rec_matches in Hm. by rewrite Hp1 in Hm.
  - set (h2 := upd_rec h1 p' tdb_rec_mark_complete).
    assert (Hp2 : recs h2 !! p' = Some (tdb_rec_mark_complete r0))
      by exact (upd_rec_lookup h1 p' _ r0 Hp1).
    exists (set_hdr db (Some h2)). split; [|split].
    + unfold tdb_entry_mark_complete, bind, deref, with_hdr.
      cbn [hdr set_hdr]. by rewrite Hp1.
    + unfold tdb_entry_is_complete, bind, deref, ret. cbn [hdr set_hdr].
      by rewrite Hp2.
    + eexists. split; [by apply lookup_all_spec|].
      apply filter_In. split.
      * unfold h2. by rewrite chain_upd_rec.
      * unfold rec_matches. rewrite Hp2. cbn. by rewrite Z.eqb_refl.
Qed.

Lemma tdb_entry_alloc_complete_witness :
  tdb_entry_is_complete db_alloc 0 = Ret (false, db_alloc) /\
  (exists ps, lookup_all db_alloc 42 = Ret (ps, db_alloc) /\ ~ In 0%nat ps) /\
  exists db2,
    tdb_entry_mark_complete db_alloc 0 = Ret (tt, db2) /\
    tdb_entry_is_complete db2 0 = Ret (true, db2) /\
    exists ps, lookup_all db2 42 = Ret (ps, db2) /\ In 0%nat ps.
Proof.
  apply (tdb_entry_alloc_complete db0 db_alloc hdr0 42 128 0);
    [reflexivity | by apply wf_slot_leaf | vm_compute; reflexivity].
Defined.

(** The effect of a removal on the record area: the records of the chain
    that are hit get the tombstone and lose the reference of the index;
    the other records and the trie are as before. *)
Lemma htrie_remove_fold (key : Z) (eq_cb : tdb_eq_cb_t Z) (data : Z)
    (force : bool) (ps : list nat) (h : TdbHdr) :
  let hit := fun r =>
    (rec_key r =? key) && negb (rec_tombstone r)
    && (rec_complete r || force) && eq_cb r data in
  let h' := fold_left (htrie_remove_rec key eq_cb data force) ps h in
  root h' = root h /\
  forall q,
    recs h' !! q =
      match recs h !! q with
      | Some r =>
          if bool_decide (q ∈ ps) && hit r
          then Some (set_refcnt (set_tombstone r true) (refcnt r - 1))
          else Some r
      | None => None
      end.
Proof.
  intros hit. revert h. induction ps as [|p ps IH]; intros h; cbn zeta.
  - split; [done|]. intros q. cbn [fold_left].
    destruct (recs h !! q) as [r|]; [|done].
    rewrite bool_decide_eq_false_2; [done|]. apply not_elem_of_nil.
  - cbn [fold_left].
    destruct (IH (htrie_remove_rec key eq_cb data force h p)) as [Hroot Hrecs].
    assert (Hstep : root (htrie_remove_rec key eq_cb data force h p) = root h /\
      forall q, recs (htrie_remove_rec key eq_cb data force h p) !! q =
        match recs h !! q with
        | Some r =>
            if bool_decide (q = p) && hit r
            then Some (set_refcnt (set_tombstone r true) (refcnt r - 1))
            else Some r
        | None => None
        end).
    { unfold htrie_remove_rec.
      destruct (recs h !! p) as [r|] eqn:Hp.
      - fold (hit r). destruct (hit r) eqn:Hhit.
        + split; [apply upd_rec_root|]. intros q.
          destruct (decide (q = p)) as [->|Hne].
          * rewrite (upd_rec_lookup h p _ r Hp), Hp, Hhit.
            by rewrite bool_decide_eq_true_2.
          * rewrite upd_rec_lookup_ne by done.
            destruct (recs h !! q); [|done].
            by rewrite bool_decide_eq_false_2.
        + split; [done|]. intros q.
          destruct (recs h !! q) as [r'|] eqn:Hq; [|done].
          destruct (decide (q = p)) as [->|Hne].
          * assert (r' = r) as -> by congruence. by rewrite Hhit, andb_false_r.
          * by rewrite bool_decide_eq_false_2.
      - split; [done|]. intros q.
        destruct (recs h !! q) as [r'|] eqn:Hq; [|done].
        rewrite bool_decide_eq_false_2; [done|]. congruence. }
    destruct Hstep as [Hroot1 Hrecs1].
    split; [by rewrite Hroot|]. intros q.
    rewrite Hrecs, Hrecs1.
    destruct (recs h !! q) as [r|]; [|done].
    destruct (decide (q = p)) as [->|Hne].
    + rewrite bool_decide_eq_true_2 by done.
      rewrite (bool_decide_eq_true_2 (p ∈ p :: ps)) by left.
      cbn [andb]. destruct (hit r) eqn:Hhit; [|by rewrite Hhit, andb_false_r].
      replace (hit (set_refcnt (set_tombstone r true) (refcnt r - 1))) with false;
        [by rewrite andb_false_r|].
      unfold hit. cbn. by rewrite andb_false_r.
    + rewrite (bool_decide_eq_false_2 (q = p)) by done. cbn [andb].
      destruct (decide (q ∈ ps)) as [Hin|Hnin].
      * rewrite !bool_decide_eq_true_2; [done| by right | done].
      * rewrite !bool_decide_eq_false_2; [done| |done].
        intros [->|?]%elem_of_cons; done.
Qed.

(** A removal keeps the trie and the state of the allocator. *)
Lemma tdb_htrie_remove_root (h : TdbHdr) (key : Z) (eq_cb : tdb_eq_cb_t Z)
    (data : Z) (force : bool) :
  root (tdb_htrie_remove h key eq_cb data force) = root h.
Proof.
  unfold tdb_htrie_remove. destruct (tdb_htrie_lookup h key) as [b|]; [|done].
  apply htrie_remove_fold.
Qed.

Lemma tdb_htrie_remove_alloc (h : TdbHdr) (key : Z) (eq_cb : tdb_eq_cb_t Z)
    (data : Z) (force : bool) :
  used (tdb_htrie_remove h key eq_cb data force) = used h /\
  dbsz (tdb_htrie_remove h key eq_cb data force) = dbsz h /\
  bckt_slots (tdb_htrie_remove h key eq_cb data force) = bckt_slots h.
Proof.
  unfold tdb_htrie_remove. destruct (tdb_htrie_lookup h key) as [b|]; [|done].
  generalize (bckt_recs b). intros ps. revert h.
  induction ps as [|p ps IH]; intros h; [done|].
  cbn [fold_left].
  destruct (IH (htrie_remove_rec key eq_cb data force h p)) as (-> & -> & ->).
  unfold htrie_remove_rec. destruct (recs h !! p) as [r|] eqn:Hp; [|done].
  destruct (_ && _); [|done]. unfold upd_rec. by rewrite Hp.
Qed.

(** After a removal a record of the chain is visible iff it was visible
    and the equality callback does not accept it. *)
Lemma tdb_htrie_remove_matches (h : TdbHdr) (key : Z) (eq_cb : tdb_eq_cb_t Z)
    (data : Z) (force : bool) (q : nat) :
  In q (chain h key) ->
  rec_matches (recs (tdb_htrie_remove h key eq_cb data force)) key q =
    rec_matches (recs h) key q &&
    match recs h !! q with
    | Some r => negb (eq_cb r data)
    | None => false
    end.
Proof.
  unfold tdb_htrie_remove, chain.
  destruct (tdb_htrie_lookup h key) as [b|]; [|done].
  intros Hq.
  destruct (htrie_remove_fold key eq_cb data force (bckt_recs b) h)
    as [_ Hrecs].
  unfold rec_matches. rewrite Hrecs.
  destruct (recs h !! q) as [r|]; [|done].
  rewrite bool_decide_eq_true_2 by (by apply list_elem_of_In). cbn [andb].
  unfold tdb_live_rec.
  destruct r as [k cn l rc cpl tmb d0].
  cbn [rec_key rec_tombstone rec_complete set_refcnt set_tombstone].
  destruct (k =? key) eqn:Hk, tmb, cpl, force, (eq_cb _ data);
    cbn [andb orb negb rec_key rec_tombstone rec_complete
         set_refcnt set_tombstone];
    by rewrite ?Hk.
Qed.

(** X16: remove and lookup.  After [tdb_entry_remove] on an open table a
    lookup of the key with iteration yields the records that were visible
    before and that the equality callback does not accept, in the order
    of the chain: every visible record that the callback accepts is gone,
    and no other record of the key is. *)
Theorem tdb_entry_remove_lookup (db : TDB) (h : TdbHdr) (key : Z)
    (eq_cb : tdb_eq_cb_t Z) (data : Z) (force : bool) :
  hdr db = Some h ->
  exists db1,
    tdb_entry_remove db key eq_cb data force = Ret (tt, db1) /\
    lookup_all db1 key =
      Ret (List.filter
             (fun q => rec_matches (recs h) key q &&
                       match recs h !! q with
                       | Some r => negb (eq_cb r data)
                       | None => false
                       end)
             (chain h key), db1).
Proof.
  intros Hdb. unfold tdb_entry_remove, with_hdr. rewrite Hdb.
  eexists. split; [reflexivity|].
  rewrite (lookup_all_spec _ (tdb_htrie_remove h key eq_cb data force) key)
    by done.
  do 2 f_equal.
  replace (chain (tdb_htrie_remove h key eq_cb data force) key)
    with (chain h key)
    by (unfold chain, tdb_htrie_lookup; by rewrite tdb_htrie_remove_root).
  apply filter_ext_in. intros q Hq. by apply tdb_htrie_remove_matches.
Qed.

Lemma tdb_entry_remove_lookup_witness :
  exists db1,
    tdb_entry_remove db_one 42 (fun _ _ => true) 0 false = Ret (tt, db1) /\
    lookup_all db1 42 =
      Ret (List.filter
             (fun q => rec_matches (recs (default hdr0 (hdr db_one))) 42 q &&
                       match recs (default hdr0 (hdr db_one)) !! q with
                       | Some r => negb true
                       | None => false
                       end)
             (chain (default hdr0 (hdr db_one)) 42), db1).
Proof.
  apply (tdb_entry_remove_lookup db_one (default hdr0 (hdr db_one)) 42
           (fun _ _ => true) 0 false).
  reflexivity.
Defined.

(** X17: unique allocation.  When [tdb_entry_alloc_unique] with an
    equality callback returns a record on a well-formed table, the
    records of the key that the callback accepts are removed at once,
    while the new record is not complete yet: until it is marked
    complete, a lookup of the key yields neither the new record nor a
    record that the callback accepts, only records that were visible
    before and that the callback rejects. *)
Theorem tdb_entry_alloc_unique_replaces (db db1 : TDB) (h : TdbHdr)
    (key len : Z) (eq_cb : tdb_eq_cb_t Z) (eq_data : Z) (p : nat) :
  hdr db = Some h ->
  wf_hdr h ->
  tdb_entry_alloc_unique db key len (Some eq_cb) eq_data = Ret (Some p, db1) ->
  exists ps,
    lookup_all db1 key = Ret (ps, db1) /\
    forall q, In q ps ->
      q <> p /\
      rec_matches (recs h) key q = true /\
      exists r, recs h !! q = Some r /\ eq_cb r eq_data = false.
Proof.
  intros Hdb Hwf.
  rewrite (tdb_entry_alloc_unique_eq db key len (Some eq_cb) eq_data h Hdb).
  destruct (len <? TDB_HTRIE_MINDREC); [done|].
  set (h1 := tdb_htrie_remove h key eq_cb eq_data false).
  destruct (tdb_htrie_remove_alloc h key eq_cb eq_data false)
    as (Hused & Hdbsz & Hslots). fold h1 in Hused, Hdbsz, Hslots.
  assert (Hins : tdb_htrie_insert h key None (Some eq_cb) eq_data len false =
                 tdb_htrie_insert h1 key None None 0 len false \/
                 snd (tdb_htrie_insert h key None (Some eq_cb) eq_data len false)
                 = None).
  { unfold tdb_htrie_insert. fold h1. rewrite Hused, Hdbsz.
    destruct (used h + len <=? dbsz h); [by left|by right]. }
  destruct Hins as [->|Hnone]; [|by rewrite Hnone].
  destruct (tdb_htrie_insert h1 key None None 0 len false) as [h2 [p'|]] eqn:Hins;
    [|done].
  cbn [fst snd]. intros [= <- <-].
  assert (Hwf1 : wf_hdr h1)
    by (unfold wf_hdr, h1; by rewrite tdb_htrie_remove_root).
  destruct (tdb_htrie_insert_chain h1 h2 key len p' Hwf1 Hins)
    as (Hwf2 & Hp & Hsub & Hplen & Hrecs).
  eexists. split; [by apply lookup_all_spec|].
  intros q [Hq Hm]%filter_In.
  assert (Hne : q <> p').
  { intros ->. unfold rec_matches in Hm.
    rewrite Hrecs, Hplen, list_lookup_middle in Hm by done. done. }
  split; [done|].
  rewrite Hrecs, rec_matches_app in Hm by (by rewrite <- Hplen).
  destruct (Hsub q Hq) as [|Hin]; [done|].
  replace (chain h1 key) with (chain h key) in Hin
    by (unfold chain, tdb_htrie_lookup, h1; by rewrite tdb_htrie_remove_root).
  unfold h1 in Hm. rewrite tdb_htrie_remove_matches in Hm by done.
  apply andb_true_iff in Hm as [Hm Heq]. split; [done|].
  destruct (recs h !! q) as [r|]; [|done].
  exists r. split; [done|]. by apply negb_true_iff.
Qed.

Lemma tdb_entry_alloc_unique_replaces_witness :
  exists ps,
    lookup_all db_replaced 42 = Ret (ps, db_replaced) /\
    forall q, In q ps ->
      q <> 1%nat /\
      rec_matches (recs (default hdr0 (hdr db_one))) 42 q = true /\
      exists r, recs (default hdr0 (hdr db_one)) !! q = Some r /\
                (fun _ _ => true) r 0 = false.
Proof.
  apply (tdb_entry_alloc_unique_replaces db_one db_replaced
           (default hdr0 (hdr db_one)) 42 128 (fun _ _ => true) 0 1).
  - reflexivity.
  - by apply wf_slot_leaf.
  - vm_compute. reflexivity.
Defined.

(** ** Public operations on normal paths *)

Section NormalPaths.

Variable W : Type.
Variable TDB_TBLNAME_LEN : nat.
Variable TDB_PATH_LEN : nat.
Variable tdb_tbl_lookup : string -> Z -> M W (option TDB).
Variable tdb_tbl_enumerate : TDB -> M W unit.
Variable kzalloc_TDB : M W bool.
Variable tdb_put : TDB -> M W unit.
Variable tdb_file_open : TDB -> Z -> M W (option (TdbFile * option TdbHdr)).
Variable tdb_file_close : TDB -> M W unit.
Variable tdb_htrie_init : option TdbHdr -> Z -> Z -> M W (option TdbHdr).
Variable tdb_tbl_forget : TDB -> M W unit.
Variable tdb_htrie_exit : option TdbHdr -> M W unit.
Variable kfree_TDB : TDB -> M W unit.

Hypothesis lookup_returns : forall name len w, returns (tdb_tbl_lookup name len w).
Hypothesis enumerate_returns : forall db w, returns (tdb_tbl_enumerate db w).
Hypothesis kzalloc_returns : forall w, returns (kzalloc_TDB w).
Hypothesis put_returns : forall db w, returns (tdb_put db w).
Hypothesis file_open_returns : forall db fsize w, returns (tdb_file_open db fsize w).
Hypothesis file_close_returns : forall db w, returns (tdb_file_close db w).
Hypothesis htrie_init_returns :
  forall h size rec_size w, returns (tdb_htrie_init h size rec_size w).
Hypothesis forget_returns : forall db w, returns (tdb_tbl_forget db w).
Hypothesis htrie_exit_returns : forall h w, returns (tdb_htrie_exit h w).
Hypothesis kfree_returns : forall db w, returns (kfree_TDB db w).

(** With a node of at most 9 [tdb_get_db] returns. *)
Lemma tdb_get_db_no_panic (pre fpath : string) (nd : Z) (w : W) :
  nd <= 9 ->
  returns (tdb_get_db W TDB_TBLNAME_LEN TDB_PATH_LEN tdb_tbl_lookup
                      kzalloc_TDB pre fpath nd w).
Proof.
  intros Hnode. unfold tdb_get_db, bind, BUG_ON, ret.
  replace (9 <? nd) with false by (symmetry; apply Z.ltb_ge; lia).
  destruct (negb _) eqn:Hsfx; [by eexists _, _|].
  apply negb_false_iff, String.eqb_eq in Hsfx.
  destruct (strrchr fpath "/") as [slash|] eqn:Hslash; [|by eexists _, _].
  destruct (tdb_suffix_slash pre fpath slash Hsfx Hslash) as [Hlen Hsuf].
  unfold sizeof_TDB_SUFFIX. cbn [TDB_SUFFIX String.length].
  replace (_ <? 0) with false by (symmetry; apply Z.ltb_ge; lia).
  destruct (_ <=? _); [by eexists _, _|].
  match goal with |- context [tdb_tbl_lookup ?n ?l w] =>
    destruct (lookup_returns n l w) as (db & w1 & ->)
  end.
  destruct db as [db|]; [by eexists _, _|].
  destruct (kzalloc_returns w1) as (ok & w2 & ->).
  destruct ok; by eexists _, _.
Qed.

(** With a node of at most 9 [tdb_open] returns, with a handle or with
    NULL. *)
Lemma tdb_open_no_panic (pre fpath : string) (fsize rec_size nd : Z) (w : W) :
  nd <= 9 ->
  returns (tdb_open W TDB_TBLNAME_LEN TDB_PATH_LEN tdb_tbl_lookup
                    tdb_tbl_enumerate kzalloc_TDB tdb_put tdb_file_open
                    tdb_file_close tdb_htrie_init pre fpath fsize rec_size nd w).
Proof.
  intros Hnode. unfold tdb_open.
  destruct (negb _ || _); [by eexists _, _|].
  unfold bind at 1.
  destruct (tdb_get_db_no_panic pre fpath nd w Hnode) as (d & w1 & ->).
  destruct d as [d|]; [|by eexists _, _].
  unfold bind at 1.
  destruct (file_open_returns (set_node d nd) fsize w1) as (fo & w2 & ->).
  destruct fo as [[f h]|].
  - unfold bind at 1. cbn [hdr set_hdr set_filp].
    match goal with |- context [tdb_htrie_init ?a ?b ?c w2] =>
      destruct (htrie_init_returns a b c w2) as (h' & w3 & ->)
    end.
    destruct h' as [h'|].
    + unfold bind, ret.
      match goal with |- context [tdb_tbl_enumerate ?a w3] =>
        destruct (enumerate_returns a w3) as ([] & w4 & ->)
      end.
      by eexists _, _.
    + unfold bind, ret.
      match goal with |- context [tdb_file_close ?a w3] =>
        destruct (file_close_returns a w3) as ([] & w4 & ->)
      end.
      match goal with |- context [tdb_put ?a w4] =>
        destruct (put_returns a w4) as ([] & w5 & ->)
      end.
      by eexists _, _.
  - unfold bind, ret.
    match goal with |- context [tdb_put ?a w2] =>
      destruct (put_returns a w2) as ([] & w3 & ->)
    end.
    by eexists _, _.
Qed.

(** [tdb_close] returns. *)
Lemma tdb_close_no_panic (db : option TDB) (w : W) :
  returns (tdb_close W tdb_tbl_forget tdb_file_close tdb_htrie_exit
                     kfree_TDB db w).
Proof.
  unfold tdb_close. destruct db as [db|]; [|by eexists _, _].
  destruct (atomic_dec_and_test db) as [zero db1].
  destruct zero; cbn [negb]; [|by eexists _, _].
  unfold __do_close_table, bind, ret.
  destruct (forget_returns db1 w) as ([] & w1 & ->).
  destruct (file_close_returns db1 w1) as ([] & w2 & ->).
  destruct (htrie_exit_returns (hdr db1) w2) as ([] & w3 & ->).
  destruct (kfree_returns db1 w3) as ([] & w4 & ->).
  by eexists _, _.
Qed.

End NormalPaths.

(** The operations on an open table return. *)
Lemma with_hdr_returns {A : Type} (f : TdbHdr -> TdbHdr * A) (db : TDB)
    (h : TdbHdr) :
  hdr db = Some h -> returns (with_hdr f db).
Proof.
  intros Hdb. unfold with_hdr. rewrite Hdb.
  destruct (f h) as [h' a]. by eexists _, _.
Qed.

(** C4, as the code has it.  A NULL data buffer passed to
    [tdb_entry_create], and a length below [TDB_HTRIE_MINDREC] passed to
    [tdb_entry_alloc] or [tdb_entry_alloc_unique], are not reported as an
    error: they fire a [BUG_ON].  On the normal paths every public
    operation returns, with its result or with the NULL of an error, and
    does not stop the kernel: the operations on an open table with a data
    buffer, a length of at least [TDB_HTRIE_MINDREC], records of the
    table, an iterator that stands on a record and a free lock of
    get-or-allocate; [tdb_open] with a node of at most 9 and [tdb_close],
    with collaborators that return. *)
Theorem tdb_entry_bad_input :
  (forall db key len, tdb_entry_create db key None len = Bug)
  /\
  (forall db key len eq_cb eq_data,
     len < TDB_HTRIE_MINDREC ->
     tdb_entry_alloc db key len = Bug /\
     tdb_entry_alloc_unique db key len eq_cb eq_data = Bug)
  /\
  (forall db h,
     hdr db = Some h ->
     (forall key d len, returns (tdb_entry_create db key (Some d) len)) /\
     (forall key len eq_cb eq_data,
        TDB_HTRIE_MINDREC <= len ->
        returns (tdb_entry_alloc db key len) /\
        returns (tdb_entry_alloc_unique db key len eq_cb eq_data)) /\
     (forall r size, returns (tdb_entry_add db r size)) /\
     (forall vrec_data r v curr_ptr tail_len tot_size,
        recs h !! r = Some v ->
        returns (tdb_entry_get_room vrec_data db r curr_ptr tail_len tot_size)) /\
     (forall p v,
        recs h !! p = Some v ->
        returns (tdb_entry_is_complete db p) /\
        returns (tdb_entry_mark_complete db p)) /\
     (forall key eq_cb data force,
        returns (tdb_entry_remove db key eq_cb data force)) /\
     (forall key, returns (tdb_rec_get db key)) /\
     (forall p v b,
        recs h !! p = Some v ->
        returns (tdb_rec_next db (mkTdbIter (Some p) (Some b)))) /\
     (forall p, returns (tdb_rec_put db p) /\ returns (tdb_rec_keep db p)) /\
     (forall key c,
        ga_lock db = false ->
        TDB_HTRIE_MINDREC <= len c ->
        returns (tdb_rec_get_alloc db key c)) /\
     (forall (V : Type) (fn : tdb_walk_fn_t V) v,
        returns (tdb_entry_walk db fn v)))
  /\
  (forall (W : Type) (tblname_len path_len : nat) tdb_tbl_lookup
          tdb_tbl_enumerate kzalloc_TDB tdb_put tdb_file_open tdb_file_close
          tdb_htrie_init tdb_tbl_forget tdb_htrie_exit kfree_TDB,
     (forall name len w, returns (tdb_tbl_lookup name len w)) ->
     (forall db w, returns (tdb_tbl_enumerate db w)) ->
     (forall w, returns (kzalloc_TDB w)) ->
     (forall db w, returns (tdb_put db w)) ->
     (forall db fsize w, returns (tdb_file_open db fsize w)) ->
     (forall db w, returns (tdb_file_close db w)) ->
     (forall h size rec_size w, returns (tdb_htrie_init h size rec_size w)) ->
     (forall db w, returns (tdb_tbl_forget db w)) ->
     (forall h w, returns (tdb_htrie_exit h w)) ->
     (forall db w, returns (kfree_TDB db w)) ->
     (forall pre fpath fsize rec_size nd (w : W),
        nd <= 9 ->
        returns (tdb_open W tblname_len path_len tdb_tbl_lookup
                          tdb_tbl_enumerate kzalloc_TDB tdb_put tdb_file_open
                          tdb_file_close tdb_htrie_init
                          pre fpath fsize rec_size nd w)) /\
     (forall db (w : W),
        returns (tdb_close W tdb_tbl_forget tdb_file_close tdb_htrie_exit
                           kfree_TDB db w))).
Proof.
  split; [|split; [|split]].
  - reflexivity.
  - intros db key len eq_cb eq_data Hlen. apply Z.ltb_lt in Hlen.
    unfold tdb_entry_alloc, tdb_entry_alloc_unique, bind, BUG_ON.
    by rewrite Hlen.
  - intros db h Hdb.
    split; [|split; [|split; [|split; [|split; [|split; [|split;
      [|split; [|split; [|split]]]]]]]]].
    + intros key d len.
      unfold tdb_entry_create, bind, BUG_ON, with_hdr, ret.
      rewrite bool_decide_eq_false_2 by done. rewrite Hdb.
      destruct (tdb_htrie_insert _ _ _ _ _ _ _) as [h1 r]. by eexists _, _.
    + intros key len eq_cb eq_data Hlen. apply Z.ltb_ge in Hlen.
      rewrite (tdb_entry_alloc_eq _ _ _ h Hdb).
      rewrite (tdb_entry_alloc_unique_eq _ _ _ _ _ h Hdb). rewrite Hlen.
      split; by eexists _, _.
    + intros r size. by apply (with_hdr_returns _ db h).
    + intros vrec_data r v curr_ptr tail_len tot_size Hr.
      unfold tdb_entry_get_room. unfold bind at 1. unfold deref.
      rewrite Hdb, Hr. cbv beta iota.
      destruct (_ <=? _); [by eexists _, _|].
      unfold bind, with_hdr, ret. rewrite Hdb. cbn [hdr set_hdr].
      destruct (tdb_htrie_extend_rec _ r tot_size) as [h2 [p|]];
        by eexists _, _.
    + intros p v Hp. split.
      * unfold tdb_entry_is_complete, bind, deref, ret. rewrite Hdb, Hp.
        by eexists _, _.
      * unfold tdb_entry_mark_complete, bind, deref, with_hdr.
        rewrite Hdb, Hp, Hdb. by eexists _, _.
    + intros key eq_cb data force. by apply (with_hdr_returns _ db h).
    + intros key. destruct (tdb_rec_get_returns db h key Hdb) as (it & db' & ->).
      by eexists _, _.
    + intros p v b Hp. unfold tdb_rec_next. cbn [bckt rec].
      unfold bind, deref, with_hdr, ret. rewrite Hdb, Hp, Hdb.
      destruct (tdb_htrie_next_rec h p b (rec_key v)) as [[h' b'] r'].
      by eexists _, _.
    + intros p. split; by apply (with_hdr_returns _ db h).
    + intros key c Hlock Hlen. apply Z.ltb_ge in Hlen.
      rewrite (tdb_rec_get_alloc_eq db key c h Hdb Hlock).
      destruct (List.find _ _) as [q|]; [by eexists _, _|].
      destruct (precreate_veto c); [by eexists _, _|].
      rewrite Hlen.
      destruct (tdb_htrie_insert _ _ _ _ _ _ _) as [h1 [p|]]; by eexists _, _.
    + intros V fn v. by apply (with_hdr_returns _ db h).
  - intros W tblname_len path_len tdb_tbl_lookup tdb_tbl_enumerate kzalloc_TDB
      tdb_put tdb_file_open tdb_file_close tdb_htrie_init tdb_tbl_forget
      tdb_htrie_exit kfree_TDB H1 H2 H3 H4 H5 H6 H7 H8 H9 H10.
    split.
    + intros pre fpath fsize rec_size nd w Hnode. by apply tdb_open_no_panic.
    + intros db w. by apply tdb_close_no_panic.
Qed.

Lemma tdb_entry_bad_input_witness :
  (tdb_entry_alloc db0 1 5 = Bug /\
   tdb_entry_alloc_unique db0 1 5 None 0 = Bug) /\
  returns (tdb_entry_create db0 1 (Some "alpha"%string) 5) /\
  (returns (tdb_entry_alloc db0 1 8192) /\
   returns (tdb_entry_alloc_unique db0 1 8192 None 0)) /\
  returns (tdb_entry_get_room vrec_data0 db_alloc 0 116 50 256) /\
  returns (tdb_rec_next db_one_held (mkTdbIter (Some 0%nat) (Some (Bckt [] None)))) /\
  returns (tdb_rec_get_alloc db_one 7 ctx_any) /\
  (returns (tdb_open0 "" "/opt/cache.tdb" (2 ^ 21) 64 3 []) /\
   returns (tdb_close (list TDB) put_nop put_nop (fun _ => ret tt) put_nop
                      (Some db0) [])).
Proof.
  destruct tdb_entry_bad_input as (_ & H2 & H3 & H4).
  split; [|split; [|split; [|split; [|split; [|split]]]]].
  - apply (H2 db0 1 5 None 0). reflexivity.
  - apply (H3 db0 hdr0 eq_refl).
  - apply (H3 db0 hdr0 eq_refl). discriminate.
  - apply (proj1 (proj2 (proj2 (proj2 (H3 db_alloc _ eq_refl))))
             vrec_data0 0%nat (mkTdbRec 42 None 128 2 false false EmptyString)).
    reflexivity.
  - apply (proj1 (proj2 (proj2 (proj2 (proj2 (proj2 (proj2 (proj2
             (H3 db_one_held _ eq_refl))))))))
             0%nat (mkTdbRec 42 None 1 3 true false "X")).
    reflexivity.
  - apply (H3 db_one _ eq_refl); [reflexivity | discriminate].
  - assert (Hopen := H4 (list TDB) 31%nat 128%nat reg_lookup reg_enumerate
                        kzalloc_ok put_nop file_open_ok put_nop htrie_init_ok
                        put_nop (fun _ => ret tt) put_nop).
    destruct Hopen as [Ho Hc]; try (intros; by eexists _, _).
    split; [apply Ho; lia | apply Hc].
Defined.
